(** * Railway temperature dashboard: the data pipeline of
      [src/TemperatureDashboard.jsx]

    The dashboard parses a CSV file into loosely typed rows, derives a display
    date and a severity for each row, computes the map framing, filters the
    rows by date, severity, temperature and a search term, and sorts the
    filtered rows by a column.  This file embeds that pipeline: JavaScript
    values and the operators the component applies to them, the component's
    state, its handlers and its effects.

    JavaScript numbers are IEEE 754 binary64 values and are modelled by the
    primitive [float] type, whose operations are the ones the engine runs.
    Built-ins whose result depends on the engine, the locale or the time zone
    ([Date.prototype.toLocaleString], [Date.parse], the number-to-string and
    string-to-number conversions) are collected in the class [Host]: every
    general statement holds for every host. *)

From Stdlib Require Import Floats ZArith PArith List String Ascii Bool Lia.
From Stdlib Require Import DecimalString Sorted Permutation.
Import ListNotations.

Set Warnings "-inexact-float".
Set Implicit Arguments.

Local Open Scope string_scope.
Local Open Scope list_scope.

(** ** ECMAScript values *)

(** What a cell holds after [Papa.parse] with [dynamicTyping: true]: a
    number, a boolean, a [Date] for a cell in ISO format (given by its time
    value), [null] for an empty cell, a string for anything else, and
    [undefined] when the row is shorter than the header.  Strings are
    sequences of code units below 256. *)
Inductive value : Type :=
| VUndefined
| VNull
| VBool (b : bool)
| VNum (n : float)
| VStr (s : string)
| VDate (tv : float).

(** Errors the expressions of the component can throw: the [TypeError] of
    the language, the [Error('Invalid LatLng object: ...')] of Leaflet's
    [LatLng] constructor, and the [Error('Objects are not valid as a React
    child ...')] of React. *)
Inductive error : Type :=
| TypeError
| InvalidLatLng
| InvalidChild.

(** Completion of an expression: a value, or an abrupt completion. *)
Inductive result (A : Type) : Type :=
| Ok (a : A)
| Throw (e : error).

Arguments Ok {A} a.
Arguments Throw {A} e.

Definition bind {A B : Type} (m : result A) (k : A -> result B) : result B :=
  match m with
  | Ok a => k a
  | Throw e => Throw e
  end.

Notation "x <- m ;; k" := (bind m (fun x => k))
  (at level 61, m at next level, right associativity).

(** The engine- and locale-dependent built-ins. *)
Class Host : Type := {
  (** [StringToNumber]: [ToNumber] applied to a string. *)
  StringToNumber : string -> float;
  (** [Number::toString] in radix 10. *)
  Number_toString : float -> string;
  (** [Date.prototype.toLocaleString] of a date whose time value is a number
      of milliseconds (not NaN). *)
  Date_toLocaleString : float -> string;
  (** [new Date(s).getTime()] for a string [s]: the parsed time value, NaN
      when the string is not recognised. *)
  Date_parse : string -> float;
  (** [Date.prototype.toString] of a date whose time value is not NaN. *)
  Date_toString : float -> string
}.

Section Operators.

Context {host : Host}.

(** [ToNumber]; a [Date] converts through [valueOf], its time value. *)
Definition ToNumber (v : value) : float :=
  match v with
  | VUndefined => nan
  | VNull => 0%float
  | VBool true => 1%float
  | VBool false => 0%float
  | VNum n => n
  | VStr s => StringToNumber s
  | VDate tv => tv
  end.

(** [IsLessThan(x, y)]: [None] is the specification's [undefined], the answer
    when one side converts to NaN.  Two strings are compared by code units;
    any other pair is compared as numbers. *)
Definition IsLessThan (x y : value) : option bool :=
  match x, y with
  | VStr a, VStr b => Some (String.ltb a b)
  | _, _ =>
      let nx := ToNumber x in
      let ny := ToNumber y in
      if is_nan nx || is_nan ny then None else Some (nx <? ny)%float
  end.

(** [x < y], [x > y], [x <= y], [x >= y]. *)
Definition js_lt (x y : value) : bool :=
  match IsLessThan x y with Some true => true | _ => false end.

Definition js_gt (x y : value) : bool :=
  match IsLessThan y x with Some true => true | _ => false end.

Definition js_le (x y : value) : bool :=
  match IsLessThan y x with Some false => true | _ => false end.

Definition js_ge (x y : value) : bool :=
  match IsLessThan x y with Some false => true | _ => false end.

(** [v === ''] *)
Definition is_empty_string (v : value) : bool :=
  match v with
  | VStr "" => true
  | _ => false
  end.

(** Truthiness of a string: [if (s)]. *)
Definition truthy (s : string) : bool :=
  match s with
  | "" => false
  | _ => true
  end.

(** [v.toString()]: [undefined] and [null] have no properties, so the method
    call throws a [TypeError]. *)
Definition toString (v : value) : result string :=
  match v with
  | VUndefined => Throw TypeError
  | VNull => Throw TypeError
  | VBool true => Ok "true"
  | VBool false => Ok "false"
  | VNum n => Ok (Number_toString n)
  | VStr s => Ok s
  | VDate tv => Ok (if is_nan tv then "Invalid Date" else Date_toString tv)
  end.

End Operators.

(** [String.prototype.toLowerCase] on code units below 256: the letters A-Z
    and the capital letters of Latin-1 (U+00C0 to U+00DE, the multiplication
    sign U+00D7 apart) move up by 32.  On such text the method maps each
    character by itself.  Beyond Latin-1 it does not (a capital sigma is
    lowered according to what follows it); the string type holds no such
    text, and a statement that takes a string apart and lowers the pieces
    is made for ASCII text only. *)
Definition lower_char (c : ascii) : ascii :=
  let n := nat_of_ascii c in
  if ((65 <=? n)%nat && (n <=? 90)%nat)
     || ((192 <=? n)%nat && (n <=? 222)%nat && negb (n =? 215)%nat)
  then ascii_of_nat (n + 32)
  else c.

Fixpoint toLowerCase (s : string) : string :=
  match s with
  | EmptyString => EmptyString
  | String c rest => String (lower_char c) (toLowerCase rest)
  end.

(** [String.prototype.includes]: [sub] occurs in [s] at some position. *)
Fixpoint includes (s sub : string) : bool :=
  String.prefix sub s
  || match s with
     | EmptyString => false
     | String _ rest => includes rest sub
     end.

(** The comparison of two numbers, through their [spec_float] images:
    [None] when one of them is NaN. *)
Definition fcompare (x y : float) : option comparison :=
  SFcompare (Prim2SF x) (Prim2SF y).

(** ** Time values *)

(** An integer as a number (exact below 2^53, rounded to nearest above). *)
Definition Z_to_float (z : Z) : float :=
  SF2Prim (binary_normalize prec emax z 0 false).

(** The integral part of a finite number, rounding toward zero. *)
Definition truncate (t : float) : Z :=
  match Prim2SF t with
  | S754_finite s m e =>
      let a := if (0 <=? e)%Z then (Zpos m * 2 ^ e)%Z
               else Z.shiftr (Zpos m) (- e) in
      if s then (- a)%Z else a
  | _ => 0%Z
  end.

(** [TimeClip]: the time value of [new Date(t)] for a number [t]. *)
Definition TimeClip (t : float) : float :=
  if negb (is_finite t) then nan
  else if (8.64e15 <? abs t)%float then nan
  else Z_to_float (truncate t).

Section Dates.

Context {host : Host}.

(** [new Date(v * 1000).getTime()] *)
Definition instant_of (v : value) : float :=
  TimeClip (ToNumber v * 1000)%float.

(** [new Date(v * 1000).toLocaleString()]: an invalid date prints as
    "Invalid Date" in every engine. *)
Definition display_date (v : value) : string :=
  let tv := instant_of v in
  if is_nan tv then "Invalid Date" else Date_toLocaleString tv.

End Dates.

(** ** Rows *)

(** A row as [Papa.parse] yields it (the columns the component reads). *)
Record RawRow : Type := mkRawRow {
  UNIX_TIME : value;
  LATITUDE : value;
  LONGITUDE : value;
  POSITION_YARDS : value;
  SCORE : value;
  RECORDING_ID : value
}.

Inductive Severity : Type :=
| high
| medium
| low.

(** [{...row, date, severity}] *)
Record Row : Type := mkRow {
  raw :> RawRow;
  date : string;
  severity : Severity
}.

Section Normalizer.

Context {host : Host}.

(** The nested conditional of [loadData]. *)
Definition severity_of (score : value) : Severity :=
  if js_ge score (VNum 70) then high
  else if js_ge score (VNum 55) then medium
  else low.

(** The body of [results.data.map((row) => ...)]. *)
Definition normalize (row : RawRow) : Row :=
  {| raw := row;
     date := display_date (UNIX_TIME row);
     severity := severity_of (SCORE row) |}.

End Normalizer.

(** ** Component state *)

(** The value of the severity [<select>]: 'all' or one of the severities. *)
Inductive SeverityChoice : Type :=
| all
| only (s : Severity).

(** The columns whose header calls [handleSort]. *)
Inductive SortKey : Type :=
| K_date
| K_RECORDING_ID
| K_POSITION_YARDS
| K_LATITUDE
| K_LONGITUDE
| K_SCORE
| K_severity.

Inductive Direction : Type :=
| asc
| desc.

(** [{ key, direction }]; [key: null] is [None]. *)
Record SortConfig : Type := mkSortConfig {
  key : option SortKey;
  direction : Direction
}.

(** The two corners handed to [L.latLngBounds], south-west first; the
    rectangle Leaflet builds from corners that are numbers. *)
Record LatLngBounds : Type := latLngBounds {
  southWest : float * float;
  northEast : float * float
}.

(** [L.latLngBounds(corner1, corner2)]: Leaflet makes a [LatLng] of each
    corner, and the constructor of [LatLng] throws
    [Error('Invalid LatLng object: ...')] when a coordinate is NaN.
    Otherwise the rectangle spans the two points; the component hands over
    a south-west and a north-east corner, which then are its corners. *)
Definition L_latLngBounds (corner1 corner2 : float * float)
  : result LatLngBounds :=
  if is_nan (fst corner1) || is_nan (snd corner1)
     || is_nan (fst corner2) || is_nan (snd corner2)
  then Throw InvalidLatLng
  else Ok (latLngBounds corner1 corner2).

(** The [useState] cells of [TemperatureDashboard]. *)
Record State : Type := mkState {
  data : list Row;
  filteredData : list Row;
  temperatureRange : value * value;
  searchTerm : string;
  selectedSeverity : SeverityChoice;
  isDarkMode : bool;
  sortConfig : SortConfig;
  isMapExpanded : bool;
  mapCenter : float * float;
  mapBounds : option LatLngBounds;
  dateFrom : string;
  dateTo : string
}.

(** The initial values given to [useState]. *)
Definition initial_state : State :=
  {| data := [];
     filteredData := [];
     temperatureRange := (VNum 40, VNum 80);
     searchTerm := "";
     selectedSeverity := all;
     isDarkMode := false;
     sortConfig := {| key := None; direction := asc |};
     isMapExpanded := false;
     mapCenter := (51.505, -0.09)%float;
     mapBounds := None;
     dateFrom := "";
     dateTo := "" |}.

(** The setters of the [useState] cells. *)
Definition set_data (v : list Row) (st : State) : State :=
  mkState v (filteredData st) (temperatureRange st) (searchTerm st)
    (selectedSeverity st) (isDarkMode st) (sortConfig st) (isMapExpanded st)
    (mapCenter st) (mapBounds st) (dateFrom st) (dateTo st).

Definition set_filteredData (v : list Row) (st : State) : State :=
  mkState (data st) v (temperatureRange st) (searchTerm st)
    (selectedSeverity st) (isDarkMode st) (sortConfig st) (isMapExpanded st)
    (mapCenter st) (mapBounds st) (dateFrom st) (dateTo st).

Definition set_temperatureRange (v : value * value) (st : State) : State :=
  mkState (data st) (filteredData st) v (searchTerm st)
    (selectedSeverity st) (isDarkMode st) (sortConfig st) (isMapExpanded st)
    (mapCenter st) (mapBounds st) (dateFrom st) (dateTo st).

Definition set_searchTerm (v : string) (st : State) : State :=
  mkState (data st) (filteredData st) (temperatureRange st) v
    (selectedSeverity st) (isDarkMode st) (sortConfig st) (isMapExpanded st)
    (mapCenter st) (mapBounds st) (dateFrom st) (dateTo st).

Definition set_selectedSeverity (v : SeverityChoice) (st : State) : State :=
  mkState (data st) (filteredData st) (temperatureRange st) (searchTerm st)
    v (isDarkMode st) (sortConfig st) (isMapExpanded st)
    (mapCenter st) (mapBounds st) (dateFrom st) (dateTo st).

Definition set_isDarkMode (v : bool) (st : State) : State :=
  mkState (data st) (filteredData st) (temperatureRange st) (searchTerm st)
    (selectedSeverity st) v (sortConfig st) (isMapExpanded st)
    (mapCenter st) (mapBounds st) (dateFrom st) (dateTo st).

Definition set_sortConfig (v : SortConfig) (st : State) : State :=
  mkState (data st) (filteredData st) (temperatureRange st) (searchTerm st)
    (selectedSeverity st) (isDarkMode st) v (isMapExpanded st)
    (mapCenter st) (mapBounds st) (dateFrom st) (dateTo st).

Definition set_isMapExpanded (v : bool) (st : State) : State :=
  mkState (data st) (filteredData st) (temperatureRange st) (searchTerm st)
    (selectedSeverity st) (isDarkMode st) (sortConfig st) v
    (mapCenter st) (mapBounds st) (dateFrom st) (dateTo st).

Definition set_mapCenter (v : float * float) (st : State) : State :=
  mkState (data st) (filteredData st) (temperatureRange st) (searchTerm st)
    (selectedSeverity st) (isDarkMode st) (sortConfig st) (isMapExpanded st)
    v (mapBounds st) (dateFrom st) (dateTo st).

Definition set_mapBounds (v : option LatLngBounds) (st : State) : State :=
  mkState (data st) (filteredData st) (temperatureRange st) (searchTerm st)
    (selectedSeverity st) (isDarkMode st) (sortConfig st) (isMapExpanded st)
    (mapCenter st) v (dateFrom st) (dateTo st).

Definition set_dateFrom (v : string) (st : State) : State :=
  mkState (data st) (filteredData st) (temperatureRange st) (searchTerm st)
    (selectedSeverity st) (isDarkMode st) (sortConfig st) (isMapExpanded st)
    (mapCenter st) (mapBounds st) v (dateTo st).

Definition set_dateTo (v : string) (st : State) : State :=
  mkState (data st) (filteredData st) (temperatureRange st) (searchTerm st)
    (selectedSeverity st) (isDarkMode st) (sortConfig st) (isMapExpanded st)
    (mapCenter st) (mapBounds st) (dateFrom st) v.

(** ** Sorting *)

Definition SortKey_eqb (a b : SortKey) : bool :=
  match a, b with
  | K_date, K_date
  | K_RECORDING_ID, K_RECORDING_ID
  | K_POSITION_YARDS, K_POSITION_YARDS
  | K_LATITUDE, K_LATITUDE
  | K_LONGITUDE, K_LONGITUDE
  | K_SCORE, K_SCORE
  | K_severity, K_severity => true
  | _, _ => false
  end.

Definition Severity_eqb (a b : Severity) : bool :=
  match a, b with
  | high, high | medium, medium | low, low => true
  | _, _ => false
  end.

(** The string stored in the [severity] property. *)
Definition severity_name (s : Severity) : string :=
  match s with
  | high => "high"
  | medium => "medium"
  | low => "low"
  end.

(** [severityOrder = { high: 3, medium: 2, low: 1 }] *)
Definition severityOrder (s : Severity) : float :=
  match s with
  | high => 3%float
  | medium => 2%float
  | low => 1%float
  end.

(** [a[sortConfig.key]] *)
Definition get_property (k : SortKey) (a : Row) : value :=
  match k with
  | K_date => VStr (date a)
  | K_RECORDING_ID => RECORDING_ID a
  | K_POSITION_YARDS => POSITION_YARDS a
  | K_LATITUDE => LATITUDE a
  | K_LONGITUDE => LONGITUDE a
  | K_SCORE => SCORE a
  | K_severity => VStr (severity_name (severity a))
  end.

Section Sorting.

Context {host : Host}.

(** The value the comparator of [getSortedData] compares for a row: the
    property named by the key, replaced for 'date' and for 'severity'. *)
Definition sort_value (k : SortKey) (a : Row) : value :=
  let aValue := get_property k a in
  let aValue :=
    match k with
    | K_date => VNum (instant_of (UNIX_TIME a))
    | _ => aValue
    end in
  match k with
  | K_severity => VNum (severityOrder (severity a))
  | _ => aValue
  end.

(** The arrow function handed to [sort]. *)
Definition comparator (k : SortKey) (d : Direction) (a b : Row) : Z :=
  let aValue := sort_value k a in
  let bValue := sort_value k b in
  if js_lt aValue bValue then
    match d with asc => (-1)%Z | desc => 1%Z end
  else if js_gt aValue bValue then
    match d with asc => 1%Z | desc => (-1)%Z end
  else 0%Z.

(** The value compares as a number: it is not a string, and it converts
    to a number other than NaN. *)
Definition compares_as_number (v : value) : Prop :=
  match v with
  | VStr _ => False
  | _ => is_nan (ToNumber v) = false
  end.

(** The sort values of the rows compare with one another: all of them are
    strings, or all of them compare as numbers.  On such rows the
    comparator is consistent. *)
Definition comparable (k : SortKey) (rows : list Row) : Prop :=
  (forall r, In r rows -> exists s, sort_value k r = VStr s) \/
  (forall r, In r rows -> compares_as_number (sort_value k r)).

End Sorting.

Section ArraySort.

Variable A : Type.
Variable comparefn : A -> A -> Z.

(** [Array.prototype.sort(comparefn)] is a stable sort (ECMAScript 2019):
    for a consistent comparator its result is the permutation that is in
    comparator order and keeps ties in input order.  The insertion sort
    below is the reference: an element moves behind another one only when
    the comparison of the two is positive.  For a comparator that is not
    consistent the language leaves the order to the engine: there the
    reference is one of the orders an engine may give, not the order of
    every engine (see [v8_sort] below), and what is stated of the order of
    the output is stated for rows whose sort values compare. *)
Fixpoint insert_sorted (x : A) (l : list A) : list A :=
  match l with
  | [] => [x]
  | y :: rest =>
      if (0 <? comparefn x y)%Z then y :: insert_sorted x rest
      else x :: l
  end.

Definition array_sort (l : list A) : list A :=
  fold_right insert_sorted [] l.

(** The comparison of two elements is zero. *)
Definition ties (x y : A) : bool := (comparefn x y =? 0)%Z.

(** *** The sort of V8

    V8 sorts an array of fewer than 64 elements as one run
    ([third_party/v8/builtins/array-sort.tq]): [CountAndMakeRun] takes the
    longest ascending, or strictly descending, run at the start of the
    array, reversing a descending one, and [BinaryInsertionSort] puts each
    of the elements after the run in its place among the ones before it,
    found by bisection. *)

(** The loop of [CountAndMakeRun]: how many of the elements after
    [previous] continue the run. *)
Fixpoint run_continues (isDescending : bool) (previous : A) (l : list A)
  : nat :=
  match l with
  | [] => O
  | current :: rest =>
      let order := comparefn current previous in
      if isDescending then
        if (0 <=? order)%Z then O
        else S (run_continues isDescending current rest)
      else
        if (order <? 0)%Z then O
        else S (run_continues isDescending current rest)
  end.

(** [CountAndMakeRun] on the whole array: the run, ascending, and the
    elements after it. *)
Definition CountAndMakeRun (l : list A) : list A * list A :=
  match l with
  | elementHigh :: elementLow :: rest =>
      let isDescending := (comparefn elementLow elementHigh <? 0)%Z in
      let runLength := (2 + run_continues isDescending elementLow rest)%nat in
      let run := firstn runLength l in
      (if isDescending then rev run else run, skipn runLength l)
  | _ => (l, [])
  end.

(** The bisection of [BinaryInsertionSort]: the place of [pivot] between
    [left] and [right]; the interval halves with every step. *)
Fixpoint insertion_point (steps : nat) (pivot : A) (work : list A)
         (left right : nat) : nat :=
  match steps with
  | O => left
  | S steps' =>
      if (left <? right)%nat then
        let mid := (left + Nat.div2 (right - left))%nat in
        match nth_error work mid with
        | Some element =>
            if (comparefn pivot element <? 0)%Z
            then insertion_point steps' pivot work left mid
            else insertion_point steps' pivot work (S mid) right
        | None => left
        end
      else left
  end.

(** One round of [BinaryInsertionSort]: [pivot], the element after [work],
    moves to its place in [work]. *)
Definition insert_pivot (work : list A) (pivot : A) : list A :=
  let left :=
    insertion_point (List.length work) pivot work 0 (List.length work) in
  firstn left work ++ pivot :: skipn left work.

(** [Array.prototype.sort] as V8 runs it on fewer than 64 elements; longer
    arrays are merged from several runs, which is not modelled. *)
Definition v8_sort (l : list A) : option (list A) :=
  if (List.length l <? 64)%nat then
    let (run, rest) := CountAndMakeRun l in
    Some (fold_left insert_pivot rest run)
  else None.

End ArraySort.

(** Arrays live in a store and are passed by reference. *)
Definition ref : Type := nat.

Definition Store : Type := list (list Row).

Definition deref (h : Store) (r : ref) : list Row := nth r h [].

(** A new array holding [l]: the store grows by one cell. *)
Definition alloc (h : Store) (l : list Row) : Store * ref :=
  (h ++ [l], List.length h).

(** Overwrite the contents of the array at [r]. *)
Fixpoint assign (h : Store) (r : ref) (l : list Row) : Store :=
  match h, r with
  | [], _ => []
  | _ :: rest, O => l :: rest
  | c :: rest, S r' => c :: assign rest r' l
  end.

Section SortEngine.

Context {host : Host}.

(** What [getSortedData] returns, as a list. *)
Definition sorted_rows (cfg : SortConfig) (rows : list Row) : list Row :=
  match key cfg with
  | None => rows
  | Some k => array_sort (comparator k (direction cfg)) rows
  end.

(** What [getSortedData] returns on V8, for fewer than 64 rows. *)
Definition sorted_rows_v8 (cfg : SortConfig) (rows : list Row)
  : option (list Row) :=
  match key cfg with
  | None => Some rows
  | Some k => v8_sort (comparator k (direction cfg)) rows
  end.

(** [getSortedData] on the store: without a key the argument itself is
    returned; with a key [[...dataToSort]] allocates a copy, [sort] sorts
    that copy in place and returns it. *)
Definition getSortedData (cfg : SortConfig) (h : Store) (dataToSort : ref)
  : Store * ref :=
  match key cfg with
  | None => (h, dataToSort)
  | Some k =>
      let (h1, copy) := alloc h (deref h dataToSort) in
      (assign h1 copy (array_sort (comparator k (direction cfg)) (deref h1 copy)),
       copy)
  end.

(** [handleSort(key)] *)
Definition handleSort (k : SortKey) (st : State) : State :=
  let d :=
    match key (sortConfig st), direction (sortConfig st) with
    | Some k', asc => if SortKey_eqb k' k then desc else asc
    | _, _ => asc
    end in
  set_sortConfig {| key := Some k; direction := d |} st.

End SortEngine.

(** ** Filtering *)

(** [Array.prototype.filter] with a callback that may throw: the callback
    runs on the elements from left to right and the first exception ends
    the call. *)
Fixpoint filterM {A : Type} (p : A -> result bool) (l : list A)
  : result (list A) :=
  match l with
  | [] => Ok []
  | x :: rest =>
      b <- p x ;;
      kept <- filterM p rest ;;
      Ok (if b then x :: kept else kept)
  end.

(** [a || b] where the operands are expressions that may throw: [b] is
    evaluated only when [a] completes with [false]. *)
Definition or_else (a b : result bool) : result bool :=
  x <- a ;; if x then Ok true else b.

Section FilterPipeline.

Context {host : Host}.

(** [new Date(row.date).getTime() >= fromTime] *)
Definition on_or_after (fromTime : float) (row : Row) : bool :=
  js_ge (VNum (Date_parse (date row))) (VNum fromTime).

(** [new Date(row.date).getTime() <= toTime] *)
Definition on_or_before (toTime : float) (row : Row) : bool :=
  js_le (VNum (Date_parse (date row))) (VNum toTime).

(** [row.severity === selectedSeverity], used when the choice is not 'all'. *)
Definition has_severity (choice : SeverityChoice) (row : Row) : bool :=
  match choice with
  | all => false
  | only s => Severity_eqb (severity row) s
  end.

(** [(minTemp === '' || row.SCORE >= minTemp) &&
     (maxTemp === '' || row.SCORE <= maxTemp)] *)
Definition in_temperature_range (minTemp maxTemp : value) (row : Row) : bool :=
  (is_empty_string minTemp || js_ge (SCORE row) minTemp)
  && (is_empty_string maxTemp || js_le (SCORE row) maxTemp).

(** [x.toString().includes(searchLower)] *)
Definition field_includes (x : value) (searchLower : string) : result bool :=
  s <- toString x ;; Ok (includes s searchLower).

(** The callback of the search filter: six operands of [||], evaluated in
    this order. *)
Definition search_matches (searchLower : string) (row : Row) : result bool :=
  or_else (Ok (includes (toLowerCase (date row)) searchLower))
 (or_else (field_includes (SCORE row) searchLower)
 (or_else (field_includes (POSITION_YARDS row) searchLower)
 (or_else (field_includes (LATITUDE row) searchLower)
 (or_else (field_includes (LONGITUDE row) searchLower)
          (field_includes (RECORDING_ID row) searchLower))))).

(** The rows that reach the search filter. *)
Definition before_search (st : State) : list Row :=
  let filtered := data st in
  let filtered :=
    if truthy (dateFrom st)
    then filter (on_or_after (Date_parse (dateFrom st))) filtered
    else filtered in
  let filtered :=
    if truthy (dateTo st)
    then filter (on_or_before (Date_parse (dateTo st))) filtered
    else filtered in
  let filtered :=
    match selectedSeverity st with
    | all => filtered
    | only _ => filter (has_severity (selectedSeverity st)) filtered
    end in
  filter (in_temperature_range (fst (temperatureRange st))
                               (snd (temperatureRange st))) filtered.

(** The body of the filter effect up to [setFilteredData]: the value of
    [filtered] at the end, or the exception that escapes. *)
Definition filter_rows (st : State) : result (list Row) :=
  let filtered := data st in
  let filtered :=
    if truthy (dateFrom st) then
      let fromTime := Date_parse (dateFrom st) in
      filter (on_or_after fromTime) filtered
    else filtered in
  let filtered :=
    if truthy (dateTo st) then
      let toTime := Date_parse (dateTo st) in
      filter (on_or_before toTime) filtered
    else filtered in
  let filtered :=
    match selectedSeverity st with
    | all => filtered
    | only _ => filter (has_severity (selectedSeverity st)) filtered
    end in
  let minTemp := fst (temperatureRange st) in
  let maxTemp := snd (temperatureRange st) in
  let filtered := filter (in_temperature_range minTemp maxTemp) filtered in
  if truthy (searchTerm st) then
    let searchLower := toLowerCase (searchTerm st) in
    filterM (search_matches searchLower) filtered
  else Ok filtered.

(** The filter effect: it runs after every render in which [data] or one of
    the five filter cells changed. *)
Definition filter_effect (st : State) : result State :=
  filtered <- filter_rows st ;;
  Ok (set_filteredData filtered st).

(** The rows the table shows: [getSortedData(filteredData)]. *)
Definition displayed (st : State) : list Row :=
  sorted_rows (sortConfig st) (filteredData st).

End FilterPipeline.

(** ** Reset *)

(** [handleReset] *)
Definition handleReset (st : State) : State :=
  let st := set_temperatureRange (VNum 40, VNum 80) st in
  let st := set_searchTerm "" st in
  let st := set_selectedSeverity all st in
  let st := set_dateFrom "" st in
  let st := set_dateTo "" st in
  set_sortConfig {| key := None; direction := asc |} st.

(** The filter cells as [handleReset] leaves them, over a base collection. *)
Definition default_filter (base : list Row) : State :=
  set_data base initial_state.

(** ** Map framing *)

Definition is_neg_zero (x : float) : bool := is_zero x && get_sign x.

Definition is_pos_zero (x : float) : bool := is_zero x && negb (get_sign x).

(** The loop of [Math.min] over the coerced arguments. *)
Fixpoint min_loop (lowest : float) (coerced : list float) : float :=
  match coerced with
  | [] => lowest
  | number :: rest =>
      if is_nan number then nan
      else
        let lowest :=
          if is_neg_zero number && is_pos_zero lowest then neg_zero
          else lowest in
        let lowest := if (number <? lowest)%float then number else lowest in
        min_loop lowest rest
  end.

(** The loop of [Math.max] over the coerced arguments. *)
Fixpoint max_loop (highest : float) (coerced : list float) : float :=
  match coerced with
  | [] => highest
  | number :: rest =>
      if is_nan number then nan
      else
        let highest :=
          if is_pos_zero number && is_neg_zero highest then 0%float
          else highest in
        let highest := if (highest <? number)%float then number else highest in
        max_loop highest rest
  end.

Section Framing.

Context {host : Host}.

(** [Math.min(...args)] and [Math.max(...args)] *)
Definition Math_min (args : list value) : float :=
  min_loop infinity (map ToNumber args).

Definition Math_max (args : list value) : float :=
  max_loop neg_infinity (map ToNumber args).

(** The [complete] callback of [Papa.parse], applied to [results.data]:
    the state with the updates the callback queued, and how the callback
    ended.  When [L.latLngBounds] throws, [setMapBounds] is not reached;
    the updates queued before it stand. *)
Definition complete (results : list RawRow) (st : State)
  : State * result unit :=
  if (0 <? List.length results)%nat then
    let parsedData := map normalize results in
    let st := set_data parsedData st in
    let st := set_filteredData parsedData st in
    if (0 <? List.length parsedData)%nat then
      let lats := map (fun d : Row => LATITUDE d) parsedData in
      let lngs := map (fun d : Row => LONGITUDE d) parsedData in
      let center :=
        ((Math_min lats + Math_max lats) / 2,
         (Math_min lngs + Math_max lngs) / 2)%float in
      let st := set_mapCenter center st in
      match L_latLngBounds (Math_min lats, Math_min lngs)
                           (Math_max lats, Math_max lngs) with
      | Ok bounds => (set_mapBounds (Some bounds) st, Ok tt)
      | Throw e => (st, Throw e)
      end
    else (st, Ok tt)
  else (st, Ok tt).

(** The state [loadData] leaves: [Papa.parse] runs the callback inside the
    [try] block, whose [catch] logs an exception of the callback and goes
    on. *)
Definition on_complete (results : list RawRow) (st : State) : State :=
  fst (complete results st).

End Framing.

(** [{mapBounds && (<MapContainer center={mapCenter} bounds={mapBounds} />)}]:
    the framing handed to the map, [None] when no map is rendered. *)
Definition map_view (st : State) : option ((float * float) * LatLngBounds) :=
  match mapBounds st with
  | Some b => Some (mapCenter st, b)
  | None => None
  end.

(** ** A reference host

    The built-ins of an engine that runs with the en-US locale in the UTC
    time zone.  Concrete runs of the pipeline below use it. *)

Module ReferenceHost.

Local Open Scope Z_scope.

(** The decimal digits of a natural number. *)
Definition digits_of (z : Z) : string :=
  NilZero.string_of_uint (N.to_uint (Z.to_N z)).

(** [10^p] as a fraction of two positive integers. *)
Definition pow10 (p : Z) : Z * Z :=
  if 0 <=? p then (10 ^ p, 1) else (1, 10 ^ (- p)).

(** The decimal position of [a / b > 0]: the [n] with
    [10^(n-1) <= a / b < 10^n], searched downward from [start]. *)
Fixpoint position_from (fuel : nat) (start a b : Z) : Z :=
  match fuel with
  | O => start
  | S fuel' =>
      let (tn, td) := pow10 (start - 1) in
      if tn * b <=? a * td then start
      else position_from fuel' (start - 1) a b
  end.

(** Step 5 of [Number::toString] for [x = m * 2^e > 0] and a digit count
    [k]: the [s] with [k] digits (and its position [n]) for which
    [s * 10^(n-k)] rounds to [x] and lies closest to it, when there is
    one. *)
Definition shortest_at (m e n0 k : Z) : option (Z * Z) :=
  let boundary := (m =? 2 ^ 52) && (-1074 <? e) in
  let X := 4 * m in
  let HI := 4 * m + 2 in
  let LO := if boundary then 4 * m - 1 else 4 * m - 2 in
  let (un, ud) := if 0 <=? e - 2 then (2 ^ (e - 2), 1) else (1, 2 ^ (2 - e)) in
  let (tn, td) := pow10 (n0 - k) in
  let inside (s : Z) :=
    if Z.even m
    then (LO * un * td <=? s * tn * ud) && (s * tn * ud <=? HI * un * td)
    else (LO * un * td <? s * tn * ud) && (s * tn * ud <? HI * un * td) in
  let s1 := (X * un * td) / (ud * tn) in
  let s2 := s1 + 1 in
  let closer_low :=
    match (2 * X * un * td) ?= ((2 * s1 + 1) * tn * ud) with
    | Lt => true
    | Gt => false
    | Eq => Z.even s1
    end in
  let pick (s : Z) :=
    if s =? 10 ^ k then Some (10 ^ (k - 1), n0 + 1) else Some (s, n0) in
  match (10 ^ (k - 1) <=? s1) && inside s1, inside s2 with
  | true, true => if closer_low then pick s1 else pick s2
  | true, false => pick s1
  | false, true => pick s2
  | false, false => None
  end.

Fixpoint shortest_from (fuel : nat) (m e n0 k : Z) : Z * Z * Z :=
  match fuel with
  | O => (m, n0, k)
  | S fuel' =>
      match shortest_at m e n0 k with
      | Some (s, n) => (s, n, k)
      | None => shortest_from fuel' m e n0 (k + 1)
      end
  end.

Definition zeros (n : Z) : string :=
  String.concat "" (repeat "0" (Z.to_nat n)).

(** Steps 6 to 10 of [Number::toString]. *)
Definition layout (s n k : Z) : string :=
  let ds := digits_of s in
  if (k <=? n) && (n <=? 21) then (ds ++ zeros (n - k)%Z)%string
  else if (0 <? n) && (n <=? 21) then
    (substring 0 (Z.to_nat n) ds ++ "."
     ++ substring (Z.to_nat n) (Z.to_nat (k - n)%Z) ds)%string
  else if (-6 <? n) && (n <=? 0) then ("0." ++ zeros (- n)%Z ++ ds)%string
  else
    let ex :=
      ((if (0 <=? n - 1)%Z then "+" else "-")
       ++ digits_of (Z.abs (n - 1)))%string in
    if k =? 1 then (ds ++ "e" ++ ex)%string
    else (substring 0 1 ds ++ "."
          ++ substring 1 (Z.to_nat (k - 1)%Z) ds ++ "e" ++ ex)%string.

Definition number_to_string (x : float) : string :=
  match Prim2SF x with
  | S754_nan => "NaN"
  | S754_zero _ => "0"
  | S754_infinity false => "Infinity"
  | S754_infinity true => "-Infinity"
  | S754_finite sign m e =>
      let (a, b) := if 0 <=? e then (Zpos m * 2 ^ e, 1) else (Zpos m, 2 ^ (- e)) in
      let start := ((Z.log2 (Zpos m) + e + 1) * 30103) / 100000 + 2 in
      let n0 := position_from 8 start a b in
      let '(s, n, k) := shortest_from 17 (Zpos m) e n0 1 in
      ((if sign then "-" else "") ++ layout s n k)%string
  end.

(** *** [StringToNumber] *)

Definition is_space (c : ascii) : bool :=
  let n := nat_of_ascii c in
  (n =? 32)%nat || ((9 <=? n)%nat && (n <=? 13)%nat).

Fixpoint drop_spaces (l : list ascii) : list ascii :=
  match l with
  | c :: rest => if is_space c then drop_spaces rest else l
  | [] => []
  end.

Definition trim (l : list ascii) : list ascii :=
  rev (drop_spaces (rev (drop_spaces l))).

(** The value of a digit in a base up to sixteen. *)
Definition digit_value (base : Z) (c : ascii) : option Z :=
  let n := Z.of_nat (nat_of_ascii c) in
  let v :=
    if (48 <=? n) && (n <=? 57) then n - 48
    else if (97 <=? n) && (n <=? 102) then n - 87
    else if (65 <=? n) && (n <=? 70) then n - 55
    else 16 in
  if v <? base then Some v else None.

(** The longest prefix of digits: its value on top of [acc], the number of
    digits read, and what follows. *)
Fixpoint read_digits (base : Z) (l : list ascii) (acc count : Z)
  : Z * Z * list ascii :=
  match l with
  | c :: rest =>
      match digit_value base c with
      | Some v => read_digits base rest (acc * base + v) (count + 1)
      | None => (acc, count, l)
      end
  | [] => (acc, count, [])
  end.

(** [N * 10^E] rounded to the nearest number. *)
Definition decimal_to_float (N E : Z) : float :=
  if N =? 0 then 0%float
  else if 0 <=? E then
    if 400 <? E then infinity else Z_to_float (N * 10 ^ E)
  else if Z.log2 N + 1 <? 3 * (- E) - 1200 then 0%float
  else
    let d := 10 ^ (- E) in
    let sh := Z.max 0 (70 + Z.log2 d - Z.log2 N) in
    let q := (N * 2 ^ sh) / d in
    let sticky := if (N * 2 ^ sh) mod d =? 0 then 0 else 1 in
    SF2Prim (binary_normalize prec emax (2 * q + sticky) (- sh - 1) false).

(** An unsigned [StrDecimalLiteral] other than "Infinity". *)
Definition unsigned_decimal (l : list ascii) : option float :=
  let '(ip, ic, r1) := read_digits 10 l 0 0 in
  let '(N, fc, r2) :=
    match r1 with
    | "."%char :: r => read_digits 10 r ip 0
    | _ => (ip, 0, r1)
    end in
  if ic + fc =? 0 then None
  else
    match r2 with
    | [] => Some (decimal_to_float N (- fc))
    | c :: r3 =>
        if Ascii.eqb c "e" || Ascii.eqb c "E" then
          let '(neg, r4) :=
            match r3 with
            | "-"%char :: r => (true, r)
            | "+"%char :: r => (false, r)
            | _ => (false, r3)
            end in
          let '(ex, ec, r5) := read_digits 10 r4 0 0 in
          match r5 with
          | [] =>
              if ec =? 0 then None
              else Some (decimal_to_float N ((if neg then - ex else ex) - fc))
          | _ :: _ => None
          end
        else None
    end.

Definition unsigned_literal (l : list ascii) : option float :=
  if list_eq_dec ascii_dec l (list_ascii_of_string "Infinity")
  then Some infinity
  else unsigned_decimal l.

(** Digits in base 16, 8 or 2 after the prefix. *)
Definition radix_literal (base : Z) (l : list ascii) : float :=
  let '(v, count, rest) := read_digits base l 0 0 in
  match rest with
  | [] => if count =? 0 then nan else Z_to_float v
  | _ :: _ => nan
  end.

Definition or_nan (o : option float) : float :=
  match o with
  | Some x => x
  | None => nan
  end.

Definition string_to_number (s : string) : float :=
  match trim (list_ascii_of_string s) with
  | [] => 0%float
  | "0"%char :: "x"%char :: r | "0"%char :: "X"%char :: r => radix_literal 16 r
  | "0"%char :: "o"%char :: r | "0"%char :: "O"%char :: r => radix_literal 8 r
  | "0"%char :: "b"%char :: r | "0"%char :: "B"%char :: r => radix_literal 2 r
  | "-"%char :: r => or_nan (option_map PrimFloat.opp (unsigned_literal r))
  | "+"%char :: r => or_nan (unsigned_literal r)
  | l => or_nan (unsigned_literal l)
  end.

(** *** Dates *)

(** Year, month and day of a day number counted from 1 January 1970. *)
Definition civil_from_days (z : Z) : Z * Z * Z :=
  let z := z + 719468 in
  let era := z / 146097 in
  let doe := z - era * 146097 in
  let yoe := (doe - doe / 1460 + doe / 36524 - doe / 146096) / 365 in
  let doy := doe - (365 * yoe + yoe / 4 - yoe / 100) in
  let mp := (5 * doy + 2) / 153 in
  let d := doy - (153 * mp + 2) / 5 + 1 in
  let m := if mp <? 10 then mp + 3 else mp - 9 in
  let y := yoe + era * 400 + (if m <=? 2 then 1 else 0) in
  (y, m, d).

Definition days_from_civil (y m d : Z) : Z :=
  let y := if m <=? 2 then y - 1 else y in
  let era := y / 400 in
  let yoe := y - era * 400 in
  let doy := (153 * (if 2 <? m then m - 3 else m + 9) + 2) / 5 + d - 1 in
  let doe := yoe * 365 + yoe / 4 - yoe / 100 + doy in
  era * 146097 + doe - 719468.

Definition two_digits (n : Z) : string :=
  if n <? 10 then ("0" ++ digits_of n)%string else digits_of n.

(** "M/D/YYYY, h:mm:ss AM" for a number of seconds of wall-clock time
    counted from 1 January 1970, 00:00. *)
Definition format_seconds (secs : Z) : string :=
  let '(y, m, d) := civil_from_days (secs / 86400) in
  let sod := secs mod 86400 in
  let h24 := sod / 3600 in
  let h12 := if h24 mod 12 =? 0 then 12 else h24 mod 12 in
  let minute := (sod / 60) mod 60 in
  let second := sod mod 60 in
  let half := if h24 <? 12 then " AM" else " PM" in
  (digits_of m ++ "/" ++ digits_of d ++ "/" ++ digits_of y ++ ", "
   ++ digits_of h12 ++ ":" ++ two_digits minute ++ ":"
   ++ two_digits second ++ half)%string.

(** The date and the time of day in UTC, to the second. *)
Definition to_locale_string (tv : float) : string :=
  format_seconds (truncate tv / 1000).

Definition day_name (weekday : Z) : string :=
  nth (Z.to_nat weekday) ["Sun"; "Mon"; "Tue"; "Wed"; "Thu"; "Fri"; "Sat"] "".

Definition month_name (m : Z) : string :=
  nth (Z.to_nat (m - 1))
      ["Jan"; "Feb"; "Mar"; "Apr"; "May"; "Jun";
       "Jul"; "Aug"; "Sep"; "Oct"; "Nov"; "Dec"] "".

Definition four_digits (n : Z) : string :=
  if n <? 10 then ("000" ++ digits_of n)%string
  else if n <? 100 then ("00" ++ digits_of n)%string
  else if n <? 1000 then ("0" ++ digits_of n)%string
  else digits_of n.

(** "Www Mmm DD YYYY HH:mm:ss" for a number of seconds of wall-clock
    time. *)
Definition format_long (secs : Z) : string :=
  let days := secs / 86400 in
  let '(y, m, d) := civil_from_days days in
  let sod := secs mod 86400 in
  let hour := sod / 3600 in
  let minute := (sod / 60) mod 60 in
  let second := sod mod 60 in
  (day_name ((days + 4) mod 7) ++ " " ++ month_name m ++ " "
   ++ two_digits d ++ " " ++ four_digits y ++ " " ++ two_digits hour ++ ":"
   ++ two_digits minute ++ ":" ++ two_digits second)%string.

Definition date_to_string (tv : float) : string :=
  (format_long (truncate tv / 1000)
   ++ " GMT+0000 (Coordinated Universal Time)")%string.

(** A run of at least one decimal digit. *)
Definition number (l : list ascii) : option (Z * list ascii) :=
  let '(v, count, rest) := read_digits 10 l 0 0 in
  if count =? 0 then None else Some (v, rest).

(** The given text, then the rest. *)
Fixpoint expect (pat l : list ascii) : option (list ascii) :=
  match pat, l with
  | [], _ => Some l
  | p :: pat', c :: rest => if Ascii.eqb p c then expect pat' rest else None
  | _ :: _, [] => None
  end.

Definition text (s : string) : list ascii -> option (list ascii) :=
  expect (list_ascii_of_string s).

Definition opt_bind {A B : Type} (o : option A) (k : A -> option B)
  : option B :=
  match o with
  | Some a => k a
  | None => None
  end.

Notation "' p <-? o ;; k" := (opt_bind o (fun p => k))
  (at level 61, p pattern, o at next level, right associativity).

Notation "x <-? o ;; k" := (opt_bind o (fun x => k))
  (at level 61, o at next level, right associativity).

Definition millis (y m d h mi s : Z) : option Z :=
  if (1 <=? m) && (m <=? 12) && (1 <=? d) && (d <=? 31)
     && (h <? 24) && (mi <? 60) && (s <? 60)
  then Some ((((days_from_civil y m d * 24 + h) * 60 + mi) * 60 + s) * 1000)
  else None.

(** What [to_locale_string] prints. *)
Definition parse_en_US (l : list ascii) : option Z :=
  '(m, l) <-? number l ;;
  l <-? text "/" l ;;
  '(d, l) <-? number l ;;
  l <-? text "/" l ;;
  '(y, l) <-? number l ;;
  l <-? text ", " l ;;
  '(h, l) <-? number l ;;
  l <-? text ":" l ;;
  '(mi, l) <-? number l ;;
  l <-? text ":" l ;;
  '(s, l) <-? number l ;;
  if (1 <=? h) && (h <=? 12) then
    if list_eq_dec ascii_dec l (list_ascii_of_string " AM")
    then millis y m d (h mod 12) mi s
    else if list_eq_dec ascii_dec l (list_ascii_of_string " PM")
    then millis y m d (h mod 12 + 12) mi s
    else None
  else None.

(** The value of a datetime-local input, "YYYY-MM-DDTHH:mm" with optional
    seconds, read as local time. *)
Definition parse_local (l : list ascii) : option Z :=
  '(y, l) <-? number l ;;
  l <-? text "-" l ;;
  '(m, l) <-? number l ;;
  l <-? text "-" l ;;
  '(d, l) <-? number l ;;
  l <-? text "T" l ;;
  '(h, l) <-? number l ;;
  l <-? text ":" l ;;
  '(mi, l) <-? number l ;;
  match l with
  | [] => millis y m d h mi 0
  | _ :: _ =>
      l <-? text ":" l ;;
      '(s, l) <-? number l ;;
      match l with
      | [] => millis y m d h mi s
      | _ :: _ => None
      end
  end.

(** Wall-clock milliseconds of a date string in one of the two formats. *)
Definition parse_wall_clock (s : string) : option Z :=
  let l := list_ascii_of_string s in
  match parse_en_US l with
  | Some ms => Some ms
  | None => parse_local l
  end.

Definition date_parse (s : string) : float :=
  match parse_wall_clock s with
  | Some ms => Z_to_float ms
  | None => nan
  end.

(** *** Dates in the Europe/London time zone

    British Summer Time runs from 01:00 UTC on the last Sunday of March to
    01:00 UTC on the last Sunday of October (the rule in force since
    1996). *)

(** The day number of the last Sunday of a month of 31 days. *)
Definition last_sunday (y m : Z) : Z :=
  let z := days_from_civil y m 31 in
  z - (z + 4) mod 7.

Definition in_summer_time (secs : Z) : bool :=
  let '(y, _, _) := civil_from_days (secs / 86400) in
  (last_sunday y 3 * 86400 + 3600 <=? secs)
  && (secs <? last_sunday y 10 * 86400 + 3600).

Definition london_to_locale_string (tv : float) : string :=
  let secs := truncate tv / 1000 in
  format_seconds (if in_summer_time secs then secs + 3600 else secs).

Definition london_date_to_string (tv : float) : string :=
  let secs := truncate tv / 1000 in
  if in_summer_time secs
  then (format_long (secs + 3600) ++ " GMT+0100 (British Summer Time)")%string
  else (format_long secs ++ " GMT+0000 (Greenwich Mean Time)")%string.

(** A wall-clock time that occurs twice, or not at all, is read with the
    offset in force before the transition. *)
Definition london_date_parse (s : string) : float :=
  match parse_wall_clock s with
  | Some ms =>
      let wall := ms / 1000 in
      let secs := if in_summer_time (wall - 3600) then wall - 3600 else wall in
      Z_to_float (secs * 1000 + ms mod 1000)
  | None => nan
  end.

End ReferenceHost.

#[export] Instance reference_host : Host :=
  {| StringToNumber := ReferenceHost.string_to_number;
     Number_toString := ReferenceHost.number_to_string;
     Date_toLocaleString := ReferenceHost.to_locale_string;
     Date_parse := ReferenceHost.date_parse;
     Date_toString := ReferenceHost.date_to_string |}.

(** The same engine in the Europe/London time zone. *)
Definition london_host : Host :=
  {| StringToNumber := ReferenceHost.string_to_number;
     Number_toString := ReferenceHost.number_to_string;
     Date_toLocaleString := ReferenceHost.london_to_locale_string;
     Date_parse := ReferenceHost.london_date_parse;
     Date_toString := ReferenceHost.london_date_to_string |}.


(** ** The specification's wording

    Definitions that follow the words of the specification, to be compared
    with the code above. *)

Section SpecWording.

Context {host : Host}.

(** The last three lines of the comparator, for two values. *)
Definition compare_values (d : Direction) (aValue bValue : value) : Z :=
  if js_lt aValue bValue then
    match d with asc => (-1)%Z | desc => 1%Z end
  else if js_gt aValue bValue then
    match d with asc => 1%Z | desc => (-1)%Z end
  else 0%Z.

(** "Compare by the underlying instant derived from displayTimestamp": the
    display date parsed back to a time value, compared numerically. *)
Definition by_parsed_date (d : Direction) (a b : Row) : Z :=
  compare_values d (VNum (Date_parse (date a))) (VNum (Date_parse (date b))).

(** "Case-insensitive substring match" of a term against the string form of
    a field. *)
Definition field_contains (x : value) (term : string) : result bool :=
  s <- toString x ;; Ok (includes (toLowerCase s) (toLowerCase term)).

(** "A record matches if any of these fields contains the search term". *)
Definition spec_search_matches (term : string) (row : Row) : result bool :=
  or_else (field_contains (VStr (date row)) term)
 (or_else (field_contains (SCORE row) term)
 (or_else (field_contains (POSITION_YARDS row) term)
 (or_else (field_contains (LATITUDE row) term)
 (or_else (field_contains (LONGITUDE row) term)
          (field_contains (RECORDING_ID row) term))))).

End SpecWording.

(** The value has a [toString] method: it is neither [undefined] nor
    [null]. *)
Definition has_toString (v : value) : bool :=
  match v with
  | VUndefined | VNull => false
  | _ => true
  end.

(** The five fields the search stringifies all have one. *)
Definition stringifiable (row : Row) : bool :=
  has_toString (SCORE row) && has_toString (POSITION_YARDS row)
  && has_toString (LATITUDE row) && has_toString (LONGITUDE row)
  && has_toString (RECORDING_ID row).

(** [m] is an element of [l] that no element of [l] is below. *)
Definition is_least (m : float) (l : list float) : Prop :=
  In m l /\ forall x, In x l -> (m <=? x)%float = true.

(** [m] is an element of [l] that no element of [l] is above. *)
Definition is_greatest (m : float) (l : list float) : Prop :=
  In m l /\ forall x, In x l -> (x <=? m)%float = true.

(** Same row, another display date. *)
Definition with_date (s : string) (r : Row) : Row :=
  {| raw := raw r; date := s; severity := severity r |}.

(** ** Sample inputs *)

Module Samples.

(** A well-formed CSV row. *)
Definition reading (t lat lng yards score : float) (id : value) : RawRow :=
  {| UNIX_TIME := VNum t;
     LATITUDE := VNum lat;
     LONGITUDE := VNum lng;
     POSITION_YARDS := VNum yards;
     SCORE := VNum score;
     RECORDING_ID := id |}.

(** Two readings taken within the same second. *)
Definition later_reading : RawRow :=
  reading 1600000000.7 51.5 (-0.1) 100 60 (VNum 1).

Definition earlier_reading : RawRow :=
  reading 1600000000.2 51.5 (-0.1) 120 61 (VNum 2).

(** Two readings one hour apart in the night of 25 October 2020, when the
    clocks in London go back from 02:00 to 01:00. *)
Definition before_clock_change : RawRow :=
  reading 1603585800 51.5 (-0.1) 100 60 (VNum 1).

Definition after_clock_change : RawRow :=
  reading 1603589400 51.5 (-0.1) 120 61 (VNum 2).

(** A reading whose POSITION_YARDS cell is empty. *)
Definition reading_without_position : RawRow :=
  {| UNIX_TIME := VNum 1600000000;
     LATITUDE := VNum 51.5;
     LONGITUDE := VNum (-0.1);
     POSITION_YARDS := VNull;
     SCORE := VNum 60;
     RECORDING_ID := VNum 7 |}.

(** A reading with a textual recording identifier. *)
Definition reading_with_text_id : RawRow :=
  reading 1600000000 51.5 (-0.1) 100 60 (VStr "ABC123").

(** A reading whose LATITUDE cell holds a text. *)
Definition reading_with_text_latitude : RawRow :=
  {| UNIX_TIME := VNum 1600000060;
     LATITUDE := VStr "n/a";
     LONGITUDE := VNum (-0.2);
     POSITION_YARDS := VNum 200;
     SCORE := VNum 60;
     RECORDING_ID := VNum 2 |}.

(** Readings of 9 AM and of 10 AM on 13 September 2020 (UTC), the later
    one first. *)
Definition ten_then_nine : list RawRow :=
  [ reading 1599991200 51.5 (-0.1) 100 60 (VNum 1);
    reading 1599987600 51.5 (-0.1) 120 61 (VNum 2) ].

(** A reading with the given identifier and POSITION_YARDS cell. *)
Definition at_position (id : float) (yards : value) : RawRow :=
  {| UNIX_TIME := VNum 1600000000;
     LATITUDE := VNum 51.5;
     LONGITUDE := VNum (-0.1);
     POSITION_YARDS := yards;
     SCORE := VNum 60;
     RECORDING_ID := VNum id |}.

(** Seven readings; the first and the fourth have the text "n/a" for a
    position, the fifth and the seventh are both at 2 yards. *)
Definition seven_positions : list RawRow :=
  [ at_position 1 (VStr "n/a");
    at_position 2 (VNum 1);
    at_position 3 (VNum 5);
    at_position 4 (VStr "n/a");
    at_position 5 (VNum 2);
    at_position 6 (VNum 0);
    at_position 7 (VNum 2) ].

(** The three readings of the bounds example. *)
Definition three_points : list RawRow :=
  [ reading 1600000000 10 (-5) 100 50 (VNum 1);
    reading 1600000060 20 0 200 60 (VNum 2);
    reading 1600000120 30 5 300 80 (VNum 3) ].

(** Readings at 35, 60, 60 and 85 degrees. *)
Definition four_scores : list RawRow :=
  [ reading 1600000000 51.5 (-0.1) 100 35 (VNum 1);
    reading 1600000060 51.6 (-0.2) 200 60 (VNum 2);
    reading 1600000120 51.7 (-0.3) 300 60 (VNum 3);
    reading 1600000180 51.8 (-0.4) 400 85 (VNum 4) ].

End Samples.

(** The rows whose severity is 'medium'. *)
Definition is_medium (r : Row) : bool := Severity_eqb (severity r) medium.

(** ** Event handlers

    The inline handlers of the controls, and the component as a transition
    system: an event runs its handler, and the filter effect runs after it
    when the handler gave one of the effect's dependencies a new value. *)

(** White space that [parseInt] skips at the start of its argument. *)
Definition is_white_space (c : ascii) : bool :=
  let n := nat_of_ascii c in
  (n =? 32)%nat || ((9 <=? n)%nat && (n <=? 13)%nat) || (n =? 160)%nat.

Fixpoint skip_white_space (l : list ascii) : list ascii :=
  match l with
  | c :: rest => if is_white_space c then skip_white_space rest else l
  | [] => []
  end.

(** An optional sign in front of the digits. *)
Definition sign_of (l : list ascii) : bool * list ascii :=
  match l with
  | "-"%char :: r => (true, r)
  | "+"%char :: r => (false, r)
  | _ => (false, l)
  end.

(** Without a radix argument, "0x" or "0X" selects radix 16. *)
Definition radix_of (l : list ascii) : Z * list ascii :=
  match l with
  | "0"%char :: "x"%char :: r | "0"%char :: "X"%char :: r => (16%Z, r)
  | _ => (10%Z, l)
  end.

(** The number for the digits read: NaN when there was none, a signed
    zero, or the integer rounded to the nearest number. *)
Definition number_of_digits (negative : bool) (read : Z * Z * list ascii)
  : float :=
  let '(mathInt, count, _) := read in
  if (count =? 0)%Z then nan
  else if (mathInt =? 0)%Z then (if negative then neg_zero else 0%float)
  else if negative then (- Z_to_float mathInt)%float
  else Z_to_float mathInt.

(** [parseInt(s)] without a radix: leading white space, an optional sign,
    an optional "0x", then the longest run of digits; what follows the
    digits is ignored. *)
Definition parse_int_chars (l : list ascii) : float :=
  let '(negative, l) := sign_of (skip_white_space l) in
  let '(radix, l) := radix_of l in
  number_of_digits negative (ReferenceHost.read_digits radix l 0 0).

Definition parseInt (s : string) : float :=
  parse_int_chars (list_ascii_of_string s).

(** The text is made of ASCII characters (code units below 128), on which
    [toLowerCase] works character by character whatever surrounds them. *)
Definition is_ascii_text (s : string) : Prop :=
  Forall (fun c => (nat_of_ascii c < 128)%nat) (list_ascii_of_string s).

(** The character is one of 0 to 9. *)
Definition is_decimal_digit (c : ascii) : bool :=
  let n := nat_of_ascii c in
  (48 <=? n)%nat && (n <=? 57)%nat.

(** [value === '' ? '' : parseInt(value)] *)
Definition bound_of_input (v : string) : value :=
  if String.eqb v "" then VStr "" else VNum (parseInt v).

(** The [onChange] handlers of the two temperature inputs. *)
Definition onMinTempChange (v : string) (st : State) : State :=
  set_temperatureRange (bound_of_input v, snd (temperatureRange st)) st.

Definition onMaxTempChange (v : string) (st : State) : State :=
  set_temperatureRange (fst (temperatureRange st), bound_of_input v) st.

(** [setIsMapExpanded(!isMapExpanded)] and [setIsDarkMode(!isDarkMode)] *)
Definition onMapExpandClick (st : State) : State :=
  set_isMapExpanded (negb (isMapExpanded st)) st.

Definition onDarkModeClick (st : State) : State :=
  set_isDarkMode (negb (isDarkMode st)) st.

Definition SeverityChoice_eqb (a b : SeverityChoice) : bool :=
  match a, b with
  | all, all => true
  | only x, only y => Severity_eqb x y
  | _, _ => false
  end.

(** What can happen to the mounted component. *)
Inductive event : Type :=
| Loaded (results : list RawRow)
| MinTempChanged (v : string)
| MaxTempChanged (v : string)
| SearchChanged (v : string)
| SeverityChanged (c : SeverityChoice)
| DateFromChanged (v : string)
| DateToChanged (v : string)
| HeaderClicked (k : SortKey)
| ResetClicked
| DarkModeClicked
| MapExpandClicked.

Section Transitions.

Context {host : Host}.

(** The state updates an event queues. *)
Definition handle (e : event) (st : State) : State :=
  match e with
  | Loaded results => on_complete results st
  | MinTempChanged v => onMinTempChange v st
  | MaxTempChanged v => onMaxTempChange v st
  | SearchChanged v => set_searchTerm v st
  | SeverityChanged c => set_selectedSeverity c st
  | DateFromChanged v => set_dateFrom v st
  | DateToChanged v => set_dateTo v st
  | HeaderClicked k => handleSort k st
  | ResetClicked => handleReset st
  | DarkModeClicked => onDarkModeClick st
  | MapExpandClicked => onMapExpandClick st
  end.

(** Whether a dependency of the filter effect gets a new value: a new array
    always is one, a string or a choice only when it differs. *)
Definition triggers_filter (e : event) (st : State) : bool :=
  match e with
  | Loaded results => (0 <? List.length results)%nat
  | MinTempChanged _ | MaxTempChanged _ | ResetClicked => true
  | SearchChanged v => negb (String.eqb v (searchTerm st))
  | SeverityChanged c => negb (SeverityChoice_eqb c (selectedSeverity st))
  | DateFromChanged v => negb (String.eqb v (dateFrom st))
  | DateToChanged v => negb (String.eqb v (dateTo st))
  | HeaderClicked _ | DarkModeClicked | MapExpandClicked => false
  end.

(** One event and the render that follows; an exception in the effect takes
    the component down. *)
Definition step (e : event) (st : State) : result State :=
  let st' := handle e st in
  if triggers_filter e st then filter_effect st' else Ok st'.

(** The states the component can be in. *)
Inductive reachable : State -> Prop :=
| reachable_mount : reachable initial_state
| reachable_step (st st' : State) (e : event) :
    reachable st -> step e st = Ok st' -> reachable st'.

(** Running a list of events from a state. *)
Fixpoint run (es : list event) (st : State) : result State :=
  match es with
  | [] => Ok st
  | e :: rest => st' <- step e st ;; run rest st'
  end.

(** The three predicates that cannot throw, on one row. *)
Definition passes_before_search (st : State) (row : Row) : bool :=
  (if truthy (dateFrom st)
   then on_or_after (Date_parse (dateFrom st)) row else true)
  && (if truthy (dateTo st)
      then on_or_before (Date_parse (dateTo st)) row else true)
  && match selectedSeverity st with
     | all => true
     | only _ => has_severity (selectedSeverity st) row
     end
  && in_temperature_range (fst (temperatureRange st))
                          (snd (temperatureRange st)) row.

(** All five predicates of the filter effect on one row. *)
Definition passes (st : State) (row : Row) : result bool :=
  let dates_ok :=
    (if truthy (dateFrom st)
     then on_or_after (Date_parse (dateFrom st)) row else true)
    && (if truthy (dateTo st)
        then on_or_before (Date_parse (dateTo st)) row else true) in
  let severity_ok :=
    match selectedSeverity st with
    | all => true
    | only _ => has_severity (selectedSeverity st) row
    end in
  let temperature_ok :=
    in_temperature_range (fst (temperatureRange st))
                         (snd (temperatureRange st)) row in
  if dates_ok && severity_ok && temperature_ok then
    if truthy (searchTerm st)
    then search_matches (toLowerCase (searchTerm st)) row
    else Ok true
  else Ok false.

(** The map framing the [complete] callback computes from parsed rows. *)
Definition center_of (rows : list Row) : float * float :=
  let lats := map (fun d : Row => LATITUDE d) rows in
  let lngs := map (fun d : Row => LONGITUDE d) rows in
  ((Math_min lats + Math_max lats) / 2,
   (Math_min lngs + Math_max lngs) / 2)%float.

Definition bounds_of (rows : list Row) : LatLngBounds :=
  let lats := map (fun d : Row => LATITUDE d) rows in
  let lngs := map (fun d : Row => LONGITUDE d) rows in
  latLngBounds (Math_min lats, Math_min lngs) (Math_max lats, Math_max lngs).

(** Every coordinate of the rows converts to a number. *)
Definition numeric_coordinates (rows : list Row) : Prop :=
  forall r, In r rows ->
            is_nan (ToNumber (LATITUDE r)) = false /\
            is_nan (ToNumber (LONGITUDE r)) = false.

(** No coordinate of the two corners is NaN. *)
Definition real_corners (b : LatLngBounds) : Prop :=
  is_nan (fst (southWest b)) = false /\ is_nan (snd (southWest b)) = false /\
  is_nan (fst (northEast b)) = false /\ is_nan (snd (northEast b)) = false.

(** The point [(lat, lng)] lies in the rectangle. *)
Definition inside (b : LatLngBounds) (lat lng : float) : Prop :=
  (fst (southWest b) <=? lat)%float = true /\
  (lat <=? fst (northEast b))%float = true /\
  (snd (southWest b) <=? lng)%float = true /\
  (lng <=? snd (northEast b))%float = true.

End Transitions.

(** [is_ok_true r]: the callback completed with [true]. *)
Definition is_ok_true (r : result bool) : bool :=
  match r with
  | Ok true => true
  | _ => false
  end.

(** [l1] is [l2] with some elements left out, order kept. *)
Inductive subsequence {A : Type} : list A -> list A -> Prop :=
| subsequence_nil : subsequence [] []
| subsequence_keep (x : A) (l1 l2 : list A) :
    subsequence l1 l2 -> subsequence (x :: l1) (x :: l2)
| subsequence_drop (x : A) (l1 l2 : list A) :
    subsequence l1 l2 -> subsequence l1 (x :: l2).

(** ** Rendering *)

(** [String.prototype.toUpperCase] on the letters a-z (it is applied to
    the severity names only). *)
Definition upper_char (c : ascii) : ascii :=
  let n := nat_of_ascii c in
  if (97 <=? n)%nat && (n <=? 122)%nat then ascii_of_nat (n - 32) else c.

Fixpoint toUpperCase (s : string) : string :=
  match s with
  | EmptyString => EmptyString
  | String c rest => String (upper_char c) (toUpperCase rest)
  end.

(** [getSeverityColor]: a [switch] on the severity string. *)
Definition getSeverityColor (severity : string) : string :=
  if String.eqb severity "high" then "#ef4444"
  else if String.eqb severity "medium" then "#f59e0b"
  else if String.eqb severity "low" then "#22c55e"
  else "#666666".

(** [getSortArrow] *)
Definition getSortArrow (cfg : SortConfig) (k : SortKey) : string :=
  match key cfg with
  | Some k' =>
      if SortKey_eqb k' k then
        match direction cfg with asc => " ↑" | desc => " ↓" end
      else ""
  | None => ""
  end.

(** The object [getHeaderStyle] returns. *)
Record HeaderStyle : Type := mkHeaderStyle {
  cursor : string;
  userSelect : string;
  fontWeight : string;
  transition : string;
  fontSize : string;
  color : string
}.

(** [getHeaderStyle] *)
Definition getHeaderStyle (st : State) (k : SortKey) : HeaderStyle :=
  {| cursor := "pointer";
     userSelect := "none";
     fontWeight :=
       match key (sortConfig st) with
       | Some k' => if SortKey_eqb k' k then "bold" else "normal"
       | None => "normal"
       end;
     transition := "all 0.3s ease";
     fontSize := "14px";
     color := if isDarkMode st then "#ffffff" else "#000000" |}.

(** [Number.prototype.toFixed(digits)] for up to 100 digits: the integer
    nearest to [x * 10^digits] (the larger one of two) with the decimal
    point put back; numbers from 10^21 on print as [toString] prints
    them. *)
Definition toFixed {host : Host} (digits : Z) (x : float) : string :=
  match Prim2SF x with
  | S754_nan => "NaN"
  | S754_infinity false => "Infinity"
  | S754_infinity true => "-Infinity"
  | S754_zero _ =>
      if (digits =? 0)%Z then "0"
      else ("0." ++ ReferenceHost.zeros digits)%string
  | S754_finite sign m e =>
      let '(a, b) :=
        if (0 <=? e)%Z then ((Zpos m * 2 ^ e)%Z, 1%Z)
        else (Zpos m, (2 ^ (- e))%Z) in
      if (10 ^ 21 * b <=? a)%Z then Number_toString x
      else
        let n := ((2 * a * 10 ^ digits + b) / (2 * b))%Z in
        let ds := ReferenceHost.digits_of n in
        let ds :=
          if (Z.of_nat (String.length ds) <=? digits)%Z
          then (ReferenceHost.zeros
                  (digits + 1 - Z.of_nat (String.length ds)) ++ ds)%string
          else ds in
        let k := (String.length ds - Z.to_nat digits)%nat in
        let body :=
          if (digits =? 0)%Z then ds
          else (substring 0 k ds ++ "."
                ++ substring k (Z.to_nat digits) ds)%string in
        ((if sign then "-" else "") ++ body)%string
  end.

Section Table.

Context {host : Host}.

(** [x.toFixed(6)]: only numbers have the method. *)
Definition call_toFixed (x : value) : result string :=
  match x with
  | VNum n => Ok (toFixed 6 n)
  | _ => Throw TypeError
  end.

(** The expressions of one table row: the children handed to React as
    they are, the two coordinates formatted.  What React makes of the
    children is [render_row] below. *)
Record TableRow : Type := mkTableRow {
  cell_date : string;
  cell_recording : value;
  cell_position : value;
  cell_latitude : string;
  cell_longitude : string;
  cell_score : value;
  badge_background : string;
  badge_text : string
}.

Definition table_row (row : Row) : result TableRow :=
  lat <- call_toFixed (LATITUDE row) ;;
  lng <- call_toFixed (LONGITUDE row) ;;
  Ok {| cell_date := date row;
        cell_recording := RECORDING_ID row;
        cell_position := POSITION_YARDS row;
        cell_latitude := lat;
        cell_longitude := lng;
        cell_score := SCORE row;
        badge_background :=
          match severity row with
          | high => "#FEE2E2"
          | medium => "#FEF3C7"
          | low => "#DCFCE7"
          end;
        badge_text := toUpperCase (severity_name (severity row)) |}.

(** [Array.prototype.map] with a callback that may throw. *)
Fixpoint mapM {A B : Type} (f : A -> result B) (l : list A)
  : result (list B) :=
  match l with
  | [] => Ok []
  | x :: rest => y <- f x ;; ys <- mapM f rest ;; Ok (y :: ys)
  end.

(** What React accepts as a child: a string or a number is text; a
    boolean, [null] and [undefined] render nothing; an object, as the
    [Date] of a cell in ISO format is, makes React throw. *)
Definition valid_child (v : value) : bool :=
  match v with
  | VDate _ => false
  | _ => true
  end.

(** React creating the children of the elements of one row. *)
Definition render_row (cells : TableRow) : result TableRow :=
  if valid_child (cell_recording cells)
     && valid_child (cell_position cells)
     && valid_child (cell_score cells)
  then Ok cells
  else Throw InvalidChild.

(** The table body: the message, or one row per displayed reading. *)
Inductive TableView : Type :=
| NoRecords
| Rows (rows : list TableRow).

(** The component evaluates the expressions of all the rows, then React
    renders the elements. *)
Definition table_view (st : State) : result TableView :=
  if (List.length (displayed st) =? 0)%nat then Ok NoRecords
  else
    elements <- mapM table_row (displayed st) ;;
    rows <- mapM render_row elements ;;
    Ok (Rows rows).

(** The positions of the markers, one per filtered reading in the order of
    [filteredData]; no map, and no marker, without bounds. *)
Definition marker_positions (st : State) : option (list (value * value)) :=
  match mapBounds st with
  | Some _ =>
      Some (map (fun point : Row => (LATITUDE point, LONGITUDE point))
                (filteredData st))
  | None => None
  end.

End Table.

Section Invariant.

Context {host : Host}.

(** Every row of the base collection is what [normalize] makes of its raw
    row.  While the collection is empty the map framing is the initial
    one; afterwards the center is the one computed from the collection,
    the bounds are the ones computed from it when its coordinates are
    numbers, and no bounds are stored that have NaN for a coordinate. *)
Definition tidy (st : State) : Prop :=
  (forall row, In row (data st) -> row = normalize (raw row)) /\
  (forall b, mapBounds st = Some b -> real_corners b) /\
  match data st with
  | [] => mapBounds st = None /\ mapCenter st = mapCenter initial_state
  | _ :: _ =>
      mapCenter st = center_of (data st) /\
      (numeric_coordinates (data st) ->
       mapBounds st = Some (bounds_of (data st)))
  end.

(** Moreover the filtered rows are what the pipeline returns for the
    current cells. *)
Definition well_formed (st : State) : Prop :=
  filter_rows st = Ok (filteredData st) /\ tidy st.

(** The state after a list of events (the initial state if the component
    went down on the way). *)
Definition after (es : list event) : State :=
  match run es initial_state with
  | Ok st => st
  | Throw _ => initial_state
  end.

End Invariant.

(** The order of the severity ranks: low, medium, high. *)
Definition severity_leb (a b : Severity) : bool :=
  match a, b with
  | low, _ => true
  | medium, (medium | high) => true
  | high, high => true
  | _, _ => false
  end.

(** The other direction. *)
Definition flip (d : Direction) : Direction :=
  match d with
  | asc => desc
  | desc => asc
  end.

Section SortedOrder.

Context {host : Host}.

(** The sort value of the row is a number, not NaN. *)
Definition numeric_sort_value (k : SortKey) (r : Row) : Prop :=
  exists n, sort_value k r = VNum n /\ is_nan n = false.

(** In the direction of the sort, the first value is not after the
    second. *)
Definition in_order (k : SortKey) (d : Direction) (a b : Row) : Prop :=
  match d with
  | asc => js_le (sort_value k a) (sort_value k b) = true
  | desc => js_ge (sort_value k a) (sort_value k b) = true
  end.

End SortedOrder.

(** The value has a [toFixed] method: it is a number. *)
Definition has_toFixed (v : value) : bool :=
  match v with
  | VNum _ => true
  | _ => false
  end.

(** Both coordinates of the row can be formatted. *)
Definition formattable (row : Row) : bool :=
  has_toFixed (LATITUDE row) && has_toFixed (LONGITUDE row).

(** The three cells of the row that are handed to React as they are can be
    rendered. *)
Definition renderable (row : Row) : bool :=
  valid_child (RECORDING_ID row)
  && valid_child (POSITION_YARDS row)
  && valid_child (SCORE row).

(** The rows of a completed filter pass (none if it threw). *)
Definition rows_of (r : result (list Row)) : list Row :=
  match r with
  | Ok l => l
  | Throw _ => []
  end.

(** ** Sample runs *)

Module Runs.

(** The component after loading the four readings at 35, 60, 60 and 85
    degrees. *)
Definition loaded : State :=
  @after reference_host [Loaded Samples.four_scores].

(** Then typing "12:2" into the search box. *)
Definition searched : State :=
  @after reference_host [Loaded Samples.four_scores; SearchChanged "12:2"].

(** Then choosing a start date one minute into the readings. *)
Definition dated : State :=
  @after reference_host
    [Loaded Samples.four_scores; DateFromChanged "2020-09-13T12:27"].

(** Then choosing the severity 'medium' and sorting by temperature. *)
Definition medium_by_score : State :=
  @after reference_host
    [Loaded Samples.four_scores; SeverityChanged (only medium);
     HeaderClicked K_SCORE].

(** Then typing 80 as the lower and 40 as the upper temperature bound. *)
Definition inverted : State :=
  @after reference_host
    [Loaded Samples.four_scores; MinTempChanged "80"; MaxTempChanged "40"].

(** Then typing ".5" as the lower temperature bound. *)
Definition no_digits : State :=
  @after reference_host [Loaded Samples.four_scores; MinTempChanged ".5"].

(** The second of the four readings, as a row. *)
Definition second_row : Row :=
  @normalize reference_host
    (Samples.reading 1600000060 51.6 (-0.2) 200 60 (VNum 2)).

(** A parse result in which one reading has no LATITUDE cell. *)
Definition without_latitude : RawRow :=
  {| UNIX_TIME := VNum 1600000000;
     LATITUDE := VUndefined;
     LONGITUDE := VNum (-0.1);
     POSITION_YARDS := VNum 100;
     SCORE := VNum 60;
     RECORDING_ID := VNum 9 |}.

End Runs.

(** The state after a completed step (the initial state if it threw). *)
Definition rows_of_state (r : result State) : State :=
  match r with
  | Ok st => st
  | Throw _ => initial_state
  end.
(** * Properties *)

(** ** Order of numbers

    The comparison of two numbers is read through their [spec_float]
    images, on which it is a lexicographic comparison of sign, exponent and
    mantissa. *)

Lemma SFcompare_antisym (x y : spec_float) :
  SFcompare y x = option_map CompOpp (SFcompare x y).
Proof.
  destruct x as [sx|sx| |sx mx ex], y as [sy|sy| |sy my ey]; simpl;
    try destruct sx; try destruct sy; simpl; try reflexivity;
    rewrite (Z.compare_antisym ey ex); destruct (ey ?= ex)%Z; simpl;
    try reflexivity;
    fold (Pos.compare mx my); fold (Pos.compare my mx);
    rewrite (Pos.compare_antisym my mx);
    destruct (my ?= mx)%positive; reflexivity.
Qed.

Lemma SFleb_trans (x y z : spec_float) :
  SFleb x y = true -> SFleb y z = true -> SFleb x z = true.
Proof.
  unfold SFleb.
  destruct x as [sx|sx| |sx mx ex], y as [sy|sy| |sy my ey],
           z as [sz|sz| |sz mz ez]; simpl;
    try destruct sx; try destruct sy; try destruct sz; simpl;
    try congruence;
    fold (Pos.compare mx my); fold (Pos.compare my mz);
    fold (Pos.compare mx mz);
    destruct (Z.compare_spec ex ey), (Z.compare_spec ey ez),
             (Z.compare_spec ex ez); try lia; try congruence; subst;
    destruct (Pos.compare_spec mx my), (Pos.compare_spec my mz),
             (Pos.compare_spec mx mz); simpl; try lia; try congruence.
Qed.

Lemma SFcompare_refl (x : spec_float) :
  x <> S754_nan -> SFcompare x x = Some Eq.
Proof.
  destruct x as [s|s| |s m e]; simpl; try congruence; intros _.
  - destruct s; reflexivity.
  - rewrite Z.compare_refl. fold (Pos.compare m m).
    rewrite Pos.compare_refl. destruct s; reflexivity.
Qed.

Lemma SFcompare_None (x y : spec_float) :
  SFcompare x y = None <-> x = S754_nan \/ y = S754_nan.
Proof.
  destruct x as [sx|sx| |sx mx ex], y as [sy|sy| |sy my ey]; simpl;
    split; intros H; try discriminate; auto;
    destruct H; discriminate.
Qed.

Lemma ltb_fcompare (x y : float) :
  (x <? y)%float = match fcompare x y with Some Lt => true | _ => false end.
Proof. rewrite FloatAxioms.ltb_spec. reflexivity. Qed.

Lemma leb_fcompare (x y : float) :
  (x <=? y)%float =
  match fcompare x y with Some Lt | Some Eq => true | _ => false end.
Proof.
  rewrite FloatAxioms.leb_spec. unfold SFleb, fcompare.
  destruct (SFcompare (Prim2SF x) (Prim2SF y)) as [[ | | ]|]; reflexivity.
Qed.

Lemma is_nan_Prim2SF (x : float) :
  is_nan x = true <-> Prim2SF x = S754_nan.
Proof.
  unfold is_nan. rewrite FloatAxioms.eqb_spec. unfold SFeqb. split.
  - intros H. destruct (Prim2SF x) as [s|s| |s m e] eqn:E; auto;
      rewrite SFcompare_refl in H by congruence; discriminate.
  - intros ->. reflexivity.
Qed.

Lemma is_nan_false_Prim2SF (x : float) :
  is_nan x = false <-> Prim2SF x <> S754_nan.
Proof.
  rewrite <- is_nan_Prim2SF. destruct (is_nan x); split; congruence.
Qed.

Lemma fcompare_None (x y : float) :
  fcompare x y = None <-> is_nan x = true \/ is_nan y = true.
Proof.
  unfold fcompare. rewrite SFcompare_None, !is_nan_Prim2SF. reflexivity.
Qed.

Lemma fcompare_antisym (x y : float) :
  fcompare y x = option_map CompOpp (fcompare x y).
Proof. apply SFcompare_antisym. Qed.

Lemma fcompare_refl (x : float) :
  is_nan x = false -> fcompare x x = Some Eq.
Proof.
  intros H. apply SFcompare_refl. now apply is_nan_false_Prim2SF.
Qed.

Lemma leb_refl (x : float) : is_nan x = false -> (x <=? x)%float = true.
Proof.
  intros H. rewrite leb_fcompare, fcompare_refl by assumption. reflexivity.
Qed.

Lemma leb_trans (x y z : float) :
  (x <=? y)%float = true -> (y <=? z)%float = true -> (x <=? z)%float = true.
Proof. rewrite !FloatAxioms.leb_spec. apply SFleb_trans. Qed.

Lemma ltb_leb (x y : float) :
  (x <? y)%float = true -> (x <=? y)%float = true.
Proof.
  rewrite ltb_fcompare, leb_fcompare.
  destruct (fcompare x y) as [[ | | ]|]; congruence.
Qed.

(** Two numbers that are not NaN compare one way or the other. *)
Lemma not_ltb_leb (x y : float) :
  is_nan x = false -> is_nan y = false ->
  (x <? y)%float = false -> (y <=? x)%float = true.
Proof.
  intros Hx Hy. rewrite ltb_fcompare, leb_fcompare, (fcompare_antisym x y).
  destruct (fcompare x y) as [[ | | ]|] eqn:E; simpl; try congruence.
  apply fcompare_None in E. destruct E; congruence.
Qed.

Lemma ltb_not_leb (x y : float) :
  (x <? y)%float = true -> (y <=? x)%float = false.
Proof.
  rewrite ltb_fcompare, leb_fcompare, (fcompare_antisym x y).
  destruct (fcompare x y) as [[ | | ]|]; simpl; congruence.
Qed.

Lemma ltb_not_nan (x y : float) :
  (x <? y)%float = true -> is_nan x = false /\ is_nan y = false.
Proof.
  rewrite ltb_fcompare. intros H.
  destruct (is_nan x) eqn:Hx, (is_nan y) eqn:Hy; auto;
    assert (E : fcompare x y = None) by (apply fcompare_None; auto);
    rewrite E in H; discriminate.
Qed.

Lemma leb_not_nan (x y : float) :
  (x <=? y)%float = true -> is_nan x = false /\ is_nan y = false.
Proof.
  rewrite leb_fcompare. intros H.
  destruct (is_nan x) eqn:Hx, (is_nan y) eqn:Hy; auto;
    assert (E : fcompare x y = None) by (apply fcompare_None; auto);
    rewrite E in H; discriminate.
Qed.

Lemma ltb_leb_trans (x y z : float) :
  (x <? y)%float = true -> (y <=? z)%float = true -> (x <? z)%float = true.
Proof.
  intros Hxy Hyz.
  destruct (ltb_not_nan Hxy) as [Hx _].
  destruct (leb_not_nan Hyz) as [_ Hz].
  destruct (x <? z)%float eqn:E; auto.
  apply not_ltb_leb in E; auto.
  pose proof (leb_trans Hyz E) as Hyx.
  rewrite (ltb_not_leb Hxy) in Hyx. discriminate.
Qed.

(** ** The relational operators against a number *)

Section OperatorFacts.

Context {host : Host}.

Lemma IsLessThan_number_r (x : value) (n : float) :
  IsLessThan x (VNum n) =
  if is_nan (ToNumber x) || is_nan n then None
  else Some (ToNumber x <? n)%float.
Proof. destruct x as [ | |[]| | | ]; reflexivity. Qed.

Lemma IsLessThan_number_l (n : float) (y : value) :
  IsLessThan (VNum n) y =
  if is_nan n || is_nan (ToNumber y) then None
  else Some (n <? ToNumber y)%float.
Proof. destruct y as [ | |[]| | | ]; reflexivity. Qed.

(** [x >= n] and [n <= x] are the same test. *)
Lemma js_le_js_ge (x y : value) : js_le y x = js_ge x y.
Proof. reflexivity. Qed.

Lemma js_ge_number (x : value) (n : float) :
  is_nan n = false ->
  js_ge x (VNum n) =
  negb (is_nan (ToNumber x)) && negb (ToNumber x <? n)%float.
Proof.
  intros Hn. unfold js_ge. rewrite IsLessThan_number_r, Hn, orb_false_r.
  destruct (is_nan (ToNumber x)), (ToNumber x <? n)%float; reflexivity.
Qed.

Lemma js_lt_number (x : value) (n : float) :
  is_nan n = false ->
  js_lt x (VNum n) =
  negb (is_nan (ToNumber x)) && (ToNumber x <? n)%float.
Proof.
  intros Hn. unfold js_lt. rewrite IsLessThan_number_r, Hn, orb_false_r.
  destruct (is_nan (ToNumber x)), (ToNumber x <? n)%float; reflexivity.
Qed.

Lemma js_le_number (x : value) (n : float) :
  is_nan n = false ->
  js_le x (VNum n) =
  negb (is_nan (ToNumber x)) && negb (n <? ToNumber x)%float.
Proof.
  intros Hn. unfold js_le. rewrite IsLessThan_number_l, Hn. simpl.
  destruct (is_nan (ToNumber x)), (n <? ToNumber x)%float; reflexivity.
Qed.

Lemma js_gt_number (x : value) (n : float) :
  is_nan n = false ->
  js_gt x (VNum n) =
  negb (is_nan (ToNumber x)) && (n <? ToNumber x)%float.
Proof.
  intros Hn. unfold js_gt. rewrite IsLessThan_number_l, Hn. simpl.
  destruct (is_nan (ToNumber x)), (n <? ToNumber x)%float; reflexivity.
Qed.

End OperatorFacts.

(** ** Record normalizer *)

Section NormalizerFacts.

Context {host : Host}.

Lemma severity_normalize (row : RawRow) :
  severity (normalize row) = severity_of (SCORE row).
Proof. reflexivity. Qed.

(** The severity in terms of the number the score converts to. *)
Lemma severity_of_cases (score : value) :
  severity_of score =
  if is_nan (ToNumber score) then low
  else if (ToNumber score <? 55)%float then low
  else if (ToNumber score <? 70)%float then medium
  else high.
Proof.
  unfold severity_of. rewrite !js_ge_number by reflexivity.
  destruct (is_nan (ToNumber score)); simpl; auto.
  destruct (ToNumber score <? 55)%float eqn:E55; simpl.
  - assert (E70 : (ToNumber score <? 70)%float = true).
    { apply ltb_leb_trans with (y := 55%float); auto. }
    rewrite E70. reflexivity.
  - destruct (ToNumber score <? 70)%float; reflexivity.
Qed.

End NormalizerFacts.

(** C1. Normalization assigns the severity as a total function of SCORE:
    'high' exactly when SCORE >= 70, 'medium' exactly when 55 <= SCORE and
    SCORE < 70, 'low' exactly when SCORE < 55 or SCORE does not compare (it
    converts to NaN, as a missing cell does).  SCORE 70 gives high, 69.999
    medium, 55 medium, 54.999 low, a missing SCORE low. *)
Theorem C1_severity_thresholds :
  forall (host : Host) (row : RawRow),
    let score := SCORE row in
    let sev := severity (normalize row) in
    sev = severity_of score /\
    (sev = high <-> js_ge score (VNum 70) = true) /\
    (sev = medium <->
       js_le (VNum 55) score = true /\ js_lt score (VNum 70) = true) /\
    (sev = low <->
       js_lt score (VNum 55) = true \/ is_nan (ToNumber score) = true) /\
    (forall t la lo p id,
        severity (normalize (mkRawRow t la lo p (VNum 70) id)) = high /\
        severity (normalize (mkRawRow t la lo p (VNum 69.999) id)) = medium /\
        severity (normalize (mkRawRow t la lo p (VNum 55) id)) = medium /\
        severity (normalize (mkRawRow t la lo p (VNum 54.999) id)) = low /\
        severity (normalize (mkRawRow t la lo p VUndefined id)) = low).
Proof.
  intros host row score sev.
  split; [reflexivity|].
  unfold sev. rewrite severity_normalize, severity_of_cases.
  rewrite js_le_js_ge, !js_ge_number, !js_lt_number by reflexivity.
  fold score.
  destruct (is_nan (ToNumber score)) eqn:En; simpl.
  - repeat split; intros; try discriminate; try tauto.
    + destruct H; discriminate.
  - destruct (ToNumber score <? 55)%float eqn:E55; simpl.
    + assert (E70 : (ToNumber score <? 70)%float = true).
      { apply ltb_leb_trans with (y := 55%float); auto. }
      rewrite E70.
      repeat split; intros; try discriminate; try tauto;
        try (destruct H; discriminate).
    + destruct (ToNumber score <? 70)%float eqn:E70; simpl;
        repeat split; intros; try discriminate; try tauto;
        try (destruct H; discriminate).
Qed.

(** ** Filter pipeline *)

Lemma filter_all_pass {A : Type} (p : A -> bool) (l : list A) :
  (forall x, In x l -> p x = true) -> filter p l = l.
Proof.
  induction l as [|x l IH]; simpl; intros H; auto.
  rewrite (H x) by auto. f_equal. apply IH. auto.
Qed.

Lemma filterM_In {A : Type} (p : A -> result bool) (l out : list A) :
  filterM p l = Ok out -> forall x, In x out -> In x l /\ p x = Ok true.
Proof.
  revert out. induction l as [|y l IH]; simpl; intros out H x Hx.
  - inversion H; subst. contradiction.
  - destruct (p y) as [b|e] eqn:Ey; simpl in H; try discriminate.
    destruct (filterM p l) as [kept|e] eqn:Ek; simpl in H; try discriminate.
    inversion H; subst; clear H.
    destruct b.
    + destruct Hx as [->|Hx]; auto.
      destruct (IH kept eq_refl x Hx); auto.
    + destruct (IH kept eq_refl x Hx); auto.
Qed.

Section FilterFacts.

Context {host : Host}.

Lemma filter_rows_unfold (st : State) :
  filter_rows st =
  if truthy (searchTerm st)
  then filterM (search_matches (toLowerCase (searchTerm st))) (before_search st)
  else Ok (before_search st).
Proof. reflexivity. Qed.

Lemma before_search_In (st : State) (row : Row) :
  In row (before_search st) ->
  In row (data st) /\
  in_temperature_range (fst (temperatureRange st))
                       (snd (temperatureRange st)) row = true.
Proof.
  unfold before_search. intros H.
  apply filter_In in H. destruct H as [H Ht]. split; auto.
  destruct (selectedSeverity st);
    [|apply filter_In in H; destruct H as [H _]];
    (destruct (truthy (dateTo st));
     [apply filter_In in H; destruct H as [H _]|]);
    (destruct (truthy (dateFrom st));
     [apply filter_In in H; destruct H as [H _]|]); assumption.
Qed.

(** Every row that survives a filter pass is a row of the base collection
    whose SCORE is inside the temperature range. *)
Lemma filter_rows_In (st : State) (out : list Row) (row : Row) :
  filter_rows st = Ok out -> In row out ->
  In row (data st) /\
  in_temperature_range (fst (temperatureRange st))
                       (snd (temperatureRange st)) row = true.
Proof.
  rewrite filter_rows_unfold. intros H Hin.
  destruct (truthy (searchTerm st)).
  - apply before_search_In. eapply filterM_In; eauto.
  - inversion H; subst. now apply before_search_In.
Qed.

Lemma filter_rows_reset (st : State) :
  filter_rows (handleReset st) =
  Ok (filter (in_temperature_range (VNum 40) (VNum 80)) (data st)).
Proof. reflexivity. Qed.

Lemma filter_rows_default (base : list Row) :
  filter_rows (default_filter base) =
  Ok (filter (in_temperature_range (VNum 40) (VNum 80)) base).
Proof. reflexivity. Qed.

End FilterFacts.

(** C4. With both dates and the search term empty, severity 'all' and both
    temperature bounds empty, the filter pipeline returns the base
    collection itself: the same rows in the same order. *)
Theorem C4_open_filter_identity :
  forall (host : Host) (st : State),
    dateFrom st = "" ->
    dateTo st = "" ->
    searchTerm st = "" ->
    selectedSeverity st = all ->
    temperatureRange st = (VStr "", VStr "") ->
    filter_rows st = Ok (data st) /\
    filter_effect st = Ok (set_filteredData (data st) st).
Proof.
  intros host st Hf Ht Hs Hsev Hr.
  assert (E : filter_rows st = Ok (data st)).
  { rewrite filter_rows_unfold. unfold before_search.
    rewrite Hf, Ht, Hs, Hsev, Hr. simpl.
    f_equal. apply filter_all_pass. reflexivity. }
  split; auto. unfold filter_effect. rewrite E. reflexivity.
Qed.

(** ** Reset *)

(** C8. After the reset the filter cells hold their defaults (temperature
    range [40, 80], severity 'all', empty search term, empty dates) and the
    sort key is cleared; the filter effect then completes, and the rows
    displayed are the base collection filtered by the default filter, with
    no sort applied. *)
Theorem C8_reset_restores_defaults :
  forall (host : Host) (st : State),
    let st' := handleReset st in
    temperatureRange st' = (VNum 40, VNum 80) /\
    selectedSeverity st' = all /\
    searchTerm st' = "" /\
    dateFrom st' = "" /\
    dateTo st' = "" /\
    key (sortConfig st') = None /\
    exists shown : list Row,
      filter_rows (default_filter (data st)) = Ok shown /\
      filter_effect st' = Ok (set_filteredData shown st') /\
      displayed (set_filteredData shown st') = shown.
Proof.
  intros host st st'. repeat (split; [reflexivity|]).
  exists (filter (in_temperature_range (VNum 40) (VNum 80)) (data st)).
  repeat split; reflexivity.
Qed.

(** C10. The reset writes the five filter cells and the sort configuration
    and nothing else: the base collection, the dark-mode flag, the
    map-expansion flag, the map center and the map bounds are the ones of
    the state before. *)
Theorem C10_reset_frame :
  forall st : State,
    handleReset st =
    mkState (data st) (filteredData st) (VNum 40, VNum 80) "" all
      (isDarkMode st) {| key := None; direction := asc |} (isMapExpanded st)
      (mapCenter st) (mapBounds st) "" "" /\
    data (handleReset st) = data st /\
    isDarkMode (handleReset st) = isDarkMode st /\
    isMapExpanded (handleReset st) = isMapExpanded st /\
    mapCenter (handleReset st) = mapCenter st /\
    mapBounds (handleReset st) = mapBounds st.
Proof. intros st. repeat split; reflexivity. Qed.

(** C9. The temperature filter runs on every filter pass, and the range it
    starts from, and returns to on reset, is [40, 80]: under the default
    filter cells a row whose SCORE is below 40 or above 80 is not among the
    filtered rows, for any base collection. *)
Theorem C9_default_range_excludes :
  forall (host : Host) (base : list Row) (row : Row),
    js_lt (SCORE row) (VNum 40) = true \/ js_gt (SCORE row) (VNum 80) = true ->
    temperatureRange initial_state = (VNum 40, VNum 80) /\
    (forall st, temperatureRange (handleReset st) = (VNum 40, VNum 80)) /\
    (forall st out r,
        filter_rows st = Ok out -> In r out ->
        in_temperature_range (fst (temperatureRange st))
                             (snd (temperatureRange st)) r = true) /\
    exists out : list Row,
      filter_rows (default_filter base) = Ok out /\ ~ In row out.
Proof.
  intros host base row Hscore.
  split; [reflexivity|]. split; [reflexivity|]. split.
  { intros st out r H Hin. eapply filter_rows_In; eauto. }
  eexists. split; [apply filter_rows_default|].
  intros Hin. apply filter_In in Hin. destruct Hin as [_ Hin].
  unfold in_temperature_range in Hin. simpl in Hin.
  apply andb_true_iff in Hin. destruct Hin as [Hge Hle].
  rewrite js_ge_number in Hge by reflexivity.
  rewrite js_le_number in Hle by reflexivity.
  rewrite js_lt_number, js_gt_number in Hscore by reflexivity.
  destruct (is_nan (ToNumber (SCORE row))); simpl in *; try discriminate.
  destruct Hscore as [H|H]; rewrite H in *; discriminate.
Qed.

(** ** Sort engine *)

Section ArraySortFacts.

Variable A : Type.
Variable comparefn : A -> A -> Z.

Lemma insert_sorted_In (x y : A) (l : list A) :
  In y (insert_sorted comparefn x l) <-> y = x \/ In y l.
Proof.
  induction l as [|z l IH]; simpl.
  - intuition.
  - destruct (0 <? comparefn x z)%Z; simpl; rewrite ?IH; intuition.
Qed.

Lemma array_sort_In (y : A) (l : list A) :
  In y (array_sort comparefn l) <-> In y l.
Proof.
  induction l as [|x l IH]; simpl; [tauto|].
  rewrite insert_sorted_In, IH. intuition.
Qed.

Lemma insert_sorted_length (x : A) (l : list A) :
  List.length (insert_sorted comparefn x l) = S (List.length l).
Proof.
  induction l as [|z l IH]; simpl; auto.
  destruct (0 <? comparefn x z)%Z; simpl; auto.
Qed.

Lemma array_sort_length (l : list A) :
  List.length (array_sort comparefn l) = List.length l.
Proof.
  induction l as [|x l IH]; simpl; auto.
  rewrite insert_sorted_length. auto.
Qed.

(** Inserting [x] leaves the elements selected by [keep] in place when
    [x] ties with each of them. *)
Lemma filter_insert_sorted (keep : A -> bool) (x : A) (l : list A) :
  (forall y, keep x = true -> keep y = true -> comparefn x y = 0%Z) ->
  filter keep (insert_sorted comparefn x l) = filter keep (x :: l).
Proof.
  intros Htie. induction l as [|z l IH]; [reflexivity|].
  simpl insert_sorted.
  destruct (0 <? comparefn x z)%Z eqn:E; [|reflexivity].
  apply Z.ltb_lt in E.
  change (filter keep (z :: insert_sorted comparefn x l))
    with (if keep z then z :: filter keep (insert_sorted comparefn x l)
          else filter keep (insert_sorted comparefn x l)).
  rewrite IH. simpl.
  destruct (keep x) eqn:Kx, (keep z) eqn:Kz; try reflexivity.
  specialize (Htie z eq_refl Kz). lia.
Qed.

(** Stability: elements that tie pairwise come out in the order they came
    in. *)
Lemma array_sort_stable (keep : A -> bool) (l : list A) :
  (forall x y, keep x = true -> keep y = true -> comparefn x y = 0%Z) ->
  filter keep (array_sort comparefn l) = filter keep l.
Proof.
  intros Htie. induction l as [|x l IH]; [reflexivity|].
  simpl array_sort. rewrite filter_insert_sorted by (intros; now apply Htie).
  simpl. rewrite IH. reflexivity.
Qed.

End ArraySortFacts.

(** With a comparator that is a total preorder (a consistent comparator),
    the output is in order. *)
Section ArraySortOrdered.

Variable A : Type.
Variable comparefn : A -> A -> Z.

Hypothesis comparefn_total :
  forall a b, (0 < comparefn a b)%Z -> (comparefn b a <= 0)%Z.

Hypothesis comparefn_trans :
  forall a b c,
    (comparefn a b <= 0)%Z -> (comparefn b c <= 0)%Z -> (comparefn a c <= 0)%Z.

Lemma insert_sorted_ordered (x : A) (l : list A) :
  StronglySorted (fun a b => (comparefn a b <= 0)%Z) l ->
  StronglySorted (fun a b => (comparefn a b <= 0)%Z)
                 (insert_sorted comparefn x l).
Proof.
  induction 1 as [|y l Hs IH Hy]; simpl.
  - repeat constructor.
  - destruct (0 <? comparefn x y)%Z eqn:E.
    + apply Z.ltb_lt in E. constructor; auto.
      apply Forall_forall. intros z Hz.
      apply insert_sorted_In in Hz. destruct Hz as [->|Hz].
      * now apply comparefn_total.
      * rewrite Forall_forall in Hy. now apply Hy.
    + apply Z.ltb_ge in E. constructor; [constructor; auto|].
      constructor; auto.
      rewrite Forall_forall in *. intros z Hz.
      apply comparefn_trans with (b := y); auto.
Qed.

Lemma array_sort_ordered (l : list A) :
  StronglySorted (fun a b => (comparefn a b <= 0)%Z) (array_sort comparefn l).
Proof.
  induction l as [|x l IH]; simpl; [constructor|].
  now apply insert_sorted_ordered.
Qed.

End ArraySortOrdered.

Lemma insert_sorted_Permutation {A : Type} (f : A -> A -> Z) (x : A)
      (l : list A) :
  Permutation (insert_sorted f x l) (x :: l).
Proof.
  induction l as [|y l IH]; simpl; [reflexivity|].
  destruct (0 <? f x y)%Z; [|reflexivity].
  rewrite IH. apply perm_swap.
Qed.

(** The output holds the elements of the input, each as often. *)
Lemma array_sort_Permutation {A : Type} (f : A -> A -> Z) (l : list A) :
  Permutation (array_sort f l) l.
Proof.
  induction l as [|x l IH]; simpl; [reflexivity|].
  rewrite insert_sorted_Permutation. now constructor.
Qed.

(** For a consistent comparator the three properties (same elements, in
    comparator order, ties in input order) leave one list only, so the
    reference is the result the language prescribes. *)
Section ArraySortCharacterized.

Variable A : Type.
Variable comparefn : A -> A -> Z.

Hypothesis comparefn_refl : forall a, comparefn a a = 0%Z.

Hypothesis comparefn_sym :
  forall a b, (0 < comparefn a b)%Z <-> (comparefn b a < 0)%Z.

Hypothesis comparefn_trans :
  forall a b c,
    (comparefn a b <= 0)%Z -> (comparefn b c <= 0)%Z -> (comparefn a c <= 0)%Z.

Lemma both_below_tie (a b : A) :
  (comparefn a b <= 0)%Z -> (comparefn b a <= 0)%Z -> comparefn a b = 0%Z.
Proof.
  intros Hab Hba. pose proof (comparefn_sym b a) as H. lia.
Qed.

Lemma tie_sym (a b : A) : comparefn a b = 0%Z -> comparefn b a = 0%Z.
Proof.
  intros H. pose proof (comparefn_sym a b). pose proof (comparefn_sym b a).
  lia.
Qed.

Lemma ties_pairwise (x a b : A) :
  ties comparefn x a = true -> ties comparefn x b = true -> comparefn a b = 0%Z.
Proof.
  unfold ties. intros Ha Hb.
  apply Z.eqb_eq in Ha. apply Z.eqb_eq in Hb.
  pose proof (tie_sym Ha) as Ha'. pose proof (tie_sym Hb) as Hb'.
  apply both_below_tie.
  - apply comparefn_trans with (b := x); lia.
  - apply comparefn_trans with (b := x); lia.
Qed.

Lemma head_is_least (a b : A) (l : list A) :
  StronglySorted (fun x y => (comparefn x y <= 0)%Z) (a :: l) ->
  In b (a :: l) -> (comparefn a b <= 0)%Z.
Proof.
  intros Hs [<-|Hb]; [rewrite comparefn_refl; lia|].
  inversion Hs as [|? ? _ Hall]; subst.
  rewrite Forall_forall in Hall. now apply Hall.
Qed.

Lemma stable_sorted_unique (o1 : list A) :
  forall o2,
    StronglySorted (fun x y => (comparefn x y <= 0)%Z) o1 ->
    StronglySorted (fun x y => (comparefn x y <= 0)%Z) o2 ->
    Permutation o1 o2 ->
    (forall x, filter (ties comparefn x) o1 = filter (ties comparefn x) o2) ->
    o1 = o2.
Proof.
  induction o1 as [|a o1 IH]; intros o2 S1 S2 P F.
  - apply Permutation_nil in P. now subst.
  - destruct o2 as [|b o2].
    + apply Permutation_sym, Permutation_nil in P. discriminate.
    + assert (Hab : comparefn a b = 0%Z).
      { apply both_below_tie.
        - apply head_is_least with (l := o1); auto.
          apply Permutation_in with (l := b :: o2);
            [now apply Permutation_sym|now left].
        - apply head_is_least with (l := o2); auto.
          apply Permutation_in with (l := a :: o1); [assumption|now left]. }
      assert (Eab : a = b).
      { specialize (F a). simpl in F.
        assert (Haa : ties comparefn a a = true)
          by (unfold ties; rewrite comparefn_refl; reflexivity).
        assert (Hab' : ties comparefn a b = true)
          by (unfold ties; rewrite Hab; reflexivity).
        rewrite Haa, Hab' in F. now injection F. }
      subst b. f_equal. apply IH.
      * now inversion S1.
      * now inversion S2.
      * now apply Permutation_cons_inv with (a := a).
      * intros x. specialize (F x). simpl in F.
        destruct (ties comparefn x a); [now injection F|assumption].
Qed.

Theorem array_sort_characterized (l out : list A) :
  Permutation out l ->
  StronglySorted (fun x y => (comparefn x y <= 0)%Z) out ->
  (forall x, filter (ties comparefn x) out = filter (ties comparefn x) l) ->
  out = array_sort comparefn l.
Proof.
  intros P S F. apply stable_sorted_unique; auto.
  - apply array_sort_ordered; auto.
    intros a b H. apply comparefn_sym in H. lia.
  - rewrite P. apply Permutation_sym, array_sort_Permutation.
  - intros x. rewrite F. symmetry. apply array_sort_stable.
    intros a b. apply ties_pairwise.
Qed.

End ArraySortCharacterized.

Lemma array_sort_ext {A : Type} (f g : A -> A -> Z) (l : list A) :
  (forall a b, f a b = g a b) -> array_sort f l = array_sort g l.
Proof.
  intros H. induction l as [|x l IH]; simpl; auto.
  rewrite IH. generalize (array_sort g l). intros s.
  induction s as [|z s IHs]; simpl; auto.
  rewrite H, IHs. reflexivity.
Qed.

Lemma array_sort_ext_In {A : Type} (f g : A -> A -> Z) (l : list A) :
  (forall a b, In a l -> In b l -> f a b = g a b) ->
  array_sort f l = array_sort g l.
Proof.
  induction l as [|x l IH]; simpl; intros H; auto.
  rewrite IH by (intros; apply H; auto).
  assert (Hs : forall z, In z (array_sort g l) -> f x z = g x z).
  { intros z Hz. apply H; auto. right. now apply array_sort_In in Hz. }
  revert Hs. generalize (array_sort g l). intros s.
  induction s as [|z s IHs]; simpl; intros Hs; auto.
  rewrite Hs by auto. rewrite IHs by auto. reflexivity.
Qed.

(** Sorting commutes with a relabelling the comparison does not see. *)
Lemma array_sort_map {A B : Type} (f : A -> A -> Z) (g : B -> B -> Z)
      (h : A -> B) (l : list A) :
  (forall a b, g (h a) (h b) = f a b) ->
  array_sort g (map h l) = map h (array_sort f l).
Proof.
  intros H. induction l as [|x l IH]; simpl; auto.
  rewrite IH. generalize (array_sort f l). intros s.
  induction s as [|z s IHs]; simpl; auto.
  rewrite H. destruct (0 <? f x z)%Z; simpl; [rewrite IHs|]; reflexivity.
Qed.

Section SortFacts.

Context {host : Host}.

Lemma comparator_compare_values (k : SortKey) (d : Direction) (a b : Row) :
  comparator k d a b = compare_values d (sort_value k a) (sort_value k b).
Proof. reflexivity. Qed.

Lemma string_compare_refl (s : string) : String.compare s s = Eq.
Proof.
  induction s as [|c s IH]; simpl; auto.
  unfold Ascii.compare. rewrite N.compare_refl. assumption.
Qed.

Lemma IsLessThan_irrefl (v : value) : IsLessThan v v <> Some true.
Proof.
  assert (Hnum : forall n : float,
             (if is_nan n || is_nan n then None else Some (n <? n)%float)
             <> Some true).
  { intros n. destruct (is_nan n) eqn:En; simpl; [discriminate|].
    rewrite ltb_fcompare, fcompare_refl by assumption. discriminate. }
  destruct v as [ | |[]|n|s|tv]; simpl; try apply Hnum; try discriminate.
  unfold String.ltb. rewrite string_compare_refl. discriminate.
Qed.

(** Two rows with the same sort value tie, in both directions. *)
Lemma equal_sort_values_tie (k : SortKey) (d : Direction) (a b : Row) :
  sort_value k a = sort_value k b -> comparator k d a b = 0%Z.
Proof.
  intros E. rewrite comparator_compare_values, E.
  unfold compare_values, js_lt, js_gt.
  pose proof (IsLessThan_irrefl (sort_value k b)) as H.
  destruct (IsLessThan (sort_value k b) (sort_value k b)) as [[|]|];
    congruence.
Qed.

(** The comparator of the severity column is consistent, so the rows come
    out in rank order. *)
Lemma sorted_by_severity_ordered (d : Direction) (rows : list Row) :
  StronglySorted (fun a b => (comparator K_severity d a b <= 0)%Z)
    (sorted_rows {| key := Some K_severity; direction := d |} rows).
Proof.
  unfold sorted_rows. simpl. apply array_sort_ordered.
  - intros [ra da [ | | ]] [rb db [ | | ]]; destruct d; vm_compute;
      intros H; congruence.
  - intros [ra da [ | | ]] [rb db [ | | ]] [rc dc [ | | ]]; destruct d;
      vm_compute; intros H1 H2; congruence.
Qed.

End SortFacts.

Section ComparatorFacts.

Context {host : Host}.

Lemma string_ltb_asym (a b : string) :
  String.ltb a b = true -> String.ltb b a = false.
Proof.
  unfold String.ltb. rewrite (String.compare_antisym b a).
  destruct (String.compare a b); simpl; congruence.
Qed.

Lemma ltb_asym (x y : float) :
  (x <? y)%float = true -> (y <? x)%float = false.
Proof.
  intros H. destruct (y <? x)%float eqn:E; auto.
  apply ltb_leb in E. rewrite (ltb_not_leb H) in E. discriminate.
Qed.

(** [a < b] and [b < a] are never both true. *)
Lemma IsLessThan_asym (x y : value) :
  IsLessThan x y = Some true -> IsLessThan y x <> Some true.
Proof.
  assert (Hnum : forall n m : float,
             (if is_nan n || is_nan m then None else Some (n <? m)%float)
               = Some true ->
             (if is_nan m || is_nan n then None else Some (m <? n)%float)
               <> Some true).
  { intros n m. rewrite (orb_comm (is_nan m)).
    destruct (is_nan n || is_nan m); [discriminate|].
    intros H. injection H as H. rewrite (ltb_asym H). discriminate. }
  destruct x as [ | |[]|n|s|tv], y as [ | |[]|m|t|tw];
    cbv beta iota zeta delta [IsLessThan ToNumber];
    try apply Hnum.
  intros H. injection H as H. rewrite (string_ltb_asym _ _ H). discriminate.
Qed.

Lemma compare_values_swap (d : Direction) (x y : value) :
  compare_values d y x = (- compare_values d x y)%Z.
Proof.
  unfold compare_values, js_lt, js_gt.
  pose proof (IsLessThan_asym x y) as H1.
  pose proof (IsLessThan_asym y x) as H2.
  destruct (IsLessThan x y) as [[|]|], (IsLessThan y x) as [[|]|];
    destruct d; try reflexivity;
    exfalso; (now apply H1) || (now apply H2).
Qed.

Lemma compare_values_flip (d : Direction) (x y : value) :
  compare_values (flip d) x y = (- compare_values d x y)%Z.
Proof.
  unfold compare_values.
  destruct (js_lt x y), (js_gt x y), d; reflexivity.
Qed.

End ComparatorFacts.

(** *** Order of the output *)

Section ArraySortOrderedOn.

Variable A : Type.
Variable comparefn : A -> A -> Z.
Variable good : A -> Prop.

Hypothesis total_on_good :
  forall a b, good a -> good b ->
              (0 < comparefn a b)%Z -> (comparefn b a <= 0)%Z.

Hypothesis trans_on_good :
  forall a b c, good a -> good b -> good c ->
    (comparefn a b <= 0)%Z -> (comparefn b c <= 0)%Z -> (comparefn a c <= 0)%Z.

Lemma insert_sorted_ordered_on (x : A) (l : list A) :
  good x -> Forall good l ->
  StronglySorted (fun a b => (comparefn a b <= 0)%Z) l ->
  StronglySorted (fun a b => (comparefn a b <= 0)%Z)
                 (insert_sorted comparefn x l).
Proof.
  intros Hx Hl Hs. induction Hs as [|y l Hs IH Hy]; simpl.
  - repeat constructor.
  - inversion Hl as [|? ? Hgy Hgl]; subst.
    destruct (0 <? comparefn x y)%Z eqn:E.
    + apply Z.ltb_lt in E. constructor; auto.
      apply Forall_forall. intros z Hz.
      apply insert_sorted_In in Hz. destruct Hz as [->|Hz].
      * now apply total_on_good.
      * rewrite Forall_forall in Hy. now apply Hy.
    + apply Z.ltb_ge in E. constructor; [constructor; auto|].
      constructor; auto.
      rewrite Forall_forall in *. intros z Hz.
      apply trans_on_good with (b := y); auto.
Qed.

Lemma array_sort_ordered_on (l : list A) :
  Forall good l ->
  StronglySorted (fun a b => (comparefn a b <= 0)%Z) (array_sort comparefn l).
Proof.
  induction 1 as [|x l Hx Hl IH]; simpl; [constructor|].
  apply insert_sorted_ordered_on; auto.
  apply Forall_forall. intros z Hz. apply array_sort_In in Hz.
  rewrite Forall_forall in Hl. auto.
Qed.

(** A list that is in comparator order is left as it is. *)
Lemma array_sort_of_ordered (l : list A) :
  StronglySorted (fun a b => (comparefn a b <= 0)%Z) l ->
  array_sort comparefn l = l.
Proof.
  induction 1 as [|x l Hs IH Hx]; simpl; [reflexivity|].
  rewrite IH. destruct l as [|y l]; [reflexivity|]. simpl.
  inversion Hx as [|? ? Hxy _]; subst.
  destruct (0 <? comparefn x y)%Z eqn:E; [|reflexivity].
  apply Z.ltb_lt in E. lia.
Qed.

End ArraySortOrderedOn.

Lemma StronglySorted_weaken {A : Type} (R R' : A -> A -> Prop) (l : list A) :
  (forall a b, In a l -> In b l -> R a b -> R' a b) ->
  StronglySorted R l -> StronglySorted R' l.
Proof.
  intros H Hs. induction Hs as [|x l Hs IH Hx]; constructor.
  - apply IH. intros a b Ha Hb. apply H; now right.
  - rewrite Forall_forall in *. intros y Hy.
    apply H; [now left|now right|now apply Hx].
Qed.

Section NumericOrder.

Context {host : Host}.

(** On numbers that are not NaN the comparator is the order of the
    numbers, in the direction of the sort. *)
Lemma comparator_numbers (k : SortKey) (d : Direction) (a b : Row)
      (n m : float) :
  sort_value k a = VNum n -> is_nan n = false ->
  sort_value k b = VNum m -> is_nan m = false ->
  ((comparator k d a b <= 0)%Z <->
   match d with
   | asc => (n <=? m)%float = true
   | desc => (m <=? n)%float = true
   end).
Proof.
  intros Ha Hn Hb Hm.
  rewrite comparator_compare_values, Ha, Hb.
  unfold compare_values, js_lt, js_gt. simpl. rewrite Hn, Hm. simpl.
  destruct (n <? m)%float eqn:E1.
  - pose proof (ltb_leb E1) as L. pose proof (ltb_not_leb E1) as L'.
    rewrite ?(ltb_asym E1). destruct d; split; intros; try lia; congruence.
  - destruct (m <? n)%float eqn:E2.
    + pose proof (ltb_leb E2) as L. pose proof (ltb_not_leb E2) as L'.
      destruct d; split; intros; try lia; congruence.
    + pose proof (not_ltb_leb Hn Hm E1) as L.
      pose proof (not_ltb_leb Hm Hn E2) as L'.
      destruct d; split; intros; try lia; auto.
Qed.

Lemma in_order_numbers (k : SortKey) (d : Direction) (a b : Row) :
  numeric_sort_value k a -> numeric_sort_value k b ->
  ((comparator k d a b <= 0)%Z <-> in_order k d a b).
Proof.
  intros (n & Ha & Hn) (m & Hb & Hm).
  rewrite (comparator_numbers k d a b Ha Hn Hb Hm).
  unfold in_order. rewrite Ha, Hb. unfold js_le, js_ge. simpl.
  rewrite Hn, Hm. simpl.
  destruct d.
  - destruct (m <? n)%float eqn:E.
    + rewrite (ltb_not_leb E). split; discriminate.
    + rewrite (not_ltb_leb Hm Hn E). tauto.
  - destruct (n <? m)%float eqn:E.
    + rewrite (ltb_not_leb E). split; discriminate.
    + rewrite (not_ltb_leb Hn Hm E). tauto.
Qed.

Lemma numeric_total (k : SortKey) (d : Direction) (a b : Row) :
  numeric_sort_value k a -> numeric_sort_value k b ->
  (0 < comparator k d a b)%Z -> (comparator k d b a <= 0)%Z.
Proof.
  intros _ _ H. rewrite comparator_compare_values in *.
  rewrite (compare_values_swap d (sort_value k a) (sort_value k b)). lia.
Qed.

Lemma numeric_trans (k : SortKey) (d : Direction) (a b c : Row) :
  numeric_sort_value k a -> numeric_sort_value k b ->
  numeric_sort_value k c ->
  (comparator k d a b <= 0)%Z -> (comparator k d b c <= 0)%Z ->
  (comparator k d a c <= 0)%Z.
Proof.
  intros (n & Ha & Hn) (m & Hb & Hm) (p & Hc & Hp).
  rewrite (comparator_numbers k d a b Ha Hn Hb Hm).
  rewrite (comparator_numbers k d b c Hb Hm Hc Hp).
  rewrite (comparator_numbers k d a c Ha Hn Hc Hp).
  destruct d; intros H1 H2; eapply leb_trans; eauto.
Qed.

Lemma sorted_numbers_ordered (k : SortKey) (d : Direction) (rows : list Row) :
  (forall r, In r rows -> numeric_sort_value k r) ->
  StronglySorted (fun a b => (comparator k d a b <= 0)%Z)
                 (array_sort (comparator k d) rows).
Proof.
  intros H.
  apply array_sort_ordered_on with (good := numeric_sort_value k).
  - apply numeric_total.
  - apply numeric_trans.
  - now apply Forall_forall.
Qed.

End NumericOrder.

(** *** Rows whose sort values compare *)

Lemma eqb_leb (x t : float) :
  (x =? t)%float = true ->
  (x <=? t)%float = true /\ (t <=? x)%float = true.
Proof.
  rewrite FloatAxioms.eqb_spec, !leb_fcompare, (fcompare_antisym x t).
  unfold SFeqb, fcompare.
  destruct (SFcompare (Prim2SF x) (Prim2SF t)) as [[ | | ]|]; simpl;
    intros H; try discriminate; auto.
Qed.

(** Two numbers equal to a third one are not below one another. *)
Lemma equal_numbers_tie (x y t : float) :
  (x =? t)%float = true -> (y =? t)%float = true -> (x <? y)%float = false.
Proof.
  intros Hx Hy.
  destruct (eqb_leb Hx) as [_ Htx]. destruct (eqb_leb Hy) as [Hyt _].
  destruct (x <? y)%float eqn:E; auto.
  pose proof (leb_trans Hyt Htx) as H.
  rewrite (ltb_not_leb E) in H. discriminate.
Qed.

(** The order of strings by code units is transitive. *)
Lemma string_compare_trans (a : string) :
  forall b c,
    String.compare a b <> Gt -> String.compare b c <> Gt ->
    String.compare a c <> Gt.
Proof.
  induction a as [|x a IH]; intros [|y b] [|z c]; simpl; try congruence.
  unfold Ascii.compare.
  destruct (N.compare_spec (N_of_ascii x) (N_of_ascii y)) as [E1|L1|G1];
    destruct (N.compare_spec (N_of_ascii y) (N_of_ascii z)) as [E2|L2|G2];
    destruct (N.compare_spec (N_of_ascii x) (N_of_ascii z)) as [E3|L3|G3];
    intros Hab Hbc; try congruence; try lia.
  now apply IH with (b := b).
Qed.

Section ComparableOrder.

Context {host : Host}.

Lemma compare_values_strings (d : Direction) (a b : string) :
  (compare_values d (VStr a) (VStr b) <= 0)%Z <->
  match d with
  | asc => String.compare a b <> Gt
  | desc => String.compare b a <> Gt
  end.
Proof.
  unfold compare_values, js_lt, js_gt. simpl. unfold String.ltb.
  rewrite (String.compare_antisym b a).
  destruct (String.compare a b), d; simpl; split; intros; try lia;
    congruence.
Qed.

Lemma IsLessThan_numbers (v w : value) :
  compares_as_number v -> compares_as_number w ->
  IsLessThan v w = Some (ToNumber v <? ToNumber w)%float.
Proof.
  intros Hv Hw.
  assert (Hn : is_nan (ToNumber v) = false)
    by (destruct v as [ | |[]|n|s|tv]; try contradiction; exact Hv).
  assert (Hm : is_nan (ToNumber w) = false)
    by (destruct w as [ | |[]|n|s|tv]; try contradiction; exact Hw).
  destruct v as [ | |[]|n|s|tv]; try contradiction;
    destruct w as [ | |[]|m|t|tw]; try contradiction;
    cbv beta iota zeta delta [IsLessThan];
    rewrite ?Hn, ?Hm; reflexivity.
Qed.

Lemma compare_values_numbers (d : Direction) (v w : value) :
  compares_as_number v -> compares_as_number w ->
  ((compare_values d v w <= 0)%Z <->
   match d with
   | asc => (ToNumber v <=? ToNumber w)%float = true
   | desc => (ToNumber w <=? ToNumber v)%float = true
   end).
Proof.
  intros Hv Hw.
  assert (Hn : is_nan (ToNumber v) = false)
    by (destruct v as [ | |[]|n|s|tv]; try contradiction; exact Hv).
  assert (Hm : is_nan (ToNumber w) = false)
    by (destruct w as [ | |[]|n|s|tv]; try contradiction; exact Hw).
  unfold compare_values, js_lt, js_gt.
  rewrite (IsLessThan_numbers v w Hv Hw), (IsLessThan_numbers w v Hw Hv).
  destruct (ToNumber v <? ToNumber w)%float eqn:E1.
  - pose proof (ltb_leb E1) as L. pose proof (ltb_not_leb E1) as L'.
    rewrite ?(ltb_asym E1). destruct d; split; intros; try lia; congruence.
  - destruct (ToNumber w <? ToNumber v)%float eqn:E2.
    + pose proof (ltb_leb E2) as L. pose proof (ltb_not_leb E2) as L'.
      destruct d; split; intros; try lia; congruence.
    + pose proof (not_ltb_leb Hn Hm E1) as L.
      pose proof (not_ltb_leb Hm Hn E2) as L'.
      destruct d; split; intros; try lia; auto.
Qed.

Lemma comparator_refl (k : SortKey) (d : Direction) (a : Row) :
  comparator k d a a = 0%Z.
Proof. now apply equal_sort_values_tie. Qed.

Lemma comparator_swap (k : SortKey) (d : Direction) (a b : Row) :
  (0 < comparator k d a b)%Z <-> (comparator k d b a < 0)%Z.
Proof.
  rewrite !comparator_compare_values.
  rewrite (compare_values_swap d (sort_value k a) (sort_value k b)). lia.
Qed.

Lemma comparator_trans_strings (k : SortKey) (d : Direction) (a b c : Row) :
  (exists s, sort_value k a = VStr s) ->
  (exists s, sort_value k b = VStr s) ->
  (exists s, sort_value k c = VStr s) ->
  (comparator k d a b <= 0)%Z -> (comparator k d b c <= 0)%Z ->
  (comparator k d a c <= 0)%Z.
Proof.
  intros [sa Ha] [sb Hb] [sc Hc].
  rewrite !comparator_compare_values, Ha, Hb, Hc, !compare_values_strings.
  destruct d; intros H1 H2.
  - now apply string_compare_trans with (b := sb).
  - now apply string_compare_trans with (b := sb).
Qed.

Lemma comparator_trans_numbers (k : SortKey) (d : Direction) (a b c : Row) :
  compares_as_number (sort_value k a) ->
  compares_as_number (sort_value k b) ->
  compares_as_number (sort_value k c) ->
  (comparator k d a b <= 0)%Z -> (comparator k d b c <= 0)%Z ->
  (comparator k d a c <= 0)%Z.
Proof.
  intros Ha Hb Hc.
  rewrite !comparator_compare_values.
  rewrite (compare_values_numbers d _ _ Ha Hb),
          (compare_values_numbers d _ _ Hb Hc),
          (compare_values_numbers d _ _ Ha Hc).
  destruct d; intros H1 H2; eapply leb_trans; eauto.
Qed.

End ComparableOrder.

(** On elements on which the comparator is transitive, the three
    properties of a stable sort (same elements, in comparator order, ties
    in input order) leave one list only: the reference is the result of
    every engine. *)
Section ArraySortCharacterizedOn.

Variable A : Type.
Variable comparefn : A -> A -> Z.
Variable good : A -> Prop.

Hypothesis comparefn_refl : forall a, comparefn a a = 0%Z.

Hypothesis comparefn_sym :
  forall a b, (0 < comparefn a b)%Z <-> (comparefn b a < 0)%Z.

Hypothesis trans_on_good :
  forall a b c, good a -> good b -> good c ->
    (comparefn a b <= 0)%Z -> (comparefn b c <= 0)%Z -> (comparefn a c <= 0)%Z.

Lemma ties_pairwise_on (x a b : A) :
  good x -> good a -> good b ->
  ties comparefn x a = true -> ties comparefn x b = true ->
  comparefn a b = 0%Z.
Proof.
  unfold ties. intros Gx Ga Gb Ha Hb.
  apply Z.eqb_eq in Ha. apply Z.eqb_eq in Hb.
  pose proof (comparefn_sym x a). pose proof (comparefn_sym a x).
  pose proof (comparefn_sym x b). pose proof (comparefn_sym b x).
  pose proof (comparefn_sym a b). pose proof (comparefn_sym b a).
  assert (comparefn a b <= 0)%Z
    by (apply trans_on_good with (b := x); auto; lia).
  assert (comparefn b a <= 0)%Z
    by (apply trans_on_good with (b := x); auto; lia).
  lia.
Qed.

Lemma filter_insert_sorted_on (keep : A -> bool) (x : A) (l : list A) :
  (forall y, In y l -> keep x = true -> keep y = true ->
             comparefn x y = 0%Z) ->
  filter keep (insert_sorted comparefn x l) = filter keep (x :: l).
Proof.
  induction l as [|z l IH]; intros Htie; [reflexivity|].
  simpl insert_sorted.
  destruct (0 <? comparefn x z)%Z eqn:E; [|reflexivity].
  apply Z.ltb_lt in E.
  change (filter keep (z :: insert_sorted comparefn x l))
    with (if keep z then z :: filter keep (insert_sorted comparefn x l)
          else filter keep (insert_sorted comparefn x l)).
  rewrite IH by (intros y Hy; apply Htie; now right). simpl.
  destruct (keep x) eqn:Kx, (keep z) eqn:Kz; try reflexivity.
  specialize (Htie z (or_introl eq_refl) eq_refl Kz). lia.
Qed.

Lemma array_sort_stable_on (keep : A -> bool) (l : list A) :
  (forall x y, In x l -> In y l -> keep x = true -> keep y = true ->
               comparefn x y = 0%Z) ->
  filter keep (array_sort comparefn l) = filter keep l.
Proof.
  induction l as [|x l IH]; intros Htie; [reflexivity|].
  simpl array_sort. rewrite filter_insert_sorted_on.
  - simpl. rewrite IH; [reflexivity|].
    intros a b Ha Hb. apply Htie; now right.
  - intros y Hy. apply array_sort_In in Hy. apply Htie; [now left|now right].
Qed.

Lemma stable_sorted_unique_on (o1 : list A) :
  forall o2,
    StronglySorted (fun x y => (comparefn x y <= 0)%Z) o1 ->
    StronglySorted (fun x y => (comparefn x y <= 0)%Z) o2 ->
    Permutation o1 o2 ->
    (forall x, In x o1 ->
               filter (ties comparefn x) o1 = filter (ties comparefn x) o2) ->
    o1 = o2.
Proof.
  induction o1 as [|a o1 IH]; intros o2 S1 S2 P F.
  - apply Permutation_nil in P. now subst.
  - destruct o2 as [|b o2].
    + apply Permutation_sym, Permutation_nil in P. discriminate.
    + assert (Hab : comparefn a b = 0%Z).
      { assert (H1 : (comparefn a b <= 0)%Z).
        { assert (Hb : In b (a :: o1))
            by (apply Permutation_in with (l := b :: o2);
                [now apply Permutation_sym|now left]).
          destruct Hb as [<-|Hb]; [rewrite comparefn_refl; lia|].
          inversion S1 as [|? ? _ Hall]; subst.
          rewrite Forall_forall in Hall. now apply Hall. }
        assert (H2 : (comparefn b a <= 0)%Z).
        { assert (Ha : In a (b :: o2))
            by (apply Permutation_in with (l := a :: o1);
                [assumption|now left]).
          destruct Ha as [<-|Ha]; [rewrite comparefn_refl; lia|].
          inversion S2 as [|? ? _ Hall]; subst.
          rewrite Forall_forall in Hall. now apply Hall. }
        pose proof (comparefn_sym b a). lia. }
      assert (Eab : a = b).
      { pose proof (F a (or_introl eq_refl)) as Fa. simpl in Fa.
        assert (Haa : ties comparefn a a = true)
          by (unfold ties; rewrite comparefn_refl; reflexivity).
        assert (Hab' : ties comparefn a b = true)
          by (unfold ties; rewrite Hab; reflexivity).
        rewrite Haa, Hab' in Fa. now injection Fa. }
      subst b. f_equal. apply IH.
      * now inversion S1.
      * now inversion S2.
      * now apply Permutation_cons_inv with (a := a).
      * intros x Hx. pose proof (F x (or_intror Hx)) as Fx. simpl in Fx.
        destruct (ties comparefn x a); [now injection Fx|assumption].
Qed.

Theorem array_sort_characterized_on (l out : list A) :
  Forall good l ->
  Permutation out l ->
  StronglySorted (fun x y => (comparefn x y <= 0)%Z) out ->
  (forall x, In x l ->
             filter (ties comparefn x) out = filter (ties comparefn x) l) ->
  out = array_sort comparefn l.
Proof.
  intros G P S F. rewrite Forall_forall in G.
  apply stable_sorted_unique_on; auto.
  - apply array_sort_ordered_on with (good := good).
    + intros a b _ _ H. apply comparefn_sym in H. lia.
    + exact trans_on_good.
    + now apply Forall_forall.
  - rewrite P. apply Permutation_sym, array_sort_Permutation.
  - intros x Hx.
    assert (Hl : In x l) by (now apply Permutation_in with (l := out)).
    rewrite (F x Hl). symmetry. apply array_sort_stable_on.
    intros a b Ha Hb. apply ties_pairwise_on; auto.
Qed.

End ArraySortCharacterizedOn.

Section ComparableSort.

Context {host : Host}.

(** On rows whose sort values compare, the reference is in comparator
    order, and it is the only stable sort of the rows. *)
Lemma comparable_sorted (k : SortKey) (d : Direction) (rows : list Row) :
  comparable k rows ->
  StronglySorted (fun a b => (comparator k d a b <= 0)%Z)
                 (array_sort (comparator k d) rows).
Proof.
  intros [H|H].
  - apply array_sort_ordered_on
      with (good := fun r => exists s, sort_value k r = VStr s).
    + intros a b _ _ Hab. apply comparator_swap in Hab. lia.
    + apply comparator_trans_strings.
    + now apply Forall_forall.
  - apply array_sort_ordered_on
      with (good := fun r => compares_as_number (sort_value k r)).
    + intros a b _ _ Hab. apply comparator_swap in Hab. lia.
    + apply comparator_trans_numbers.
    + now apply Forall_forall.
Qed.

Lemma comparable_unique (k : SortKey) (d : Direction) (rows out : list Row) :
  comparable k rows ->
  Permutation out rows ->
  StronglySorted (fun a b => (comparator k d a b <= 0)%Z) out ->
  (forall x, In x rows ->
             filter (ties (comparator k d) x) out =
             filter (ties (comparator k d) x) rows) ->
  out = array_sort (comparator k d) rows.
Proof.
  intros [H|H] P S F.
  - apply array_sort_characterized_on
      with (good := fun r => exists s, sort_value k r = VStr s); auto.
    + apply comparator_refl.
    + apply comparator_swap.
    + apply comparator_trans_strings.
    + now apply Forall_forall.
  - apply array_sort_characterized_on
      with (good := fun r => compares_as_number (sort_value k r)); auto.
    + apply comparator_refl.
    + apply comparator_swap.
    + apply comparator_trans_numbers.
    + now apply Forall_forall.
Qed.

End ComparableSort.

(** Rows whose time values are equal numbers tie under the chronological
    key. *)
Lemma equal_times_tie {host : Host} (d : Direction) (t : float) (a b : Row) :
  (instant_of (UNIX_TIME a) =? t)%float = true ->
  (instant_of (UNIX_TIME b) =? t)%float = true ->
  comparator K_date d a b = 0%Z.
Proof.
  intros Ha Hb.
  pose proof (equal_numbers_tie Ha Hb) as Hab.
  pose proof (equal_numbers_tie Hb Ha) as Hba.
  destruct (leb_not_nan (proj1 (eqb_leb Ha))) as [Ha' _].
  destruct (leb_not_nan (proj1 (eqb_leb Hb))) as [Hb' _].
  unfold comparator, js_lt, js_gt. simpl. rewrite Ha', Hb'. simpl.
  rewrite Hab, Hba. reflexivity.
Qed.

(** C2, as the code has it.  With the chronological key the rows are
    ordered by the time values computed from their UNIX_TIME column,
    compared as numbers.  The display date is not read: rows whose display
    dates are replaced by any other strings move the same way.  When the
    time values are numbers, the output holds the rows of the input in
    ascending (or descending) order of time value, rows with equal time
    values in the order they came in.  Where the host parses the display
    date of every row back to its time value, this is the order of the
    parsed display dates.  It is not the order of the display dates as
    strings: "9/13/2020, 10:00:00 AM" is below "9/13/2020, 9:00:00 AM", and
    the reading of 9 AM comes first. *)
Theorem C2_date_sort_uses_unix_time :
  forall (host : Host) (d : Direction) (rows : list Row),
    let cfg := {| key := Some K_date; direction := d |} in
    let time := fun r : Row => instant_of (UNIX_TIME r) in
    (forall relabel : Row -> string,
        sorted_rows cfg (map (fun r => with_date (relabel r) r) rows) =
        map (fun r => with_date (relabel r) r) (sorted_rows cfg rows)) /\
    ((forall r, In r rows -> is_nan (time r) = false) ->
     StronglySorted
       (fun a b =>
          match d with
          | asc => (time a <=? time b)%float = true
          | desc => (time b <=? time a)%float = true
          end)
       (sorted_rows cfg rows) /\
     Permutation (sorted_rows cfg rows) rows /\
     forall t : float,
       filter (fun r => (time r =? t)%float) (sorted_rows cfg rows) =
       filter (fun r => (time r =? t)%float) rows) /\
    ((forall r, In r rows -> Date_parse (date r) = time r) ->
     sorted_rows cfg rows = array_sort (by_parsed_date d) rows) /\
    (String.ltb "9/13/2020, 10:00:00 AM" "9/13/2020, 9:00:00 AM" = true /\
     map (@date)
         (@sorted_rows reference_host
            {| key := Some K_date; direction := asc |}
            (map (@normalize reference_host) Samples.ten_then_nine)) =
     ["9/13/2020, 9:00:00 AM"; "9/13/2020, 10:00:00 AM"]).
Proof.
  intros host d rows cfg time. unfold cfg, sorted_rows. simpl.
  split; [|split; [|split]].
  - intros relabel. apply array_sort_map. intros a b. reflexivity.
  - intros Hnum.
    assert (Hvalues : forall r, In r rows -> numeric_sort_value K_date r).
    { intros r Hr. exists (time r). split; [reflexivity|now apply Hnum]. }
    split; [|split].
    + apply StronglySorted_weaken
        with (R := fun a b => (comparator K_date d a b <= 0)%Z).
      * intros a b Ha Hb. apply array_sort_In in Ha, Hb.
        apply (comparator_numbers K_date d a b (n := time a) (m := time b));
          auto; reflexivity.
      * now apply sorted_numbers_ordered.
    + apply array_sort_Permutation.
    + intros t. apply array_sort_stable. intros a b. apply equal_times_tie.
  - intros Hparse. apply array_sort_ext_In.
    intros a b Ha Hb. unfold by_parsed_date.
    rewrite (Hparse a Ha), (Hparse b Hb). reflexivity.
  - split; vm_compute; reflexivity.
Qed.

Section DateTies.

Context {host : Host}.

Lemma compare_values_same (d : Direction) (v : value) :
  compare_values d v v = 0%Z.
Proof.
  unfold compare_values, js_lt, js_gt.
  pose proof (IsLessThan_irrefl v) as H.
  destruct (IsLessThan v v) as [[|]|]; congruence.
Qed.

(** Two readings that print the same date although the second was taken
    before the first: the code moves the second one to the front, the order
    of the parsed dates leaves them as they came. *)
Lemma same_date_readings_are_reordered (r1 r2 : RawRow) :
  display_date (UNIX_TIME r1) = display_date (UNIX_TIME r2) ->
  (instant_of (UNIX_TIME r2) <? instant_of (UNIX_TIME r1))%float = true ->
  sorted_rows {| key := Some K_date; direction := asc |}
    [normalize r1; normalize r2] = [normalize r2; normalize r1] /\
  array_sort (by_parsed_date asc) [normalize r1; normalize r2] =
    [normalize r1; normalize r2].
Proof.
  intros Hdate Hlt.
  destruct (ltb_not_nan Hlt) as [Hn2 Hn1].
  split.
  - assert (E : (instant_of (UNIX_TIME r1) <? instant_of (UNIX_TIME r2))%float
                = false).
    { destruct (instant_of (UNIX_TIME r1) <? instant_of (UNIX_TIME r2))%float
        eqn:E; auto.
      apply ltb_leb in E. rewrite (ltb_not_leb Hlt) in E. discriminate. }
    unfold sorted_rows. simpl.
    unfold comparator, compare_values, js_lt, js_gt. simpl.
    rewrite Hn1, Hn2. simpl. rewrite Hlt, E. reflexivity.
  - simpl. unfold by_parsed_date. simpl. rewrite Hdate.
    rewrite compare_values_same. reflexivity.
Qed.

(** Where the host parses every display date back to the instant it was
    printed from, the two orders are the same. *)
Lemma date_sort_when_dates_round_trip (d : Direction) (rows : list Row) :
  (forall r, In r rows -> Date_parse (date r) = instant_of (UNIX_TIME r)) ->
  sorted_rows {| key := Some K_date; direction := d |} rows =
  array_sort (by_parsed_date d) rows.
Proof.
  intros H. unfold sorted_rows. simpl. apply array_sort_ext_In.
  intros a b Ha Hb. unfold by_parsed_date. rewrite (H a Ha), (H b Hb).
  reflexivity.
Qed.

End DateTies.

(** C2, as the specification words it, fails.  In London, in the night the
    clocks go back, the readings of 00:30 UTC and 01:30 UTC both print
    "10/25/2020, 1:30:00 AM".  Given the later one first, the code puts the
    earlier one first; the order of the parsed display dates is a tie that
    leaves them as they came. *)
Lemma C2_counterexample :
  map (@date)
      (map (@normalize london_host)
           [Samples.after_clock_change; Samples.before_clock_change]) =
  ["10/25/2020, 1:30:00 AM"; "10/25/2020, 1:30:00 AM"] /\
  @sorted_rows london_host {| key := Some K_date; direction := asc |}
    (map (@normalize london_host)
         [Samples.after_clock_change; Samples.before_clock_change]) =
  map (@normalize london_host)
      [Samples.before_clock_change; Samples.after_clock_change] /\
  array_sort (@by_parsed_date london_host asc)
    (map (@normalize london_host)
         [Samples.after_clock_change; Samples.before_clock_change]) =
  map (@normalize london_host)
      [Samples.after_clock_change; Samples.before_clock_change] /\
  @sorted_rows london_host {| key := Some K_date; direction := asc |}
    (map (@normalize london_host)
         [Samples.after_clock_change; Samples.before_clock_change]) <>
  array_sort (@by_parsed_date london_host asc)
    (map (@normalize london_host)
         [Samples.after_clock_change; Samples.before_clock_change]).
Proof.
  split; [vm_compute; reflexivity|].
  split; [vm_compute; reflexivity|].
  split; [vm_compute; reflexivity|].
  intros H.
  apply (f_equal (map (fun r : Row =>
                         @js_lt london_host (POSITION_YARDS r) (VNum 110))))
    in H.
  vm_compute in H. discriminate.
Qed.

(** The same happens in UTC for two readings taken within one second: the
    display date has no fraction of a second. *)
Lemma same_second_readings_are_reordered :
  map (@date)
      (map (@normalize reference_host)
           [Samples.later_reading; Samples.earlier_reading]) =
  ["9/13/2020, 12:26:40 PM"; "9/13/2020, 12:26:40 PM"] /\
  @sorted_rows reference_host {| key := Some K_date; direction := asc |}
    (map (@normalize reference_host)
         [Samples.later_reading; Samples.earlier_reading]) =
  map (@normalize reference_host)
      [Samples.earlier_reading; Samples.later_reading] /\
  array_sort (@by_parsed_date reference_host asc)
    (map (@normalize reference_host)
         [Samples.later_reading; Samples.earlier_reading]) =
  map (@normalize reference_host)
      [Samples.later_reading; Samples.earlier_reading].
Proof. repeat split; vm_compute; reflexivity. Qed.

(** *** The store *)

Lemma assign_length (h : Store) (r : ref) (l : list Row) :
  List.length (assign h r l) = List.length h.
Proof.
  revert r. induction h as [|c h IH]; intros [|r]; simpl; auto.
Qed.

Lemma deref_assign_same (h : Store) (r : ref) (l : list Row) :
  (r < List.length h)%nat -> deref (assign h r l) r = l.
Proof.
  unfold deref. revert r.
  induction h as [|c h IH]; intros [|r] Hr; simpl in *; try lia; auto.
  apply IH. lia.
Qed.

Lemma deref_assign_other (h : Store) (r r' : ref) (l : list Row) :
  r' <> r -> deref (assign h r l) r' = deref h r'.
Proof.
  unfold deref. revert r r'.
  induction h as [|c h IH]; intros [|r] [|r'] Hne; simpl; auto; try lia.
Qed.

Lemma deref_alloc_old (h : Store) (l : list Row) (r : ref) :
  (r < List.length h)%nat -> deref (fst (alloc h l)) r = deref h r.
Proof. intros Hr. unfold deref, alloc. simpl. now apply app_nth1. Qed.

Lemma deref_alloc_new (h : Store) (l : list Row) :
  deref (fst (alloc h l)) (snd (alloc h l)) = l.
Proof.
  unfold deref, alloc. simpl. rewrite app_nth2 by lia.
  rewrite Nat.sub_diag. reflexivity.
Qed.

Section GetSortedDataFacts.

Context {host : Host}.

(** The array [getSortedData] returns holds [sorted_rows] of the argument,
    and every array that existed before the call holds what it held. *)
Lemma getSortedData_spec (cfg : SortConfig) (h : Store) (dataToSort : ref) :
  (dataToSort < List.length h)%nat ->
  deref (fst (getSortedData cfg h dataToSort))
        (snd (getSortedData cfg h dataToSort)) =
  sorted_rows cfg (deref h dataToSort) /\
  forall r, (r < List.length h)%nat ->
            deref (fst (getSortedData cfg h dataToSort)) r = deref h r.
Proof.
  intros Hr. unfold getSortedData, sorted_rows.
  destruct (key cfg) as [k|]; simpl; [|auto].
  assert (Hnew : deref (h ++ [deref h dataToSort]) (List.length h)
                 = deref h dataToSort).
  { apply (deref_alloc_new h (deref h dataToSort)). }
  split.
  - rewrite deref_assign_same by (rewrite length_app; simpl; lia).
    rewrite Hnew. reflexivity.
  - intros r Hlt. rewrite deref_assign_other by lia.
    apply (deref_alloc_old h (deref h dataToSort) Hlt).
Qed.

End GetSortedDataFacts.

(** C7. With a sort key set, in either direction, and rows whose sort
    values compare with one another (all of them strings, or all of them
    values that convert to numbers), rows that tie under the comparator (as
    rows with equal sort values do) come out in the order they came in: for
    any selection of rows that tie pairwise, the selected rows of the
    output are the selected rows of the input, in the same order.  On such
    rows the engine has no choice: a list that holds the rows, is in
    comparator order and keeps ties in input order is the list returned.
    The call sorts a fresh copy: every array of the store that existed
    before the call, the argument among them, is unchanged. *)
Theorem C7_stable_sort_without_mutation :
  forall (host : Host) (k : SortKey) (d : Direction)
         (tied : Row -> bool) (h : Store) (dataToSort : ref),
    (dataToSort < List.length h)%nat ->
    comparable k (deref h dataToSort) ->
    (forall a b, tied a = true -> tied b = true -> comparator k d a b = 0%Z) ->
    let cfg := {| key := Some k; direction := d |} in
    let h' := fst (getSortedData cfg h dataToSort) in
    let out := snd (getSortedData cfg h dataToSort) in
    (forall a b, sort_value k a = sort_value k b -> comparator k d a b = 0%Z) /\
    deref h' out = sorted_rows cfg (deref h dataToSort) /\
    filter tied (deref h' out) = filter tied (deref h dataToSort) /\
    StronglySorted (fun a b => (comparator k d a b <= 0)%Z) (deref h' out) /\
    (forall result : list Row,
        Permutation result (deref h dataToSort) ->
        StronglySorted (fun a b => (comparator k d a b <= 0)%Z) result ->
        (forall x, In x (deref h dataToSort) ->
                   filter (ties (comparator k d) x) result =
                   filter (ties (comparator k d) x) (deref h dataToSort)) ->
        result = deref h' out) /\
    out <> dataToSort /\
    (forall r, (r < List.length h)%nat -> deref h' r = deref h r).
Proof.
  intros host k d tied h dataToSort Hr Hcmp Htie cfg h' out.
  destruct (getSortedData_spec cfg h Hr) as [Hout Hold].
  fold h' out in Hout.
  split; [intros a b; apply equal_sort_values_tie|].
  split; [exact Hout|].
  rewrite Hout. unfold cfg, sorted_rows. simpl.
  split; [apply array_sort_stable; exact Htie|].
  split; [now apply comparable_sorted|].
  split; [intros result P S F; now apply comparable_unique|].
  split; [|exact Hold].
  unfold out, cfg, getSortedData. simpl. lia.
Qed.

(** C7, as the specification words it, fails: with a key that has cells
    which do not compare, the order is left to the engine, and V8 moves a
    row past an equal one.  Seven readings sorted by POSITION_YARDS,
    ascending; the first and the fourth have a text for a position, which
    compares with no number.  V8 returns the readings 1, 6, 2, 7, 3, 4, 5:
    the readings 5 and 7, both at 2 yards, have changed places. *)
Lemma C7_counterexample :
  let rows := map (@normalize reference_host) Samples.seven_positions in
  let cfg := {| key := Some K_POSITION_YARDS; direction := asc |} in
  let at_two_yards := fun r : Row =>
    @js_ge reference_host (POSITION_YARDS r) (VNum 2)
    && @js_le reference_host (POSITION_YARDS r) (VNum 2) in
  option_map (map (fun r : Row => RECORDING_ID r))
             (@sorted_rows_v8 reference_host cfg rows) =
    Some [VNum 1; VNum 6; VNum 2; VNum 7; VNum 3; VNum 4; VNum 5] /\
  map (fun r : Row =>
         (RECORDING_ID r, @sort_value reference_host K_POSITION_YARDS r))
      (filter at_two_yards rows) =
    [(VNum 5, VNum 2); (VNum 7, VNum 2)] /\
  option_map (fun out => map (fun r : Row => RECORDING_ID r)
                             (filter at_two_yards out))
             (@sorted_rows_v8 reference_host cfg rows) =
    Some [VNum 7; VNum 5] /\
  option_map (filter at_two_yards) (@sorted_rows_v8 reference_host cfg rows)
    <> Some (filter at_two_yards rows).
Proof.
  intros rows cfg at_two_yards.
  split; [vm_compute; reflexivity|].
  split; [vm_compute; reflexivity|].
  split; [vm_compute; reflexivity|].
  intros H.
  apply (f_equal (option_map (map (fun r : Row =>
           @js_lt reference_host (RECORDING_ID r) (VNum 6))))) in H.
  vm_compute in H. discriminate.
Qed.

(** Whatever the comparator, V8 returns the elements it was given. *)
Lemma insert_pivot_Permutation {A : Type} (f : A -> A -> Z) (work : list A)
      (pivot : A) :
  Permutation (insert_pivot f work pivot) (pivot :: work).
Proof.
  unfold insert_pivot.
  set (left := insertion_point f _ _ _ _ _).
  transitivity (pivot :: firstn left work ++ skipn left work).
  - symmetry. apply Permutation_middle.
  - now rewrite firstn_skipn.
Qed.

Lemma fold_insert_pivot_Permutation {A : Type} (f : A -> A -> Z)
      (rest : list A) :
  forall run, Permutation (fold_left (insert_pivot f) rest run) (run ++ rest).
Proof.
  induction rest as [|x rest IH]; intros run; simpl.
  - now rewrite app_nil_r.
  - rewrite IH, insert_pivot_Permutation. apply Permutation_middle.
Qed.

Lemma CountAndMakeRun_Permutation {A : Type} (f : A -> A -> Z) (l : list A) :
  Permutation (fst (CountAndMakeRun f l) ++ snd (CountAndMakeRun f l)) l.
Proof.
  destruct l as [|x [|y l]]; try reflexivity.
  unfold CountAndMakeRun. cbv zeta.
  set (n := (2 + run_continues f (f y x <? 0)%Z y l)%nat).
  cbn [fst snd].
  transitivity (firstn n (x :: y :: l) ++ skipn n (x :: y :: l)).
  - apply Permutation_app_tail.
    destruct (f y x <? 0)%Z; [symmetry; apply Permutation_rev|reflexivity].
  - now rewrite firstn_skipn.
Qed.

Lemma v8_sort_Permutation {A : Type} (f : A -> A -> Z) (l out : list A) :
  v8_sort f l = Some out -> Permutation out l.
Proof.
  unfold v8_sort. destruct (List.length l <? 64)%nat; [|discriminate].
  pose proof (CountAndMakeRun_Permutation f l) as P.
  destruct (CountAndMakeRun f l) as [run rest]. simpl in P.
  intros H. injection H as <-.
  now rewrite fold_insert_pivot_Permutation.
Qed.

(** On rows whose sort values compare, V8 returns what the reference
    returns; here for the four readings sorted by temperature, descending,
    where the two readings at 60 degrees tie. *)
Lemma v8_sort_four_scores :
  let rows := map (@normalize reference_host) Samples.four_scores in
  let cfg := {| key := Some K_SCORE; direction := desc |} in
  @sorted_rows_v8 reference_host cfg rows =
  Some (@sorted_rows reference_host cfg rows).
Proof. vm_compute. reflexivity. Qed.

(** ** Bounds calculator *)

Lemma is_zero_not_nan (x : float) : is_zero x = true -> is_nan x = false.
Proof.
  unfold is_zero. rewrite FloatAxioms.eqb_spec. unfold SFeqb. intros H.
  destruct (is_nan x) eqn:E; auto.
  apply is_nan_Prim2SF in E. rewrite E in H. discriminate.
Qed.

Lemma is_zero_Prim2SF (x : float) :
  is_zero x = true -> Prim2SF x = S754_zero (get_sign x).
Proof.
  intros H. unfold Prim2SF. rewrite (@is_zero_not_nan x H), H. reflexivity.
Qed.

Lemma is_neg_zero_eq (x : float) : is_neg_zero x = true -> x = neg_zero.
Proof.
  unfold is_neg_zero. intros H. apply andb_true_iff in H. destruct H as [Hz Hs].
  apply Prim2SF_inj. rewrite (@is_zero_Prim2SF x Hz), Hs. reflexivity.
Qed.

Lemma is_pos_zero_eq (x : float) : is_pos_zero x = true -> x = 0%float.
Proof.
  unfold is_pos_zero. intros H. apply andb_true_iff in H. destruct H as [Hz Hs].
  apply negb_true_iff in Hs.
  apply Prim2SF_inj. rewrite (@is_zero_Prim2SF x Hz), Hs. reflexivity.
Qed.

Lemma infinity_leb (x : float) :
  (infinity <=? x)%float = true -> x = infinity.
Proof.
  rewrite FloatAxioms.leb_spec. intros H. apply Prim2SF_inj.
  change (Prim2SF infinity) with (S754_infinity false) in *.
  destruct (Prim2SF x) as [s|[|]| |s m e]; try discriminate; reflexivity.
Qed.

Lemma leb_neg_infinity (x : float) :
  (x <=? neg_infinity)%float = true -> x = neg_infinity.
Proof.
  rewrite FloatAxioms.leb_spec. intros H. apply Prim2SF_inj.
  change (Prim2SF neg_infinity) with (S754_infinity true) in *.
  destruct (Prim2SF x) as [s|[|]| |[|] m e]; try discriminate; reflexivity.
Qed.

(** One round of the loop of [Math.min]. *)
Lemma min_step (lowest number : float) :
  is_nan lowest = false -> is_nan number = false ->
  let lowest1 :=
    if is_neg_zero number && is_pos_zero lowest then neg_zero else lowest in
  let lowest2 := if (number <? lowest1)%float then number else lowest1 in
  is_nan lowest2 = false /\
  (lowest2 = lowest \/ lowest2 = number) /\
  (lowest2 <=? lowest)%float = true /\
  (lowest2 <=? number)%float = true.
Proof.
  intros Hl Hn lowest1 lowest2.
  assert (H1 : is_nan lowest1 = false /\
               (lowest1 = lowest \/ lowest1 = number) /\
               (lowest1 <=? lowest)%float = true).
  { unfold lowest1.
    destruct (is_neg_zero number && is_pos_zero lowest) eqn:E.
    - apply andb_true_iff in E. destruct E as [En Ep].
      apply is_neg_zero_eq in En. apply is_pos_zero_eq in Ep. subst.
      repeat split; auto.
    - repeat split; auto. now apply leb_refl. }
  destruct H1 as (Hnan1 & Hin1 & Hle1).
  unfold lowest2. destruct (number <? lowest1)%float eqn:E.
  - repeat split; auto.
    + apply leb_trans with (y := lowest1); auto. now apply ltb_leb.
    + now apply leb_refl.
  - repeat split; auto. now apply not_ltb_leb.
Qed.

(** One round of the loop of [Math.max]. *)
Lemma max_step (highest number : float) :
  is_nan highest = false -> is_nan number = false ->
  let highest1 :=
    if is_pos_zero number && is_neg_zero highest then 0%float else highest in
  let highest2 := if (highest1 <? number)%float then number else highest1 in
  is_nan highest2 = false /\
  (highest2 = highest \/ highest2 = number) /\
  (highest <=? highest2)%float = true /\
  (number <=? highest2)%float = true.
Proof.
  intros Hl Hn highest1 highest2.
  assert (H1 : is_nan highest1 = false /\
               (highest1 = highest \/ highest1 = number) /\
               (highest <=? highest1)%float = true).
  { unfold highest1.
    destruct (is_pos_zero number && is_neg_zero highest) eqn:E.
    - apply andb_true_iff in E. destruct E as [Ep En].
      apply is_neg_zero_eq in En. apply is_pos_zero_eq in Ep. subst.
      repeat split; auto.
    - repeat split; auto. now apply leb_refl. }
  destruct H1 as (Hnan1 & Hin1 & Hle1).
  unfold highest2. destruct (highest1 <? number)%float eqn:E.
  - repeat split; auto.
    + apply leb_trans with (y := highest1); auto. now apply ltb_leb.
    + now apply leb_refl.
  - repeat split; auto. now apply not_ltb_leb.
Qed.

Lemma min_loop_least (l : list float) :
  forall lowest,
    is_nan lowest = false ->
    (forall x, In x l -> is_nan x = false) ->
    (min_loop lowest l = lowest \/ In (min_loop lowest l) l) /\
    (min_loop lowest l <=? lowest)%float = true /\
    (forall x, In x l -> (min_loop lowest l <=? x)%float = true).
Proof.
  induction l as [|number rest IH]; intros lowest Hl Hall.
  - simpl. repeat split; auto; try (now apply leb_refl); intros x [].
  - simpl min_loop. rewrite (Hall number) by (left; reflexivity).
    destruct (@min_step lowest number Hl (Hall number (or_introl eq_refl)))
      as (Hnan & Hin & Hlow & Hnum).
    cbv zeta in Hnan, Hin, Hlow, Hnum.
    set (lowest2 := if (number <? _)%float then number else _) in *.
    destruct (IH lowest2 Hnan (fun x Hx => Hall x (or_intror Hx)))
      as (Hm & Hle & Hrest).
    repeat split.
    + destruct Hm as [Hm|Hm]; [|right; right; exact Hm].
      rewrite Hm. destruct Hin as [->| ->]; [left|right; left]; reflexivity.
    + apply leb_trans with (y := lowest2); auto.
    + intros x [<-|Hx]; [|now apply Hrest].
      apply leb_trans with (y := lowest2); auto.
Qed.

Lemma max_loop_greatest (l : list float) :
  forall highest,
    is_nan highest = false ->
    (forall x, In x l -> is_nan x = false) ->
    (max_loop highest l = highest \/ In (max_loop highest l) l) /\
    (highest <=? max_loop highest l)%float = true /\
    (forall x, In x l -> (x <=? max_loop highest l)%float = true).
Proof.
  induction l as [|number rest IH]; intros highest Hl Hall.
  - simpl. repeat split; auto; try (now apply leb_refl); intros x [].
  - simpl max_loop. rewrite (Hall number) by (left; reflexivity).
    destruct (@max_step highest number Hl (Hall number (or_introl eq_refl)))
      as (Hnan & Hin & Hlow & Hnum).
    cbv zeta in Hnan, Hin, Hlow, Hnum.
    set (highest2 := if (_ <? number)%float then number else _) in *.
    destruct (IH highest2 Hnan (fun x Hx => Hall x (or_intror Hx)))
      as (Hm & Hle & Hrest).
    repeat split.
    + destruct Hm as [Hm|Hm]; [|right; right; exact Hm].
      rewrite Hm. destruct Hin as [->| ->]; [left|right; left]; reflexivity.
    + apply leb_trans with (y := highest2); auto.
    + intros x [<-|Hx]; [|now apply Hrest].
      apply leb_trans with (y := highest2); auto.
Qed.

(** Over a non-empty list of numbers none of which is NaN, [Math.min]
    returns the least element and [Math.max] the greatest. *)
Lemma min_loop_is_least (l : list float) :
  l <> [] -> (forall x, In x l -> is_nan x = false) ->
  is_least (min_loop infinity l) l.
Proof.
  intros Hne Hall.
  destruct (@min_loop_least l infinity eq_refl Hall) as (Hm & _ & Hle).
  split; auto. destruct Hm as [Hm|Hm]; auto.
  destruct l as [|x l]; [congruence|].
  pose proof (Hle x (or_introl eq_refl)) as Hx.
  rewrite Hm in Hx. apply infinity_leb in Hx. rewrite Hm, <- Hx. now left.
Qed.

Lemma max_loop_is_greatest (l : list float) :
  l <> [] -> (forall x, In x l -> is_nan x = false) ->
  is_greatest (max_loop neg_infinity l) l.
Proof.
  intros Hne Hall.
  destruct (@max_loop_greatest l neg_infinity eq_refl Hall) as (Hm & _ & Hle).
  split; auto. destruct Hm as [Hm|Hm]; auto.
  destruct l as [|x l]; [congruence|].
  pose proof (Hle x (or_introl eq_refl)) as Hx.
  rewrite Hm in Hx. apply leb_neg_infinity in Hx. rewrite Hm, <- Hx. now left.
Qed.

Section FramingFacts.

Context {host : Host}.

Lemma latitudes_of_normalized (results : list RawRow) :
  map ToNumber (map (fun d : Row => LATITUDE d) (map normalize results)) =
  map (fun r => ToNumber (LATITUDE r)) results.
Proof. rewrite !map_map. reflexivity. Qed.

Lemma longitudes_of_normalized (results : list RawRow) :
  map ToNumber (map (fun d : Row => LONGITUDE d) (map normalize results)) =
  map (fun r => ToNumber (LONGITUDE r)) results.
Proof. rewrite !map_map. reflexivity. Qed.

(** [L.latLngBounds] on corners that are numbers, and on a corner with a
    NaN. *)
Lemma L_latLngBounds_numbers (sw ne : float * float) :
  is_nan (fst sw) = false -> is_nan (snd sw) = false ->
  is_nan (fst ne) = false -> is_nan (snd ne) = false ->
  L_latLngBounds sw ne = Ok (latLngBounds sw ne).
Proof.
  unfold L_latLngBounds. intros -> -> -> ->. reflexivity.
Qed.

Lemma L_latLngBounds_Ok (sw ne : float * float) (b : LatLngBounds) :
  L_latLngBounds sw ne = Ok b ->
  b = latLngBounds sw ne /\
  is_nan (fst sw) = false /\ is_nan (snd sw) = false /\
  is_nan (fst ne) = false /\ is_nan (snd ne) = false.
Proof.
  unfold L_latLngBounds.
  destruct (is_nan (fst sw)), (is_nan (snd sw)),
           (is_nan (fst ne)), (is_nan (snd ne)); simpl;
    intros H; try discriminate.
  injection H as <-. auto.
Qed.

Lemma L_latLngBounds_nan (sw ne : float * float) :
  is_nan (fst sw) = true \/ is_nan (snd sw) = true ->
  L_latLngBounds sw ne = Throw InvalidLatLng.
Proof.
  unfold L_latLngBounds. intros [-> | ->]; simpl;
    rewrite ?orb_true_r; reflexivity.
Qed.

(** What the [complete] callback stores for a non-empty result. *)
Lemma on_complete_nonempty (results : list RawRow) (st : State) :
  results <> [] ->
  let lats := map (fun r => ToNumber (LATITUDE r)) results in
  let lngs := map (fun r => ToNumber (LONGITUDE r)) results in
  let st' := on_complete results st in
  data st' = map normalize results /\
  filteredData st' = map normalize results /\
  mapCenter st' =
    ((min_loop infinity lats + max_loop neg_infinity lats) / 2,
     (min_loop infinity lngs + max_loop neg_infinity lngs) / 2)%float /\
  match L_latLngBounds
          (min_loop infinity lats, min_loop infinity lngs)
          (max_loop neg_infinity lats, max_loop neg_infinity lngs) with
  | Ok bounds =>
      mapBounds st' = Some bounds /\ snd (complete results st) = Ok tt
  | Throw e =>
      mapBounds st' = mapBounds st /\ snd (complete results st) = Throw e
  end.
Proof.
  intros Hne lats lngs st'. unfold st', on_complete, complete.
  destruct results as [|r results]; [congruence|].
  change (0 <? List.length (r :: results))%nat with true.
  change (0 <? List.length (map normalize (r :: results)))%nat with true.
  cbv iota. unfold Math_min, Math_max.
  rewrite !latitudes_of_normalized, !longitudes_of_normalized.
  fold lats lngs.
  destruct (L_latLngBounds
              (min_loop infinity lats, min_loop infinity lngs)
              (max_loop neg_infinity lats, max_loop neg_infinity lngs));
    repeat split; reflexivity.
Qed.

End FramingFacts.

(** C6. For a non-empty result whose coordinates all convert to numbers,
    the callback completes, the map center is the midpoint of the least
    and the greatest latitude and of the least and the greatest longitude,
    and the bounds run from (least latitude, least longitude) to (greatest
    latitude, greatest longitude); latitudes 10, 20, 30 with longitudes
    -5, 0, 5 give center (20, 0) and bounds ((10, -5), (30, 5)).  For an
    empty result the state is left as it was: the bounds stay [null] and
    no map is rendered. *)
Theorem C6_map_framing :
  forall (host : Host) (results : list RawRow) (st : State),
    (results <> [] ->
     (forall r, In r results ->
                is_nan (ToNumber (LATITUDE r)) = false /\
                is_nan (ToNumber (LONGITUDE r)) = false) ->
     let lats := map (fun r => ToNumber (LATITUDE r)) results in
     let lngs := map (fun r => ToNumber (LONGITUDE r)) results in
     let st' := on_complete results st in
     exists minLat maxLat minLng maxLng : float,
       is_least minLat lats /\ is_greatest maxLat lats /\
       is_least minLng lngs /\ is_greatest maxLng lngs /\
       snd (complete results st) = Ok tt /\
       mapCenter st' =
         ((minLat + maxLat) / 2, (minLng + maxLng) / 2)%float /\
       mapBounds st' =
         Some (latLngBounds (minLat, minLng) (maxLat, maxLng)) /\
       map_view st' =
         Some (((minLat + maxLat) / 2, (minLng + maxLng) / 2)%float,
               latLngBounds (minLat, minLng) (maxLat, maxLng))) /\
    (mapCenter (on_complete Samples.three_points st) = (20, 0)%float /\
     mapBounds (on_complete Samples.three_points st) =
       Some (latLngBounds (10, -5)%float (30, 5)%float)) /\
    (on_complete [] st = st /\
     mapBounds initial_state = None /\
     mapBounds (on_complete [] initial_state) = None /\
     map_view (on_complete [] initial_state) = None).
Proof.
  intros host results st. split; [|split].
  - intros Hne Hnum lats lngs st'.
    destruct (@on_complete_nonempty host results st Hne) as (_ & _ & Hc & Hb).
    fold lats lngs st' in Hc, Hb.
    assert (Hlat : forall x, In x lats -> is_nan x = false).
    { intros x Hx. apply in_map_iff in Hx. destruct Hx as (r & <- & Hr).
      now apply Hnum. }
    assert (Hlng : forall x, In x lngs -> is_nan x = false).
    { intros x Hx. apply in_map_iff in Hx. destruct Hx as (r & <- & Hr).
      now apply Hnum. }
    assert (Hlats : lats <> []).
    { unfold lats. destruct results; [congruence|discriminate]. }
    assert (Hlngs : lngs <> []).
    { unfold lngs. destruct results; [congruence|discriminate]. }
    pose proof (min_loop_is_least Hlats Hlat) as Hmin1.
    pose proof (max_loop_is_greatest Hlats Hlat) as Hmax1.
    pose proof (min_loop_is_least Hlngs Hlng) as Hmin2.
    pose proof (max_loop_is_greatest Hlngs Hlng) as Hmax2.
    rewrite L_latLngBounds_numbers in Hb;
      try (apply Hlat; apply Hmin1 || apply Hmax1);
      try (apply Hlng; apply Hmin2 || apply Hmax2).
    destruct Hb as [Hb Hok].
    exists (min_loop infinity lats), (max_loop neg_infinity lats),
           (min_loop infinity lngs), (max_loop neg_infinity lngs).
    split; [exact Hmin1|]. split; [exact Hmax1|].
    split; [exact Hmin2|]. split; [exact Hmax2|].
    split; [exact Hok|].
    split; [exact Hc|]. split; [exact Hb|].
    unfold map_view. rewrite Hb, Hc. reflexivity.
  - split; reflexivity.
  - repeat split; reflexivity.
Qed.

(** C6, as the specification words it, fails: it promises the bounds for
    every non-empty sequence.  Of two readings, one has the text "n/a" in
    its LATITUDE cell, which converts to NaN; [Math.min] and [Math.max]
    then return NaN, [L.latLngBounds] throws, and the bounds stay [null]:
    there are two rows, a center without a latitude, no bounds, and no
    map. *)
Lemma C6_counterexample :
  let results :=
    [Samples.later_reading; Samples.reading_with_text_latitude] in
  let st' := @on_complete reference_host results initial_state in
  List.length (data st') = 2%nat /\
  snd (@complete reference_host results initial_state) =
    Throw InvalidLatLng /\
  is_nan (fst (mapCenter st')) = true /\
  mapBounds st' = None /\
  map_view st' = None.
Proof. repeat split; vm_compute; reflexivity. Qed.

(** ** Search *)

Lemma lower_char_idem (c : ascii) : lower_char (lower_char c) = lower_char c.
Proof.
  destruct c as [[] [] [] [] [] [] [] []]; reflexivity.
Qed.

Lemma toLowerCase_idem (s : string) :
  toLowerCase (toLowerCase s) = toLowerCase s.
Proof.
  induction s as [|c s IH]; simpl; [reflexivity|].
  rewrite lower_char_idem, IH. reflexivity.
Qed.

Lemma prefix_toLowerCase (t s : string) :
  String.prefix t s = true ->
  String.prefix (toLowerCase t) (toLowerCase s) = true.
Proof.
  revert t. induction s as [|b s IH]; intros [|a t]; simpl; auto.
  destruct (ascii_dec a b) as [->|]; [|discriminate].
  intros H. destruct (ascii_dec (lower_char b) (lower_char b)); [|congruence].
  now apply IH.
Qed.

(** Lowering both strings keeps an occurrence. *)
Lemma includes_toLowerCase (s t : string) :
  includes s t = true -> includes (toLowerCase s) (toLowerCase t) = true.
Proof.
  induction s as [|c s IH]; simpl; intros H.
  - apply orb_true_iff in H. destruct H as [H|H]; [|discriminate].
    apply (prefix_toLowerCase t EmptyString) in H. simpl in H.
    rewrite H. reflexivity.
  - apply orb_true_iff in H. destruct H as [H|H].
    + apply (prefix_toLowerCase t (String c s)) in H. simpl in H.
      rewrite H. reflexivity.
    + rewrite (IH H). apply orb_true_r.
Qed.

(** A callback that throws one kind of exception only: the filter throws
    it as soon as the callback throws on one element. *)
Lemma filterM_throws {A : Type} (p : A -> result bool) (l : list A) (x : A)
      (e : error) :
  (forall y e', p y = Throw e' -> e' = e) ->
  In x l -> p x = Throw e -> filterM p l = Throw e.
Proof.
  intros Hp.
  induction l as [|y l IH]; simpl; intros Hin Hx; [contradiction|].
  destruct (p y) as [b|e'] eqn:Ey; simpl.
  - destruct Hin as [->|Hin]; [congruence|].
    rewrite (IH Hin Hx). reflexivity.
  - now rewrite (Hp y e' Ey).
Qed.

Section SearchFacts.

Context {host : Host}.

(** A field the code finds the lowered term in is a field the
    specification's match finds the term in. *)
Lemma field_includes_contains (x : value) (term : string) :
  field_includes x (toLowerCase term) = Ok true ->
  field_contains x term = Ok true.
Proof.
  unfold field_includes, field_contains.
  destruct (toString x) as [s|e]; simpl; [|discriminate].
  intros H. injection H as H.
  apply includes_toLowerCase in H. rewrite toLowerCase_idem in H.
  rewrite H. reflexivity.
Qed.

Lemma field_includes_Ok (x : value) (term : string) (b : bool) :
  field_includes x (toLowerCase term) = Ok b ->
  exists b', field_contains x term = Ok b' /\ (b = true -> b' = true).
Proof.
  intros H. destruct b.
  - exists true. split; auto. now apply field_includes_contains.
  - unfold field_includes, field_contains in *.
    destruct (toString x) as [s|e]; simpl in *; [|discriminate].
    eexists. split; [reflexivity|discriminate].
Qed.

Lemma or_else_sound (a a' b b' : result bool) :
  (forall v, a = Ok v -> exists v', a' = Ok v' /\ (v = true -> v' = true)) ->
  (b = Ok true -> b' = Ok true) ->
  or_else a b = Ok true -> or_else a' b' = Ok true.
Proof.
  intros Ha Hb. unfold or_else.
  destruct a as [v|e]; simpl; [|discriminate].
  destruct (Ha v eq_refl) as (v' & -> & Hv). simpl.
  destruct v; [rewrite Hv by reflexivity; auto|].
  destruct v'; auto.
Qed.

(** Every row the code's search keeps matches in the specification's
    sense (for text of code units below 256, which [toLowerCase] lowers
    character by character). *)
Lemma search_matches_sound (term : string) (row : Row) :
  search_matches (toLowerCase term) row = Ok true ->
  spec_search_matches term row = Ok true.
Proof.
  unfold search_matches, spec_search_matches.
  apply or_else_sound.
  { intros v H. injection H as <-. unfold field_contains. simpl.
    eexists. split; [reflexivity|]. auto. }
  repeat (apply or_else_sound; [intros v; apply field_includes_Ok|]).
  apply field_includes_contains.
Qed.

(** The only exception of the search callback is the [TypeError] of
    [toString] on [null] or [undefined]. *)
Lemma field_includes_throws (x : value) (searchLower : string) (e : error) :
  field_includes x searchLower = Throw e -> e = TypeError.
Proof.
  unfold field_includes.
  destruct x as [ | |[]|n|s|tv]; simpl; intros H; congruence.
Qed.

Lemma or_else_throws (a b : result bool) (e : error) :
  (forall e', a = Throw e' -> e' = TypeError) ->
  (forall e', b = Throw e' -> e' = TypeError) ->
  or_else a b = Throw e -> e = TypeError.
Proof.
  intros Ha Hb. unfold or_else.
  destruct a as [[|]|e']; simpl; intros H;
    [discriminate|now apply Hb|injection H as <-; now apply Ha].
Qed.

Lemma search_matches_throws (searchLower : string) (row : Row) (e : error) :
  search_matches searchLower row = Throw e -> e = TypeError.
Proof.
  unfold search_matches.
  apply or_else_throws; [discriminate|].
  repeat (intros ?; apply or_else_throws;
          [intros ?; apply field_includes_throws|]).
  intros ?. apply field_includes_throws.
Qed.

(** The search filter throws as soon as one of the rows it reaches makes
    the callback throw. *)
Lemma filter_rows_throws (st : State) (row : Row) :
  truthy (searchTerm st) = true ->
  In row (before_search st) ->
  search_matches (toLowerCase (searchTerm st)) row = Throw TypeError ->
  filter_rows st = Throw TypeError.
Proof.
  intros Ht Hin Hrow. rewrite filter_rows_unfold, Ht.
  apply filterM_throws with (x := row); auto.
  intros y e'. apply search_matches_throws.
Qed.

Lemma field_includes_total (x : value) (searchLower : string) :
  has_toString x = true -> exists b, field_includes x searchLower = Ok b.
Proof.
  unfold field_includes.
  destruct x as [ | |[]|n|s|tv]; simpl; try discriminate; eauto.
Qed.

Lemma or_else_total (a b : result bool) :
  (exists v, a = Ok v) -> (exists v, b = Ok v) ->
  exists v, or_else a b = Ok v.
Proof.
  intros [va ->] [vb ->]. unfold or_else. simpl. destruct va; eauto.
Qed.

Lemma search_matches_total (searchLower : string) (row : Row) :
  stringifiable row = true ->
  exists b, search_matches searchLower row = Ok b.
Proof.
  unfold stringifiable. rewrite !andb_true_iff.
  intros ((((Hs & Hp) & Hla) & Hlo) & Hid).
  unfold search_matches.
  repeat (apply or_else_total; [eauto using field_includes_total|]).
  now apply field_includes_total.
Qed.

Lemma filterM_total {A : Type} (p : A -> result bool) (l : list A) :
  (forall x, In x l -> exists b, p x = Ok b) ->
  exists out, filterM p l = Ok out.
Proof.
  induction l as [|x l IH]; simpl; intros H; [eauto|].
  destruct (H x (or_introl eq_refl)) as [b ->].
  destruct IH as [kept ->]; [auto|]. simpl. eauto.
Qed.

(** The filter effect completes when every row that reaches the search has
    a string form for each of the five fields. *)
Lemma filter_rows_total (st : State) :
  (forall row, In row (before_search st) -> stringifiable row = true) ->
  exists out, filter_rows st = Ok out.
Proof.
  intros H. rewrite filter_rows_unfold.
  destruct (truthy (searchTerm st)); [|eauto].
  apply filterM_total. intros row Hrow. apply search_matches_total. auto.
Qed.

(** Without a search term no predicate can throw. *)
Lemma filter_rows_without_search (st : State) :
  searchTerm st = "" -> filter_rows st = Ok (before_search st).
Proof. intros H. rewrite filter_rows_unfold, H. reflexivity. Qed.

End SearchFacts.

(** C3, at a failing input.  One reading whose POSITION_YARDS cell is empty,
    the filter cells at their defaults, and the search term "x": the date
    and the score do not contain the term, the callback reaches
    [row.POSITION_YARDS.toString()] on [null], and the TypeError escapes the
    filter effect. *)
Lemma C3_search_throws_on_empty_cell :
  @in_temperature_range reference_host (VNum 40) (VNum 80)
    (@normalize reference_host Samples.reading_without_position) = true /\
  @filter_rows reference_host
    (set_searchTerm "x"
       (@on_complete reference_host [Samples.reading_without_position]
                     initial_state)) = Throw TypeError.
Proof. split; vm_compute; reflexivity. Qed.

(** C5, at a failing input.  The recording identifier "ABC123" contains the
    term "abc" when case is ignored, so the specification's match holds;
    the code lowers the term and the display date only, compares the
    identifier as it is, and keeps no row, whether the user types "abc" or
    "ABC". *)
Lemma C5_uppercase_field_is_not_found :
  @spec_search_matches reference_host "abc"
    (@normalize reference_host Samples.reading_with_text_id) = Ok true /\
  @search_matches reference_host (toLowerCase "abc")
    (@normalize reference_host Samples.reading_with_text_id) = Ok false /\
  @filter_rows reference_host
    (set_searchTerm "abc"
       (@on_complete reference_host [Samples.reading_with_text_id]
                     initial_state)) = Ok [] /\
  @filter_rows reference_host
    (set_searchTerm "ABC"
       (@on_complete reference_host [Samples.reading_with_text_id]
                     initial_state)) = Ok [].
Proof. repeat split; vm_compute; reflexivity. Qed.

(** ** Concrete runs *)

(** C4 on four readings, with the temperature bounds cleared. *)
Lemma C4_open_filter_identity_run :
  let st := set_temperatureRange (VStr "", VStr "")
              (@on_complete reference_host Samples.four_scores initial_state) in
  (dateFrom st = "" /\ dateTo st = "" /\ searchTerm st = "" /\
   selectedSeverity st = all /\ temperatureRange st = (VStr "", VStr "")) /\
  @filter_rows reference_host st = Ok (data st).
Proof.
  intros st.
  split; [repeat split; reflexivity|].
  exact (proj1 (@C4_open_filter_identity reference_host st
                  eq_refl eq_refl eq_refl eq_refl eq_refl)).
Defined.

(** C9 on four readings: the one at 35 degrees is filtered out by the
    default range. *)
Lemma C9_default_range_excludes_run :
  let base := map (@normalize reference_host) Samples.four_scores in
  let row := @normalize reference_host
               (Samples.reading 1600000000 51.5 (-0.1) 100 35 (VNum 1)) in
  (In row base /\
   (@js_lt reference_host (SCORE row) (VNum 40) = true \/
    @js_gt reference_host (SCORE row) (VNum 80) = true)) /\
  exists out : list Row,
    @filter_rows reference_host (default_filter base) = Ok out /\ ~ In row out.
Proof.
  intros base row.
  split; [split; [left; reflexivity|left; reflexivity]|].
  exact (proj2 (proj2 (proj2
           (@C9_default_range_excludes reference_host base row
              (or_introl eq_refl))))).
Defined.

(** C6 on the three readings of the bounds example. *)
Lemma C6_map_framing_run :
  (Samples.three_points <> [] /\
   forall r, In r Samples.three_points ->
             is_nan (@ToNumber reference_host (LATITUDE r)) = false /\
             is_nan (@ToNumber reference_host (LONGITUDE r)) = false) /\
  exists minLat maxLat minLng maxLng : float,
    is_least minLat [10; 20; 30]%float /\
    is_greatest maxLat [10; 20; 30]%float /\
    is_least minLng [-5; 0; 5]%float /\
    is_greatest maxLng [-5; 0; 5]%float /\
    snd (@complete reference_host Samples.three_points initial_state) = Ok tt /\
    mapCenter (@on_complete reference_host Samples.three_points initial_state) =
      ((minLat + maxLat) / 2, (minLng + maxLng) / 2)%float /\
    mapBounds (@on_complete reference_host Samples.three_points initial_state) =
      Some (latLngBounds (minLat, minLng) (maxLat, maxLng)) /\
    map_view (@on_complete reference_host Samples.three_points initial_state) =
      Some (((minLat + maxLat) / 2, (minLng + maxLng) / 2)%float,
            latLngBounds (minLat, minLng) (maxLat, maxLng)).
Proof.
  assert (Hne : Samples.three_points <> []) by discriminate.
  assert (Hnum : forall r, In r Samples.three_points ->
             is_nan (@ToNumber reference_host (LATITUDE r)) = false /\
             is_nan (@ToNumber reference_host (LONGITUDE r)) = false).
  { intros r [<-|[<-|[<-|[]]]]; split; reflexivity. }
  split; [split; assumption|].
  exact (proj1 (@C6_map_framing reference_host Samples.three_points
                  initial_state) Hne Hnum).
Defined.

(** C7 on four readings sorted by severity, descending: the two 'medium'
    readings tie and keep their order; the array handed in is untouched. *)
Lemma C7_stable_sort_run :
  let h : Store := [map (@normalize reference_host) Samples.four_scores] in
  let cfg := {| key := Some K_severity; direction := desc |} in
  ((0 < List.length h)%nat /\
   @comparable reference_host K_severity (deref h 0%nat) /\
   forall a b, is_medium a = true -> is_medium b = true ->
               @comparator reference_host K_severity desc a b = 0%Z) /\
  filter is_medium
    (deref (fst (@getSortedData reference_host cfg h 0%nat))
           (snd (@getSortedData reference_host cfg h 0%nat))) =
  filter is_medium (deref h 0%nat) /\
  deref (fst (@getSortedData reference_host cfg h 0%nat)) 0%nat = deref h 0%nat.
Proof.
  intros h cfg.
  assert (Hlen : (0 < List.length h)%nat) by (simpl; lia).
  assert (Hcmp : @comparable reference_host K_severity (deref h 0%nat)).
  { right. intros [r dt [ | | ]] _; reflexivity. }
  assert (Htie : forall a b, is_medium a = true -> is_medium b = true ->
               @comparator reference_host K_severity desc a b = 0%Z).
  { intros [ra da [ | | ]] [rb db [ | | ]] Ha Hb;
      try discriminate Ha; try discriminate Hb; reflexivity. }
  split; [exact (conj Hlen (conj Hcmp Htie))|].
  pose proof (@C7_stable_sort_without_mutation reference_host K_severity desc
                is_medium h 0%nat Hlen Hcmp Htie) as H.
  cbv zeta in H. destruct H as (_ & _ & Hstable & _ & _ & _ & Hold).
  split; [exact Hstable|]. apply Hold. exact Hlen.
Defined.

(** C2 on the readings of 10 AM and of 9 AM: the time values are numbers,
    and the reading of 9 AM comes first. *)
Lemma C2_date_sort_run :
  let rows := map (@normalize reference_host) Samples.ten_then_nine in
  let cfg := {| key := Some K_date; direction := asc |} in
  (forall r, In r rows ->
             is_nan (@instant_of reference_host (UNIX_TIME r)) = false) /\
  StronglySorted
    (fun a b : Row =>
       (@instant_of reference_host (UNIX_TIME a)
        <=? @instant_of reference_host (UNIX_TIME b))%float = true)
    (@sorted_rows reference_host cfg rows) /\
  map (fun r : Row => RECORDING_ID r) (@sorted_rows reference_host cfg rows) =
    [VNum 2; VNum 1].
Proof.
  intros rows cfg.
  assert (Hnum : forall r, In r rows ->
             is_nan (@instant_of reference_host (UNIX_TIME r)) = false).
  { intros r [<-|[<-|[]]]; reflexivity. }
  split; [exact Hnum|].
  split; [|reflexivity].
  exact (proj1 (proj1 (proj2 (@C2_date_sort_uses_unix_time reference_host asc
                                 rows)) Hnum)).
Defined.

(** * Further properties of the component *)

(** ** The filter pipeline as one pass *)

Lemma filter_true {A : Type} (l : list A) : filter (fun _ => true) l = l.
Proof. induction l as [|x l IH]; simpl; congruence. Qed.

Lemma filter_twice {A : Type} (p q : A -> bool) (l : list A) :
  filter p (filter q l) = filter (fun x => q x && p x) l.
Proof.
  induction l as [|x l IH]; simpl; auto.
  destruct (q x); simpl; [destruct (p x)|]; congruence.
Qed.

Lemma filter_subsequence {A : Type} (p : A -> bool) (l : list A) :
  subsequence (filter p l) l.
Proof.
  induction l as [|x l IH]; simpl; [constructor|].
  destruct (p x); now constructor.
Qed.

Lemma filterM_Ok_filter {A : Type} (p : A -> result bool) (l out : list A) :
  filterM p l = Ok out -> out = filter (fun x => is_ok_true (p x)) l.
Proof.
  revert out. induction l as [|x l IH]; simpl; intros out H.
  - now injection H.
  - destruct (p x) as [b|e]; simpl in H; [|discriminate].
    destruct (filterM p l) as [kept|e]; simpl in H; [|discriminate].
    injection H as <-. rewrite <- (IH kept eq_refl). now destruct b.
Qed.

Lemma filterM_all_true {A : Type} (p : A -> result bool) (l : list A) :
  (forall x, In x l -> p x = Ok true) -> filterM p l = Ok l.
Proof.
  induction l as [|x l IH]; simpl; intros H; auto.
  rewrite (H x) by auto. simpl. rewrite IH by auto. reflexivity.
Qed.

Section PipelineFacts.

Context {host : Host}.

Lemma before_search_filter (st : State) :
  before_search st = filter (passes_before_search st) (data st).
Proof.
  unfold before_search, passes_before_search.
  destruct (truthy (dateFrom st)), (truthy (dateTo st)),
           (selectedSeverity st);
    rewrite ?filter_twice; apply filter_ext; intros row;
    simpl; rewrite ?andb_true_r, ?andb_assoc; reflexivity.
Qed.

Lemma passes_unfold (st : State) (row : Row) :
  passes st row =
  if passes_before_search st row then
    if truthy (searchTerm st)
    then search_matches (toLowerCase (searchTerm st)) row
    else Ok true
  else Ok false.
Proof. reflexivity. Qed.

Lemma filter_rows_one_pass (st : State) (out : list Row) :
  filter_rows st = Ok out ->
  out = filter (fun row => is_ok_true (passes st row)) (data st).
Proof.
  rewrite filter_rows_unfold, before_search_filter. intros H.
  assert (E : out = filter (fun row =>
                 is_ok_true (if truthy (searchTerm st)
                             then search_matches (toLowerCase (searchTerm st)) row
                             else Ok true))
              (filter (passes_before_search st) (data st))).
  { destruct (truthy (searchTerm st)).
    - now apply filterM_Ok_filter.
    - injection H as <-. simpl. now rewrite filter_true. }
  rewrite E, filter_twice. apply filter_ext. intros row.
  rewrite passes_unfold. destruct (passes_before_search st row); reflexivity.
Qed.

(** The pipeline reads the base collection and the five filter cells, and
    nothing else. *)
Lemma filter_rows_cells (st st' : State) :
  data st' = data st ->
  dateFrom st' = dateFrom st ->
  dateTo st' = dateTo st ->
  selectedSeverity st' = selectedSeverity st ->
  temperatureRange st' = temperatureRange st ->
  searchTerm st' = searchTerm st ->
  filter_rows st' = filter_rows st.
Proof.
  intros Hd Hf Ht Hs Hr Hq. unfold filter_rows.
  rewrite Hd, Hf, Ht, Hs, Hr, Hq. reflexivity.
Qed.

End PipelineFacts.

(** X1. When the filter effect completes, its result is the base collection
    filtered once by the conjunction of the five predicates: a row is kept
    exactly when it passes the date, severity and temperature tests and,
    with a search term set, the search callback returns true for it. *)
Theorem filter_is_conjunction :
  forall (host : Host) (st : State) (out : list Row),
    filter_rows st = Ok out ->
    out = filter (fun row => is_ok_true (passes st row)) (data st) /\
    forall row,
      In row out <-> In row (data st) /\ passes st row = Ok true.
Proof.
  intros host st out H.
  pose proof (filter_rows_one_pass st H) as E. split; [exact E|].
  intros row. rewrite E, filter_In.
  destruct (passes st row) as [[|]|e]; simpl; intuition congruence.
Qed.

(** X2. The filtered rows are rows of the base collection in the order they
    have there. *)
Theorem filter_keeps_order :
  forall (host : Host) (st : State) (out : list Row),
    filter_rows st = Ok out -> subsequence out (data st).
Proof.
  intros host st out H. rewrite (filter_rows_one_pass st H).
  apply filter_subsequence.
Qed.

(** X3. Filtering is idempotent: run on its own result as the base
    collection, with the same filter cells, the pipeline completes and
    returns that result. *)
Theorem filter_idempotent :
  forall (host : Host) (st : State) (out : list Row),
    filter_rows st = Ok out ->
    filter_rows (set_data out st) = Ok out.
Proof.
  intros host st out H.
  pose proof (filter_rows_one_pass st H) as E.
  assert (Hall : forall row, In row out -> passes st row = Ok true).
  { intros row Hin. rewrite E in Hin. apply filter_In in Hin.
    destruct Hin as [_ Hp].
    destruct (passes st row) as [[|]|e]; simpl in Hp; congruence. }
  rewrite filter_rows_unfold, before_search_filter.
  change (data (set_data out st)) with out.
  change (searchTerm (set_data out st)) with (searchTerm st).
  assert (Hb : filter (passes_before_search (set_data out st)) out = out).
  { apply filter_all_pass. intros row Hin. specialize (Hall row Hin).
    rewrite passes_unfold in Hall.
    change (passes_before_search (set_data out st) row)
      with (passes_before_search st row).
    destruct (passes_before_search st row); congruence. }
  rewrite Hb. destruct (truthy (searchTerm st)) eqn:Hs; [|reflexivity].
  apply filterM_all_true. intros row Hin. specialize (Hall row Hin).
  rewrite passes_unfold, Hs in Hall.
  destruct (passes_before_search st row); congruence.
Qed.

(** ** Search terms *)

(** Lowering a text made of ASCII characters lowers its parts: no
    character of such a text is lowered according to its neighbours. *)
Lemma toLowerCase_app (s t : string) :
  is_ascii_text s -> is_ascii_text t ->
  toLowerCase (s ++ t) = (toLowerCase s ++ toLowerCase t)%string.
Proof.
  intros _ _. induction s as [|c s IH]; simpl; [reflexivity|]. now rewrite IH.
Qed.

Lemma prefix_app_l (t u s : string) :
  String.prefix (t ++ u) s = true -> String.prefix t s = true.
Proof.
  revert s. induction t as [|a t IH]; intros s; simpl.
  - destruct s; reflexivity.
  - destruct s as [|b s]; [destruct u; simpl; auto|].
    simpl. destruct (ascii_dec a b); [apply IH|auto].
Qed.

Lemma includes_unfold (s sub : string) :
  includes s sub =
  String.prefix sub s
  || match s with
     | EmptyString => false
     | String _ rest => includes rest sub
     end.
Proof. destruct s; reflexivity. Qed.

Lemma includes_app_l (s t u : string) :
  includes s (t ++ u) = true -> includes s t = true.
Proof.
  induction s as [|c s IH].
  - rewrite (includes_unfold "" (t ++ u)), (includes_unfold "" t).
    rewrite !orb_false_r. apply prefix_app_l.
  - rewrite (includes_unfold (String c s) (t ++ u)),
            (includes_unfold (String c s) t).
    intros H. apply orb_true_iff in H. destruct H as [H|H].
    + apply prefix_app_l in H. rewrite H. reflexivity.
    + rewrite (IH H). apply orb_true_r.
Qed.

Lemma includes_empty (s : string) : includes s "" = true.
Proof. destruct s; reflexivity. Qed.

Section SearchRefinement.

Context {host : Host}.

Lemma field_includes_shorter (x : value) (t u : string) (b : bool) :
  field_includes x (t ++ u) = Ok b ->
  exists b', field_includes x t = Ok b' /\ (b = true -> b' = true).
Proof.
  unfold field_includes. destruct (toString x) as [s|e]; simpl; [|discriminate].
  intros H. injection H as <-. eexists. split; [reflexivity|].
  apply includes_app_l.
Qed.

(** A row that matches a term matches every term the first one extends. *)
Lemma search_matches_shorter (t u : string) (row : Row) :
  search_matches (t ++ u) row = Ok true -> search_matches t row = Ok true.
Proof.
  unfold search_matches.
  apply or_else_sound.
  { intros v H. injection H as <-. eexists. split; [reflexivity|].
    apply includes_app_l. }
  repeat (apply or_else_sound; [intros v; apply field_includes_shorter|]).
  intros H. destruct (field_includes_shorter _ _ _ H) as (b' & Hb & Hi).
  rewrite Hb, Hi; reflexivity.
Qed.

Lemma search_matches_empty (row : Row) : search_matches "" row = Ok true.
Proof.
  unfold search_matches. rewrite includes_empty. reflexivity.
Qed.

Lemma before_search_set_searchTerm (t : string) (st : State) :
  before_search (set_searchTerm t st) = before_search st.
Proof. reflexivity. Qed.

Lemma filter_rows_nothing_left (st : State) :
  before_search st = [] -> filter_rows st = Ok [].
Proof.
  intros H. rewrite filter_rows_unfold, H.
  destruct (truthy (searchTerm st)); reflexivity.
Qed.

Lemma filter_rows_passes_before_search (st : State) (out : list Row)
      (row : Row) :
  filter_rows st = Ok out -> In row out ->
  In row (data st) /\ passes_before_search st row = true.
Proof.
  intros H Hin. rewrite (filter_rows_one_pass st H) in Hin.
  apply filter_In in Hin. destruct Hin as [Hd Hp]. split; auto.
  rewrite passes_unfold in Hp.
  destruct (passes_before_search st row); [reflexivity|discriminate].
Qed.

End SearchRefinement.

Lemma filter_none {A : Type} (p : A -> bool) (l : list A) :
  (forall x, In x l -> p x = false) -> filter p l = [].
Proof.
  induction l as [|x l IH]; simpl; intros H; auto.
  rewrite (H x) by auto. apply IH. auto.
Qed.

(** X4. Typing on narrows the result, for search terms made of ASCII
    characters: the rows found for a search term extended by further
    characters are the rows found for the term itself, filtered by the
    search callback of the longer term. *)
Theorem search_extension_narrows :
  forall (host : Host) (st : State) (t u : string) (out out' : list Row),
    is_ascii_text t ->
    is_ascii_text u ->
    filter_rows (set_searchTerm t st) = Ok out ->
    filter_rows (set_searchTerm (t ++ u) st) = Ok out' ->
    out' = filter (fun row =>
                     is_ok_true (search_matches (toLowerCase (t ++ u)) row))
                  out /\
    subsequence out' out.
Proof.
  intros host st t u out out' Hascii_t Hascii_u H H'.
  assert (E : out' = filter (fun row =>
                     is_ok_true (search_matches (toLowerCase (t ++ u)) row))
                  out).
  { rewrite filter_rows_unfold, before_search_set_searchTerm in H, H'.
    change (searchTerm (set_searchTerm t st)) with t in H.
    change (searchTerm (set_searchTerm (t ++ u) st)) with (t ++ u)%string in H'.
    destruct (truthy (t ++ u)) eqn:Htu.
    - apply filterM_Ok_filter in H'. rewrite H'.
      destruct (truthy t) eqn:Ht.
      + apply filterM_Ok_filter in H. rewrite H, filter_twice.
        apply filter_ext_in. intros row _.
        destruct (search_matches (toLowerCase (t ++ u)) row)
          as [[|]|e] eqn:Em; simpl; rewrite ?andb_false_r; auto.
        rewrite (toLowerCase_app Hascii_t Hascii_u) in Em.
        apply search_matches_shorter in Em.
        rewrite Em. reflexivity.
      + injection H as <-. reflexivity.
    - destruct t as [|c t]; [|discriminate Htu].
      destruct u as [|c u]; [|discriminate Htu].
      simpl in H. injection H as <-. injection H' as <-.
      symmetry. apply filter_all_pass. intros row _.
      simpl. rewrite search_matches_empty. reflexivity. }
  split; [exact E|]. rewrite E. apply filter_subsequence.
Qed.

(** ** Bounds that nothing satisfies *)

(** X5. An inverted temperature range (the upper bound below the lower
    one) leaves no row, whatever the other filter cells hold. *)
Theorem inverted_temperature_range_is_empty :
  forall (host : Host) (st : State) (lo hi : float),
    temperatureRange st = (VNum lo, VNum hi) ->
    (hi <? lo)%float = true ->
    filter_rows st = Ok [].
Proof.
  intros host st lo hi Hr Hlt.
  destruct (ltb_not_nan Hlt) as [Hhi Hlo].
  apply filter_rows_nothing_left. rewrite before_search_filter.
  apply filter_none. intros row _.
  unfold passes_before_search. rewrite Hr. simpl.
  unfold in_temperature_range. simpl.
  rewrite js_ge_number, js_le_number by assumption.
  destruct (is_nan (ToNumber (SCORE row))) eqn:En; simpl;
    [apply andb_false_r|].
  destruct (ToNumber (SCORE row) <? lo)%float eqn:E1; simpl;
    [apply andb_false_r|].
  destruct (hi <? ToNumber (SCORE row))%float eqn:E2; simpl;
    [apply andb_false_r|].
  apply not_ltb_leb in E1; auto. apply not_ltb_leb in E2; auto.
  pose proof (leb_trans E1 E2) as Hle.
  rewrite (ltb_not_leb Hlt) in Hle. discriminate.
Qed.

(** X6. A temperature bound that is NaN leaves no row: this is what the
    input handlers store for a text [parseInt] finds no digits in. *)
Theorem nan_temperature_bound_is_empty :
  forall (host : Host) (st : State) (b : float),
    fst (temperatureRange st) = VNum b \/ snd (temperatureRange st) = VNum b ->
    is_nan b = true ->
    filter_rows st = Ok [].
Proof.
  intros host st b Hb Hnan.
  apply filter_rows_nothing_left. rewrite before_search_filter.
  apply filter_none. intros row _.
  unfold passes_before_search, in_temperature_range.
  destruct Hb as [-> | ->]; simpl.
  - unfold js_ge. rewrite IsLessThan_number_r, Hnan, orb_true_r.
    simpl. apply andb_false_r.
  - unfold js_le. rewrite IsLessThan_number_l, Hnan. simpl.
    rewrite andb_false_r. apply andb_false_r.
Qed.

(** X7. With a date bound set, a row whose display date the host does not
    parse (the parse gives NaN) is filtered out. *)
Theorem unparsed_dates_are_dropped :
  forall (host : Host) (st : State) (out : list Row) (row : Row),
    truthy (dateFrom st) = true \/ truthy (dateTo st) = true ->
    filter_rows st = Ok out ->
    In row out ->
    is_nan (Date_parse (date row)) = false.
Proof.
  intros host st out row Hset H Hin.
  destruct (@filter_rows_passes_before_search host st out row H Hin) as [_ Hp].
  unfold passes_before_search in Hp.
  repeat (apply andb_true_iff in Hp; destruct Hp as [Hp ?]).
  destruct Hset as [Hs|Hs]; rewrite Hs in *.
  - unfold on_or_after, js_ge in Hp. simpl in Hp.
    destruct (is_nan (Date_parse (date row))); [discriminate|reflexivity].
  - unfold on_or_before, js_le in *. simpl in *.
    destruct (is_nan (Date_parse (date row)));
      [rewrite orb_true_r in *; discriminate|reflexivity].
Qed.

(** ** The component as a transition system *)

Section Reachability.

Context {host : Host}.

Lemma tidy_fields (st st' : State) :
  data st' = data st ->
  mapBounds st' = mapBounds st ->
  mapCenter st' = mapCenter st ->
  tidy st -> tidy st'.
Proof.
  unfold tidy. intros -> -> ->. auto.
Qed.

Lemma filter_effect_Ok (st st' : State) :
  filter_effect st = Ok st' ->
  exists out, filter_rows st = Ok out /\ st' = set_filteredData out st.
Proof.
  unfold filter_effect. destruct (filter_rows st) as [out|e]; simpl;
    [|discriminate].
  intros H. injection H as <-. eauto.
Qed.

(** The effect makes a tidy state well formed. *)
Lemma filter_effect_well_formed (st st' : State) :
  tidy st -> filter_effect st = Ok st' -> well_formed st'.
Proof.
  intros Ht H. apply filter_effect_Ok in H. destruct H as (out & Hout & ->).
  split.
  - exact Hout.
  - revert Ht. apply tidy_fields; reflexivity.
Qed.

Lemma numeric_coordinates_extremes (rows : list Row) :
  rows <> [] -> numeric_coordinates rows ->
  let lats := map (fun d : Row => LATITUDE d) rows in
  let lngs := map (fun d : Row => LONGITUDE d) rows in
  is_nan (Math_min lats) = false /\ is_nan (Math_min lngs) = false /\
  is_nan (Math_max lats) = false /\ is_nan (Math_max lngs) = false.
Proof.
  intros Hne Hnum lats lngs. unfold Math_min, Math_max.
  assert (Hlats : forall x, In x (map ToNumber lats) -> is_nan x = false).
  { unfold lats. rewrite map_map. intros x Hx. apply in_map_iff in Hx.
    destruct Hx as (r & <- & Hr). now apply Hnum. }
  assert (Hlngs : forall x, In x (map ToNumber lngs) -> is_nan x = false).
  { unfold lngs. rewrite map_map. intros x Hx. apply in_map_iff in Hx.
    destruct Hx as (r & <- & Hr). now apply Hnum. }
  assert (Hne1 : map ToNumber lats <> [])
    by (unfold lats; destruct rows; [congruence|discriminate]).
  assert (Hne2 : map ToNumber lngs <> [])
    by (unfold lngs; destruct rows; [congruence|discriminate]).
  destruct (min_loop_is_least Hne1 Hlats) as [Hmin1 _].
  destruct (max_loop_is_greatest Hne1 Hlats) as [Hmax1 _].
  destruct (min_loop_is_least Hne2 Hlngs) as [Hmin2 _].
  destruct (max_loop_is_greatest Hne2 Hlngs) as [Hmax2 _].
  repeat split; auto.
Qed.

(** What a load with rows leaves: the rows, the center computed from them,
    and either the bounds computed from them or, when [L.latLngBounds]
    threw, the bounds there were. *)
Lemma on_complete_framing (results : list RawRow) (st : State) :
  results <> [] ->
  let st' := on_complete results st in
  data st' = map normalize results /\
  filteredData st' = map normalize results /\
  mapCenter st' = center_of (data st') /\
  match L_latLngBounds (southWest (bounds_of (data st')))
                       (northEast (bounds_of (data st'))) with
  | Ok bounds =>
      bounds = bounds_of (data st') /\
      mapBounds st' = Some bounds /\ snd (complete results st) = Ok tt
  | Throw e =>
      mapBounds st' = mapBounds st /\ snd (complete results st) = Throw e
  end.
Proof.
  intros Hne st'.
  destruct (@on_complete_nonempty host results st Hne) as (Hd & Hf & Hc & Hb).
  fold st' in Hd, Hf, Hc.
  split; [exact Hd|]. split; [exact Hf|].
  rewrite Hd. unfold center_of, bounds_of, Math_min, Math_max.
  rewrite !latitudes_of_normalized, !longitudes_of_normalized.
  split; [exact Hc|]. simpl southWest. simpl northEast.
  destruct (L_latLngBounds _ _) as [bounds|e] eqn:E; [|exact Hb].
  split; [|exact Hb]. now apply L_latLngBounds_Ok in E.
Qed.

Lemma on_complete_tidy (results : list RawRow) (st : State) :
  results <> [] -> tidy st -> tidy (on_complete results st).
Proof.
  intros Hne (_ & Hreal & _).
  destruct (on_complete_framing st Hne) as (Hd & _ & Hc & Hb).
  cbv zeta in Hd, Hc, Hb.
  split; [|split].
  - intros row Hin. rewrite Hd in Hin.
    apply in_map_iff in Hin. destruct Hin as (r' & <- & _). reflexivity.
  - intros b Hsome.
    destruct (L_latLngBounds _ _) as [bounds|e] eqn:E.
    + destruct Hb as (_ & Hbounds & _). rewrite Hbounds in Hsome.
      injection Hsome as <-.
      apply L_latLngBounds_Ok in E. destruct E as (-> & E). exact E.
    + destruct Hb as [Hbounds _]. rewrite Hbounds in Hsome. now apply Hreal.
  - destruct (data (on_complete results st)) as [|d ds] eqn:Hdata.
    + destruct results; [congruence|discriminate].
    + split; [exact Hc|]. intros Hnum.
      destruct (@numeric_coordinates_extremes (d :: ds)) as (H1 & H2 & H3 & H4);
        [discriminate|exact Hnum|].
      rewrite L_latLngBounds_numbers in Hb by assumption.
      destruct Hb as (_ & Hbounds & _). exact Hbounds.
Qed.

(** A handler that leaves the base collection, the five filter cells and
    the filtered rows alone keeps a well-formed state well formed. *)
Lemma quiet_handler_well_formed (st st' : State) :
  data st' = data st ->
  filteredData st' = filteredData st ->
  dateFrom st' = dateFrom st ->
  dateTo st' = dateTo st ->
  selectedSeverity st' = selectedSeverity st ->
  temperatureRange st' = temperatureRange st ->
  searchTerm st' = searchTerm st ->
  mapBounds st' = mapBounds st ->
  mapCenter st' = mapCenter st ->
  well_formed st -> well_formed st'.
Proof.
  intros Hd Hfd Hf Ht Hs Hr Hq Hb Hc [Hcons Htidy]. split.
  - rewrite (filter_rows_cells st st' Hd Hf Ht Hs Hr Hq), Hfd. exact Hcons.
  - revert Htidy. now apply tidy_fields.
Qed.

Lemma SeverityChoice_eqb_eq (a b : SeverityChoice) :
  SeverityChoice_eqb a b = true -> a = b.
Proof.
  destruct a as [|[ | | ]], b as [|[ | | ]]; simpl; congruence.
Qed.

(** Each step keeps the state well formed. *)
Lemma step_well_formed (e : event) (st st' : State) :
  well_formed st -> step e st = Ok st' -> well_formed st'.
Proof.
  intros Hwf. pose proof Hwf as [_ Htidy]. unfold step.
  destruct e as [results|v|v|v|c|v|v|k| | | ]; simpl triggers_filter.
  - destruct results as [|r rs].
    + simpl. intros H. injection H as <-. exact Hwf.
    + change (0 <? List.length (r :: rs))%nat with true. cbv iota.
      apply filter_effect_well_formed.
      apply on_complete_tidy; [discriminate|exact Htidy].
  - apply filter_effect_well_formed. revert Htidy.
    apply tidy_fields; reflexivity.
  - apply filter_effect_well_formed. revert Htidy.
    apply tidy_fields; reflexivity.
  - destruct (String.eqb v (searchTerm st)) eqn:E; simpl negb; cbv iota.
    + apply String.eqb_eq in E. intros H. injection H as <-.
      revert Hwf. apply quiet_handler_well_formed; simpl; auto.
    + apply filter_effect_well_formed. revert Htidy.
      apply tidy_fields; reflexivity.
  - destruct (SeverityChoice_eqb c (selectedSeverity st)) eqn:E;
      simpl negb; cbv iota.
    + apply SeverityChoice_eqb_eq in E. intros H. injection H as <-.
      revert Hwf. apply quiet_handler_well_formed; simpl; auto.
    + apply filter_effect_well_formed. revert Htidy.
      apply tidy_fields; reflexivity.
  - destruct (String.eqb v (dateFrom st)) eqn:E; simpl negb; cbv iota.
    + apply String.eqb_eq in E. intros H. injection H as <-.
      revert Hwf. apply quiet_handler_well_formed; simpl; auto.
    + apply filter_effect_well_formed. revert Htidy.
      apply tidy_fields; reflexivity.
  - destruct (String.eqb v (dateTo st)) eqn:E; simpl negb; cbv iota.
    + apply String.eqb_eq in E. intros H. injection H as <-.
      revert Hwf. apply quiet_handler_well_formed; simpl; auto.
    + apply filter_effect_well_formed. revert Htidy.
      apply tidy_fields; reflexivity.
  - intros H. injection H as <-.
    revert Hwf. apply quiet_handler_well_formed; reflexivity.
  - apply filter_effect_well_formed. revert Htidy.
    apply tidy_fields; reflexivity.
  - intros H. injection H as <-.
    revert Hwf. apply quiet_handler_well_formed; reflexivity.
  - intros H. injection H as <-.
    revert Hwf. apply quiet_handler_well_formed; reflexivity.
Qed.

Lemma initial_state_well_formed : well_formed initial_state.
Proof.
  split; [reflexivity|]. split; [intros row []|].
  split; [intros b H; discriminate H|split; reflexivity].
Qed.

Lemma reachable_well_formed (st : State) : reachable st -> well_formed st.
Proof.
  induction 1 as [|st st' e _ IH Hstep].
  - apply initial_state_well_formed.
  - eapply step_well_formed; eauto.
Qed.

Lemma run_reachable (es : list event) (st st' : State) :
  reachable st -> run es st = Ok st' -> reachable st'.
Proof.
  revert st. induction es as [|e es IH]; simpl; intros st Hr H.
  - injection H as <-. exact Hr.
  - destruct (step e st) as [st1|err] eqn:E; simpl in H; [|discriminate].
    apply (IH st1); auto. eapply reachable_step; eauto.
Qed.

Lemma after_reachable (es : list event) : reachable (after es).
Proof.
  unfold after. destruct (run es initial_state) as [st|e] eqn:E.
  - eapply run_reachable; [apply reachable_mount|exact E].
  - apply reachable_mount.
Qed.

End Reachability.

Section ViewFacts.

Context {host : Host}.

Lemma sorted_rows_In (cfg : SortConfig) (rows : list Row) (row : Row) :
  In row (sorted_rows cfg rows) <-> In row rows.
Proof.
  unfold sorted_rows. destruct (key cfg); [apply array_sort_In|tauto].
Qed.

Lemma sorted_rows_Permutation (cfg : SortConfig) (rows : list Row) :
  Permutation (sorted_rows cfg rows) rows.
Proof.
  unfold sorted_rows. destruct (key cfg);
    [apply array_sort_Permutation|reflexivity].
Qed.

Lemma well_formed_filtered_in_data (st : State) (row : Row) :
  well_formed st -> In row (filteredData st) ->
  In row (data st) /\ passes_before_search st row = true.
Proof.
  intros [Hcons _] Hin.
  exact (@filter_rows_passes_before_search host st _ row Hcons Hin).
Qed.

Lemma well_formed_normalized (st : State) (row : Row) :
  well_formed st -> In row (data st) ->
  severity row = severity_of (SCORE row) /\
  date row = display_date (UNIX_TIME row).
Proof.
  intros (_ & Hnorm & _) Hin. rewrite (Hnorm row Hin) at 1 3.
  split; reflexivity.
Qed.

(** The framing of a tidy state with rows encloses the coordinates of each
    of them, when all of them are numbers. *)
Lemma tidy_encloses (st : State) (b : LatLngBounds) (row : Row) :
  tidy st ->
  (forall r, In r (data st) ->
             is_nan (ToNumber (LATITUDE r)) = false /\
             is_nan (ToNumber (LONGITUDE r)) = false) ->
  mapBounds st = Some b ->
  In row (data st) ->
  inside b (ToNumber (LATITUDE row)) (ToNumber (LONGITUDE row)).
Proof.
  intros (_ & _ & Hframe) Hnum Hb Hin.
  destruct (data st) as [|d ds] eqn:Hd; [contradiction|].
  destruct Hframe as [_ Hbounds]. rewrite (Hbounds Hnum) in Hb.
  injection Hb as <-.
  set (rows := d :: ds) in *.
  set (lats := map ToNumber (map (fun r : Row => LATITUDE r) rows)).
  set (lngs := map ToNumber (map (fun r : Row => LONGITUDE r) rows)).
  assert (Hlat_in : In (ToNumber (LATITUDE row)) lats).
  { unfold lats. rewrite map_map. apply in_map_iff. eauto. }
  assert (Hlng_in : In (ToNumber (LONGITUDE row)) lngs).
  { unfold lngs. rewrite map_map. apply in_map_iff. eauto. }
  assert (Hlats : forall x, In x lats -> is_nan x = false).
  { unfold lats. rewrite map_map. intros x Hx. apply in_map_iff in Hx.
    destruct Hx as (r & <- & Hr). now apply Hnum. }
  assert (Hlngs : forall x, In x lngs -> is_nan x = false).
  { unfold lngs. rewrite map_map. intros x Hx. apply in_map_iff in Hx.
    destruct Hx as (r & <- & Hr). now apply Hnum. }
  assert (Hne1 : lats <> []) by (unfold lats, rows; discriminate).
  assert (Hne2 : lngs <> []) by (unfold lngs, rows; discriminate).
  destruct (min_loop_is_least Hne1 Hlats) as [_ Hmin1].
  destruct (max_loop_is_greatest Hne1 Hlats) as [_ Hmax1].
  destruct (min_loop_is_least Hne2 Hlngs) as [_ Hmin2].
  destruct (max_loop_is_greatest Hne2 Hlngs) as [_ Hmax2].
  unfold inside, bounds_of, Math_min, Math_max. simpl.
  fold lats lngs. repeat split; auto.
Qed.

End ViewFacts.

(** X8. In every state the component can reach, the stored filtered rows
    are what the filter pipeline returns for the current base collection
    and filter cells, and the table shows exactly the base rows that pass
    all five predicates. *)
Theorem reachable_view_is_current :
  forall (host : Host) (st : State),
    reachable st ->
    filter_rows st = Ok (filteredData st) /\
    forall row,
      In row (displayed st) <-> In row (data st) /\ passes st row = Ok true.
Proof.
  intros host st Hr.
  destruct (reachable_well_formed Hr) as [Hcons _]. split; [exact Hcons|].
  intros row. unfold displayed. rewrite sorted_rows_In.
  rewrite (filter_rows_one_pass st Hcons) at 1. rewrite filter_In.
  destruct (passes st row) as [[|]|e]; simpl; intuition congruence.
Qed.

(** X9. In every reachable state each row of the base collection, of the
    filtered rows and of the table carries the severity of its own SCORE
    and the display date of its own UNIX_TIME: the derived fields never
    drift from the columns they are derived from. *)
Theorem reachable_rows_are_normalized :
  forall (host : Host) (st : State) (row : Row),
    reachable st ->
    In row (data st) \/ In row (filteredData st) \/ In row (displayed st) ->
    severity row = severity_of (SCORE row) /\
    date row = display_date (UNIX_TIME row).
Proof.
  intros host st row Hr Hin.
  pose proof (reachable_well_formed Hr) as Hwf.
  apply (@well_formed_normalized host st row Hwf).
  destruct Hin as [Hin|[Hin|Hin]]; auto.
  - now apply (@well_formed_filtered_in_data host st row Hwf).
  - unfold displayed in Hin. apply sorted_rows_In in Hin.
    now apply (@well_formed_filtered_in_data host st row Hwf).
Qed.


(** X11. In every reachable state whose coordinates are all numbers, every
    filtered row, hence every marker, lies inside the bounds the map is
    framed with. *)
Theorem reachable_markers_inside_bounds :
  forall (host : Host) (st : State) (b : LatLngBounds) (row : Row),
    reachable st ->
    (forall r, In r (data st) ->
               is_nan (ToNumber (LATITUDE r)) = false /\
               is_nan (ToNumber (LONGITUDE r)) = false) ->
    mapBounds st = Some b ->
    In row (filteredData st) ->
    inside b (ToNumber (LATITUDE row)) (ToNumber (LONGITUDE row)).
Proof.
  intros host st b row Hr Hnum Hb Hin.
  pose proof (reachable_well_formed Hr) as Hwf.
  destruct (@well_formed_filtered_in_data host st row Hwf Hin) as [Hd _].
  destruct Hwf as [_ Htidy].
  now apply (@tidy_encloses host st b row Htidy Hnum Hb).
Qed.

(** X12. In every reachable state with a severity chosen, every row of the
    table has a SCORE in the band of that severity. *)
Theorem reachable_severity_choice_selects_band :
  forall (host : Host) (st : State) (s : Severity) (row : Row),
    reachable st ->
    selectedSeverity st = only s ->
    In row (displayed st) ->
    severity_of (SCORE row) = s.
Proof.
  intros host st s row Hr Hs Hin.
  pose proof (reachable_well_formed Hr) as Hwf.
  unfold displayed in Hin. apply sorted_rows_In in Hin.
  destruct (@well_formed_filtered_in_data host st row Hwf Hin) as [Hd Hp].
  destruct (@well_formed_normalized host st row Hwf Hd) as [<- _].
  unfold passes_before_search in Hp. rewrite Hs in Hp.
  apply andb_true_iff in Hp. destruct Hp as [Hp _].
  apply andb_true_iff in Hp. destruct Hp as [_ Hp].
  simpl in Hp. destruct (severity row), s; simpl in Hp; congruence.
Qed.

(** X13. Only a load with rows changes the base collection and the map
    framing: every other event leaves the three cells as they are. *)
Theorem only_load_moves_the_map :
  forall (host : Host) (e : event) (st st' : State),
    (forall r rs, e <> Loaded (r :: rs)) ->
    step e st = Ok st' ->
    data st' = data st /\
    mapCenter st' = mapCenter st /\
    mapBounds st' = mapBounds st.
Proof.
  intros host e st st' Hnot. unfold step.
  assert (Heff : forall st1, data st1 = data st ->
             mapCenter st1 = mapCenter st -> mapBounds st1 = mapBounds st ->
             filter_effect st1 = Ok st' ->
             data st' = data st /\ mapCenter st' = mapCenter st /\
             mapBounds st' = mapBounds st).
  { intros st1 Hd Hc Hb H. apply filter_effect_Ok in H.
    destruct H as (out & _ & ->). simpl. auto. }
  assert (Hquiet : forall st1, data st1 = data st ->
             mapCenter st1 = mapCenter st -> mapBounds st1 = mapBounds st ->
             Ok st1 = Ok st' ->
             data st' = data st /\ mapCenter st' = mapCenter st /\
             mapBounds st' = mapBounds st).
  { intros st1 Hd Hc Hb H. injection H as <-. auto. }
  destruct e as [[|r rs]|v|v|v|c|v|v|k| | | ]; simpl triggers_filter;
    try (destruct (negb _));
    try (apply Heff; reflexivity); try (apply Hquiet; reflexivity).
  exfalso. now apply (Hnot r rs).
Qed.

(** X14. Whatever the sort configuration, the table shows the filtered
    rows, each as often as it occurs there: sorting loses and invents
    nothing, so the table has as many rows as the map has markers. *)
Theorem displayed_is_permutation :
  forall (host : Host) (st : State),
    Permutation (displayed st) (filteredData st) /\
    List.length (displayed st) = List.length (filteredData st) /\
    forall ps, marker_positions st = Some ps ->
               List.length ps = List.length (displayed st).
Proof.
  intros host st.
  pose proof (sorted_rows_Permutation (sortConfig st) (filteredData st)) as P.
  split; [exact P|]. split; [now apply Permutation_length|].
  intros ps. unfold marker_positions.
  destruct (mapBounds st); [|discriminate].
  intros H. injection H as <-. rewrite length_map.
  symmetry. now apply Permutation_length.
Qed.

(** ** Sorting *)

Lemma SortKey_eqb_eq (a b : SortKey) : SortKey_eqb a b = true <-> a = b.
Proof. destruct a, b; simpl; split; congruence. Qed.

Lemma SortKey_eqb_refl (a : SortKey) : SortKey_eqb a a = true.
Proof. now apply SortKey_eqb_eq. Qed.

Lemma SortKey_eqb_neq (a b : SortKey) : a <> b -> SortKey_eqb a b = false.
Proof.
  intros H. destruct (SortKey_eqb a b) eqn:E; auto.
  apply SortKey_eqb_eq in E. contradiction.
Qed.

(** X15. A click on a column header sorts by that column: ascending,
    unless the column was already the ascending sort key, in which case
    descending.  Further clicks on the same header alternate the direction,
    a click on another header starts ascending again, and the rows and the
    filters are not touched. *)
Theorem header_click_cycle :
  forall (host : Host) (k : SortKey) (st : State),
    key (sortConfig (handleSort k st)) = Some k /\
    (direction (sortConfig (handleSort k st)) = desc <->
     sortConfig st = {| key := Some k; direction := asc |}) /\
    direction (sortConfig (handleSort k (handleSort k st))) =
      flip (direction (sortConfig (handleSort k st))) /\
    (forall k', k' <> k ->
       sortConfig (handleSort k' (handleSort k st)) =
       {| key := Some k'; direction := asc |}) /\
    data (handleSort k st) = data st /\
    filteredData (handleSort k st) = filteredData st /\
    filter_rows (handleSort k st) = filter_rows st.
Proof.
  intros host k st. unfold handleSort. simpl.
  split; [reflexivity|]. split; [|split; [|split]].
  - destruct (sortConfig st) as [[k0|] [|]]; simpl;
      try (split; congruence).
    destruct (SortKey_eqb k0 k) eqn:E.
    + apply SortKey_eqb_eq in E. subst. split; auto.
    + split; [discriminate|]. intros H. injection H as ->.
      rewrite SortKey_eqb_refl in E. discriminate.
  - rewrite SortKey_eqb_refl.
    destruct (sortConfig st) as [[k0|] [|]]; simpl; try reflexivity;
      try (destruct (SortKey_eqb k0 k); reflexivity).
  - intros k' Hne. rewrite (SortKey_eqb_neq (not_eq_sym Hne)).
    destruct (sortConfig st) as [[k0|] [|]]; simpl; try reflexivity;
      try (destruct (SortKey_eqb k0 k); reflexivity).
  - repeat split; reflexivity.
Qed.

(** X16. The comparator is antisymmetric and the direction only flips its
    sign: comparing two rows the other way round, or in the other
    direction, negates the result, so it never puts each of two rows
    before the other. *)
Theorem comparator_sign :
  forall (host : Host) (k : SortKey) (d : Direction) (a b : Row),
    comparator k d b a = (- comparator k d a b)%Z /\
    comparator k (flip d) a b = (- comparator k d a b)%Z /\
    (comparator k d a b = -1 \/ comparator k d a b = 0 \/
     comparator k d a b = 1)%Z.
Proof.
  intros host k d a b. rewrite !comparator_compare_values.
  split; [apply compare_values_swap|]. split; [apply compare_values_flip|].
  unfold compare_values.
  destruct (js_lt (sort_value k a) (sort_value k b)),
           (js_gt (sort_value k a) (sort_value k b)), d; auto.
Qed.

(** X17. When the sort values of the rows are numbers (as the time values
    of valid timestamps, the severity ranks and the cells of a numeric
    column are), the sorted rows are in order: ascending, each row's value
    is at most the value of every row after it; descending, at least. *)
Theorem sorted_rows_in_order :
  forall (host : Host) (k : SortKey) (d : Direction) (rows : list Row),
    (forall r, In r rows -> numeric_sort_value k r) ->
    StronglySorted (in_order k d)
      (sorted_rows {| key := Some k; direction := d |} rows).
Proof.
  intros host k d rows H. unfold sorted_rows. simpl.
  apply StronglySorted_weaken
    with (R := fun a b => (comparator k d a b <= 0)%Z).
  - intros a b Ha Hb. apply array_sort_In in Ha, Hb.
    now apply in_order_numbers; apply H.
  - now apply sorted_numbers_ordered.
Qed.

(** X18. Sorting is idempotent on rows whose sort values are numbers:
    sorting the sorted rows again, by the same column in the same
    direction, changes nothing. *)
Theorem sorting_twice_is_sorting_once :
  forall (host : Host) (k : SortKey) (d : Direction) (rows : list Row),
    (forall r, In r rows -> numeric_sort_value k r) ->
    let cfg := {| key := Some k; direction := d |} in
    sorted_rows cfg (sorted_rows cfg rows) = sorted_rows cfg rows.
Proof.
  intros host k d rows H cfg. unfold cfg, sorted_rows. simpl.
  apply array_sort_of_ordered. now apply sorted_numbers_ordered.
Qed.

(** X19. Sorted by severity, the rows come in rank order, whatever their
    other cells hold: ascending low, medium, high; descending high,
    medium, low. *)
Theorem severity_sort_is_rank_order :
  forall (host : Host) (d : Direction) (rows : list Row),
    StronglySorted
      (fun a b =>
         match d with
         | asc => severity_leb (severity a) (severity b) = true
         | desc => severity_leb (severity b) (severity a) = true
         end)
      (sorted_rows {| key := Some K_severity; direction := d |} rows).
Proof.
  intros host d rows.
  apply StronglySorted_weaken
    with (R := fun a b => (comparator K_severity d a b <= 0)%Z).
  - intros [ra da [ | | ]] [rb db [ | | ]] _ _; destruct d; vm_compute;
      intros H; try reflexivity; exfalso; now apply H.
  - apply sorted_by_severity_ordered.
Qed.

(** ** Coordinates that are not numbers *)

Lemma min_loop_nan (l : list float) (x : float) :
  In x l -> is_nan x = true -> forall lowest, min_loop lowest l = nan.
Proof.
  induction l as [|number rest IH]; simpl; intros Hin Hx lowest;
    [contradiction|].
  destruct (is_nan number) eqn:En; [reflexivity|].
  destruct Hin as [->|Hin]; [congruence|]. now apply IH.
Qed.

Lemma max_loop_nan (l : list float) (x : float) :
  In x l -> is_nan x = true -> forall highest, max_loop highest l = nan.
Proof.
  induction l as [|number rest IH]; simpl; intros Hin Hx highest;
    [contradiction|].
  destruct (is_nan number) eqn:En; [reflexivity|].
  destruct Hin as [->|Hin]; [congruence|]. now apply IH.
Qed.

(** X20. One coordinate that does not convert to a number spoils the
    framing of the whole map: if the latitude or the longitude of some
    parsed row converts to NaN, the load stores the rows and a center with
    NaN for that coordinate, [L.latLngBounds] throws and the bounds are
    left as they were.  After the first load no map is rendered, although
    there are rows. *)
Theorem nan_coordinate_spoils_framing :
  forall (host : Host) (results : list RawRow) (st : State) (r : RawRow),
    In r results ->
    is_nan (ToNumber (LATITUDE r)) = true \/
    is_nan (ToNumber (LONGITUDE r)) = true ->
    let st' := on_complete results st in
    data st' = map normalize results /\
    snd (complete results st) = Throw InvalidLatLng /\
    mapBounds st' = mapBounds st /\
    (is_nan (ToNumber (LATITUDE r)) = true ->
     is_nan (fst (mapCenter st')) = true) /\
    (is_nan (ToNumber (LONGITUDE r)) = true ->
     is_nan (snd (mapCenter st')) = true) /\
    (mapBounds st = None ->
     map_view st' = None /\ marker_positions st' = None).
Proof.
  intros host results st r Hin Hnan st'.
  assert (Hne : results <> [])
    by (destruct results; [contradiction|discriminate]).
  destruct (@on_complete_nonempty host results st Hne) as (Hd & _ & Hc & Hb).
  fold st' in Hd, Hc, Hb.
  assert (Hlat : In (ToNumber (LATITUDE r))
                    (map (fun r => ToNumber (LATITUDE r)) results))
    by (apply in_map_iff; eauto).
  assert (Hlng : In (ToNumber (LONGITUDE r))
                    (map (fun r => ToNumber (LONGITUDE r)) results))
    by (apply in_map_iff; eauto).
  rewrite L_latLngBounds_nan in Hb.
  - destruct Hb as [Hbounds Hthrow].
    split; [exact Hd|]. split; [exact Hthrow|]. split; [exact Hbounds|].
    rewrite Hc. split; [|split].
    + intros H. simpl.
      rewrite (min_loop_nan _ _ Hlat H), (max_loop_nan _ _ Hlat H).
      reflexivity.
    + intros H. simpl.
      rewrite (min_loop_nan _ _ Hlng H), (max_loop_nan _ _ Hlng H).
      reflexivity.
    + intros Hnone. unfold map_view, marker_positions.
      rewrite Hbounds, Hnone. auto.
  - simpl. destruct Hnan as [H|H]; [left|right].
    + now rewrite (min_loop_nan _ _ Hlat H).
    + now rewrite (min_loop_nan _ _ Hlng H).
Qed.

(** ** The table *)

Lemma mapM_Ok {A B : Type} (f : A -> result B) (l : list A) :
  (forall x, In x l -> exists y, f x = Ok y) ->
  exists ys, mapM f l = Ok ys /\ List.length ys = List.length l.
Proof.
  induction l as [|x l IH]; simpl; intros H; [eauto|].
  destruct (H x (or_introl eq_refl)) as [y ->].
  destruct IH as (ys & -> & Hlen); [auto|]. simpl.
  eexists. split; [reflexivity|]. simpl. now rewrite Hlen.
Qed.

(** A callback that throws one kind of exception only: [map] throws it
    as soon as the callback throws on one element. *)
Lemma mapM_Throw {A B : Type} (f : A -> result B) (l : list A) (x : A)
      (e : error) :
  (forall y e', f y = Throw e' -> e' = e) ->
  In x l -> f x = Throw e -> mapM f l = Throw e.
Proof.
  intros Hf.
  induction l as [|y l IH]; simpl; intros Hin Hx; [contradiction|].
  destruct (f y) as [b|e'] eqn:Ey; simpl.
  - destruct Hin as [->|Hin]; [congruence|].
    rewrite (IH Hin Hx). reflexivity.
  - now rewrite (Hf y e' Ey).
Qed.

Lemma mapM_In {A B : Type} (f : A -> result B) (l : list A) (ys : list B) :
  mapM f l = Ok ys ->
  List.length ys = List.length l /\
  (forall x, In x l -> exists y, f x = Ok y /\ In y ys) /\
  (forall y, In y ys -> exists x, In x l /\ f x = Ok y).
Proof.
  revert ys. induction l as [|x l IH]; simpl; intros ys H.
  - injection H as <-. repeat split; auto; intros ? [].
  - destruct (f x) as [y|e] eqn:Ex; simpl in H; [|discriminate].
    destruct (mapM f l) as [ys'|e]; simpl in H; [|discriminate].
    injection H as <-. destruct (IH ys' eq_refl) as (Hlen & Hin & Hout).
    split; [simpl; now rewrite Hlen|]. split.
    + intros x' [<-|Hx']; [exists y; split; [assumption|now left]|].
      destruct (Hin x' Hx') as (y' & Hy' & Hin'). exists y'. split; auto.
      now right.
    + intros y' [<-|Hy']; [exists x; split; [now left|assumption]|].
      destruct (Hout y' Hy') as (x' & Hx' & Hfx'). exists x'. split; auto.
Qed.

Section TableFacts.

Context {host : Host}.

Lemma table_row_formattable (row : Row) :
  (formattable row = true ->
   exists cells, table_row row = Ok cells /\
                 cell_recording cells = RECORDING_ID row /\
                 cell_position cells = POSITION_YARDS row /\
                 cell_score cells = SCORE row) /\
  (formattable row = false -> table_row row = Throw TypeError).
Proof.
  unfold formattable, table_row, call_toFixed.
  destruct (LATITUDE row) as [ | |[]|n|s|tv];
    destruct (LONGITUDE row) as [ | |[]|m|t|tw]; simpl;
    split; intros H; try discriminate; eauto 6.
Qed.

Lemma table_row_throws (row : Row) (e : error) :
  table_row row = Throw e -> e = TypeError.
Proof.
  unfold table_row, call_toFixed.
  destruct (LATITUDE row) as [ | |[]|n|s|tv];
    destruct (LONGITUDE row) as [ | |[]|m|t|tw]; simpl;
    intros H; congruence.
Qed.

Lemma render_row_throws (cells : TableRow) (e : error) :
  render_row cells = Throw e -> e = InvalidChild.
Proof.
  unfold render_row. destruct (_ && _); intros H; congruence.
Qed.

(** React renders the elements of a row exactly when its three cells are
    valid children. *)
Lemma render_row_renderable (row : Row) (cells : TableRow) :
  table_row row = Ok cells ->
  (renderable row = true -> render_row cells = Ok cells) /\
  (renderable row = false -> render_row cells = Throw InvalidChild).
Proof.
  intros H.
  destruct (formattable row) eqn:F.
  - destruct (proj1 (table_row_formattable row) F)
      as (cells' & Hc & H1 & H2 & H3).
    rewrite H in Hc. injection Hc as <-.
    unfold render_row, renderable. rewrite H1, H2, H3.
    split; intros ->; reflexivity.
  - rewrite (proj2 (table_row_formattable row) F) in H. discriminate.
Qed.

Lemma displayed_length (st : State) :
  List.length (displayed st) = List.length (filteredData st).
Proof.
  apply Permutation_length, sorted_rows_Permutation.
Qed.

Lemma displayed_In (st : State) (row : Row) :
  In row (displayed st) <-> In row (filteredData st).
Proof. apply sorted_rows_In. Qed.

Lemma existsb_displayed (p : Row -> bool) (st : State) :
  existsb p (displayed st) = existsb p (filteredData st).
Proof.
  apply eq_true_iff_eq. rewrite !existsb_exists.
  split; intros (x & Hx & Hp); exists x; split; auto;
    now apply displayed_In.
Qed.

Lemma forallb_displayed (p : Row -> bool) (st : State) :
  forallb p (displayed st) = forallb p (filteredData st).
Proof.
  apply eq_true_iff_eq. rewrite !forallb_forall.
  split; intros H x Hx; apply H; now apply displayed_In.
Qed.

Lemma not_all_some (p : Row -> bool) (l : list Row) :
  forallb p l = false <-> existsb (fun row => negb (p row)) l = true.
Proof.
  induction l as [|x l IH]; simpl; [split; discriminate|].
  destruct (p x); simpl; [exact IH|tauto].
Qed.

(** The three outcomes of rendering a table with rows. *)
Lemma table_view_cases (st : State) :
  displayed st <> [] ->
  (forallb formattable (displayed st) = false ->
   table_view st = Throw TypeError) /\
  (forallb formattable (displayed st) = true ->
   forallb renderable (displayed st) = false ->
   table_view st = Throw InvalidChild) /\
  (forallb formattable (displayed st) = true ->
   forallb renderable (displayed st) = true ->
   exists rows, table_view st = Ok (Rows rows) /\
                List.length rows = List.length (displayed st)).
Proof.
  intros Hne. unfold table_view.
  destruct (List.length (displayed st) =? 0)%nat eqn:E.
  { apply Nat.eqb_eq, length_zero_iff_nil in E. contradiction. }
  clear E Hne. split; [|split].
  - intros F. apply not_all_some, existsb_exists in F.
    destruct F as (row & Hin & Hrow). apply negb_true_iff in Hrow.
    rewrite (mapM_Throw table_row _ row (e := TypeError)); auto.
    + intros y e'. apply table_row_throws.
    + now apply table_row_formattable.
  - intros F R. rewrite forallb_forall in F.
    destruct (@mapM_Ok _ _ table_row (displayed st)) as (elements & E & _).
    { intros x Hx. destruct (proj1 (table_row_formattable x) (F x Hx))
        as (cells & Hc & _). eauto. }
    rewrite E. simpl.
    apply not_all_some, existsb_exists in R.
    destruct R as (row & Hin & Hrow). apply negb_true_iff in Hrow.
    destruct (mapM_In _ _ E) as (_ & Hall & _).
    destruct (Hall row Hin) as (cells & Hcells & Hin').
    rewrite (mapM_Throw render_row _ cells (e := InvalidChild)); auto.
    + intros y e'. apply render_row_throws.
    + now apply (render_row_renderable row).
  - intros F R. rewrite forallb_forall in F, R.
    destruct (@mapM_Ok _ _ table_row (displayed st)) as (elements & E & Hlen).
    { intros x Hx. destruct (proj1 (table_row_formattable x) (F x Hx))
        as (cells & Hc & _). eauto. }
    rewrite E. simpl.
    destruct (mapM_In _ _ E) as (_ & _ & Hfrom).
    destruct (@mapM_Ok _ _ render_row elements) as (rows & E' & Hlen').
    { intros cells Hc. destruct (Hfrom cells Hc) as (row & Hrow & Hcells).
      exists cells. now apply (render_row_renderable row); auto. }
    rewrite E'. simpl. exists rows. split; [reflexivity|]. congruence.
Qed.

End TableFacts.

(** X21. The table shows the "no records" message exactly when the
    filtered rows are empty, whatever the sort configuration. *)
Theorem no_records_message :
  forall (host : Host) (st : State),
    table_view st = Ok NoRecords <-> filteredData st = [].
Proof.
  intros host st. unfold table_view.
  destruct (List.length (displayed st) =? 0)%nat eqn:E.
  - apply Nat.eqb_eq in E. rewrite displayed_length in E.
    split; auto. intros _. now apply length_zero_iff_nil.
  - apply Nat.eqb_neq in E. rewrite displayed_length in E. split.
    + destruct (mapM table_row (displayed st)) as [elements|e]; simpl;
        [destruct (mapM render_row elements); simpl|]; discriminate.
    + intros H. rewrite H in E. simpl in E. congruence.
Qed.

(** X22. Rendering the table throws a TypeError exactly when a filtered row
    has a LATITUDE or LONGITUDE that is not a number (an empty cell, a
    missing cell, a text): [toFixed] exists on numbers only.  With numbers
    for all coordinates, React throws exactly when the RECORDING_ID, the
    POSITION_YARDS or the SCORE of a filtered row is a [Date], which is
    not a valid child.  Otherwise the table has one row per filtered
    reading. *)
Theorem table_needs_numeric_coordinates :
  forall (host : Host) (st : State),
    (table_view st = Throw TypeError <->
     existsb (fun row => negb (formattable row)) (filteredData st) = true) /\
    (table_view st = Throw InvalidChild <->
     forallb formattable (filteredData st) = true /\
     existsb (fun row => negb (renderable row)) (filteredData st) = true) /\
    (forallb formattable (filteredData st) = true ->
     forallb renderable (filteredData st) = true ->
     filteredData st <> [] ->
     exists rows, table_view st = Ok (Rows rows) /\
                  List.length rows = List.length (filteredData st)).
Proof.
  intros host st.
  rewrite <- !existsb_displayed, <- !forallb_displayed, <- !not_all_some.
  destruct (displayed st) as [|d ds] eqn:Hd.
  - assert (Hf : filteredData st = []).
    { apply length_zero_iff_nil. rewrite <- displayed_length, Hd.
      reflexivity. }
    unfold table_view. rewrite Hd. simpl.
    split; [split; discriminate|].
    split; [split; [discriminate|intros [_ H]; discriminate H]|].
    intros _ _ H. contradiction.
  - rewrite <- Hd.
    assert (Hne : displayed st <> []) by (rewrite Hd; discriminate).
    destruct (@table_view_cases host st Hne) as (H1 & H2 & H3).
    destruct (forallb formattable (displayed st)) eqn:F.
    + destruct (forallb renderable (displayed st)) eqn:R.
      * destruct (H3 eq_refl eq_refl) as (rows & Hrows & Hlen).
        rewrite Hrows.
        split; [split; discriminate|].
        split; [split; [discriminate|intros [_ H]; discriminate H]|].
        intros _ _ _. exists rows. split; [reflexivity|].
        now rewrite Hlen, displayed_length.
      * rewrite (H2 eq_refl eq_refl).
        split; [split; discriminate|].
        split; [split; auto|]. intros _ H. discriminate H.
    + rewrite (H1 eq_refl).
      split; [split; auto|].
      split; [split; [discriminate|intros [H _]; discriminate H]|].
      intros H. discriminate H.
Qed.

(** ** Colors and sort indicators *)

(** X23. The three severities get three different marker colors, none of
    them the fallback gray, which is the color of every other string. *)
Theorem severity_colors_are_distinct :
  (forall s, getSeverityColor (severity_name s) <> "#666666") /\
  (forall s s',
      getSeverityColor (severity_name s) = getSeverityColor (severity_name s')
      -> s = s') /\
  (forall text, (forall s, text <> severity_name s) ->
                getSeverityColor text = "#666666").
Proof.
  split; [|split].
  - intros [ | | ]; vm_compute; discriminate.
  - intros [ | | ] [ | | ]; vm_compute; intros H;
      try reflexivity; discriminate H.
  - intros text H. unfold getSeverityColor.
    destruct (String.eqb text "high") eqn:E1;
      [apply String.eqb_eq in E1; now destruct (H high)|].
    destruct (String.eqb text "medium") eqn:E2;
      [apply String.eqb_eq in E2; now destruct (H medium)|].
    destruct (String.eqb text "low") eqn:E3;
      [apply String.eqb_eq in E3; now destruct (H low)|].
    reflexivity.
Qed.

(** X24. After a click on a header, that header and no other is bold and
    carries an arrow, up for ascending and down for descending; after a
    reset no header is bold and none carries an arrow. *)
Theorem sort_indicator_marks_the_sorted_column :
  forall (host : Host) (st : State) (k k' : SortKey),
    let st' := handleSort k st in
    (getSortArrow (sortConfig st') k' <> "" <-> k' = k) /\
    (fontWeight (getHeaderStyle st' k') = "bold" <-> k' = k) /\
    (getSortArrow (sortConfig st') k = " ↑" <->
     direction (sortConfig st') = asc) /\
    (getSortArrow (sortConfig st') k = " ↓" <->
     direction (sortConfig st') = desc) /\
    getSortArrow (sortConfig (handleReset st)) k' = "" /\
    fontWeight (getHeaderStyle (handleReset st) k') = "normal".
Proof.
  intros host st k k' st'. unfold st', getSortArrow, getHeaderStyle.
  unfold handleSort. simpl.
  set (d := match key (sortConfig st) with
            | Some k0 =>
                match direction (sortConfig st) with
                | asc => if SortKey_eqb k0 k then desc else asc
                | desc => asc
                end
            | None => asc
            end).
  rewrite SortKey_eqb_refl.
  repeat split; try reflexivity.
  - destruct (SortKey_eqb k k') eqn:E.
    + apply SortKey_eqb_eq in E. auto.
    + intros H. now destruct H.
  - intros ->. rewrite SortKey_eqb_refl. destruct d; discriminate.
  - destruct (SortKey_eqb k k') eqn:E; [|discriminate].
    apply SortKey_eqb_eq in E. auto.
  - intros ->. now rewrite SortKey_eqb_refl.
  - destruct d; [reflexivity|discriminate].
  - intros ->. reflexivity.
  - destruct d; [discriminate|reflexivity].
  - intros ->. reflexivity.
Qed.

(** ** Temperature inputs *)

Lemma list_ascii_of_string_app (s t : string) :
  list_ascii_of_string (s ++ t) =
  list_ascii_of_string s ++ list_ascii_of_string t.
Proof.
  induction s as [|c s IH]; simpl; [reflexivity|]. now rewrite IH.
Qed.

Lemma decimal_digit_cases (c : ascii) :
  is_decimal_digit c = true ->
  c = "0"%char \/ c = "1"%char \/ c = "2"%char \/ c = "3"%char \/
  c = "4"%char \/ c = "5"%char \/ c = "6"%char \/ c = "7"%char \/
  c = "8"%char \/ c = "9"%char.
Proof.
  destruct c as [[] [] [] [] [] [] [] []]; vm_compute; intros H;
    try discriminate H; tauto.
Qed.

Lemma decimal_digit_value (c : ascii) :
  is_decimal_digit c = true ->
  exists v, ReferenceHost.digit_value 10 c = Some v.
Proof.
  intros H. apply decimal_digit_cases in H.
  repeat (destruct H as [->|H]; [vm_compute; eauto|]).
  subst. vm_compute. eauto.
Qed.

(** Reading digits stops at the decimal point, with the value and the
    count it has without the point and what follows it. *)
Lemma read_digits_before_point (ds rest : list ascii) :
  Forall (fun c => is_decimal_digit c = true) ds ->
  forall acc count,
    ReferenceHost.read_digits 10 (ds ++ "."%char :: rest) acc count =
    (fst (fst (ReferenceHost.read_digits 10 ds acc count)),
     snd (fst (ReferenceHost.read_digits 10 ds acc count)),
     "."%char :: rest).
Proof.
  induction 1 as [|c ds Hc Hds IH]; intros acc count.
  - reflexivity.
  - destruct (decimal_digit_value c Hc) as [v Hv].
    simpl. rewrite Hv. apply IH.
Qed.

Lemma number_of_digits_rest (negative : bool) (v n : Z) (r r' : list ascii) :
  number_of_digits negative (v, n, r) = number_of_digits negative (v, n, r').
Proof. reflexivity. Qed.

Lemma digits_then_point_prefix (ds rest : list ascii) :
  Forall (fun c => is_decimal_digit c = true) ds ->
  sign_of (skip_white_space (ds ++ "."%char :: rest)) =
    (false, ds ++ "."%char :: rest) /\
  radix_of (ds ++ "."%char :: rest) = (10%Z, ds ++ "."%char :: rest) /\
  sign_of (skip_white_space ds) = (false, ds) /\
  radix_of ds = (10%Z, ds).
Proof.
  intros H. destruct H as [|c ds Hc Hds]; [repeat split; reflexivity|].
  apply decimal_digit_cases in Hc.
  assert (Hnext : ds = [] \/ exists c2 ds2, ds = c2 :: ds2 /\
                                     is_decimal_digit c2 = true).
  { destruct Hds as [|c2 ds2 Hc2 _]; eauto. }
  destruct Hnext as [->|(c2 & ds2 & -> & Hc2)].
  - repeat (destruct Hc as [->|Hc]; [repeat split; reflexivity|]).
    subst. repeat split; reflexivity.
  - apply decimal_digit_cases in Hc2.
    repeat (destruct Hc as [->|Hc];
            [repeat (destruct Hc2 as [->|Hc2]; [repeat split; reflexivity|]);
             subst; repeat split; reflexivity|]).
    subst.
    repeat (destruct Hc2 as [->|Hc2]; [repeat split; reflexivity|]).
    subst. repeat split; reflexivity.
Qed.

(** X25. The temperature inputs drop the fraction of what is typed: for a
    text made of decimal digits, a point and anything after it, [parseInt]
    returns what it returns for the digits alone, and the bound stored is
    that whole number (with no digit before the point, NaN). *)
Theorem parseInt_drops_the_fraction :
  forall (digits rest : string) (st : State),
    Forall (fun c => is_decimal_digit c = true)
           (list_ascii_of_string digits) ->
    parseInt (digits ++ "." ++ rest) = parseInt digits /\
    fst (temperatureRange (onMinTempChange (digits ++ "." ++ rest) st)) =
      VNum (parseInt digits) /\
    snd (temperatureRange (onMaxTempChange (digits ++ "." ++ rest) st)) =
      VNum (parseInt digits).
Proof.
  intros digits rest st H.
  assert (E : parseInt (digits ++ "." ++ rest) = parseInt digits).
  { unfold parseInt, parse_int_chars.
    rewrite list_ascii_of_string_app. simpl list_ascii_of_string.
    destruct (digits_then_point_prefix (list_ascii_of_string rest) H)
      as (E1 & E2 & E3 & E4).
    rewrite E1, E2, E3, E4.
    rewrite (read_digits_before_point (list_ascii_of_string rest) H).
    destruct (ReferenceHost.read_digits 10 (list_ascii_of_string digits) 0 0)
      as [[v n] r]. reflexivity. }
  assert (Hne : String.eqb (digits ++ "." ++ rest) "" = false).
  { destruct digits; reflexivity. }
  split; [exact E|].
  unfold onMinTempChange, onMaxTempChange, bound_of_input.
  rewrite Hne, E. split; reflexivity.
Qed.

(** ** Concrete runs of the further properties *)

(** X1 on the loaded readings with "12:2" in the search box. *)
Lemma filter_is_conjunction_run :
  @filter_rows reference_host Runs.searched =
    Ok (filteredData Runs.searched) /\
  filteredData Runs.searched =
    filter (fun row => is_ok_true (@passes reference_host Runs.searched row))
           (data Runs.searched).
Proof.
  assert (H : @filter_rows reference_host Runs.searched =
              Ok (filteredData Runs.searched)) by (vm_compute; reflexivity).
  split; [exact H|].
  exact (proj1 (@filter_is_conjunction reference_host Runs.searched _ H)).
Defined.

(** X2 on the same state. *)
Lemma filter_keeps_order_run :
  @filter_rows reference_host Runs.searched =
    Ok (filteredData Runs.searched) /\
  subsequence (filteredData Runs.searched) (data Runs.searched).
Proof.
  assert (H : @filter_rows reference_host Runs.searched =
              Ok (filteredData Runs.searched)) by (vm_compute; reflexivity).
  split; [exact H|].
  exact (@filter_keeps_order reference_host Runs.searched _ H).
Defined.

(** X3 on the same state. *)
Lemma filter_idempotent_run :
  @filter_rows reference_host Runs.searched =
    Ok (filteredData Runs.searched) /\
  @filter_rows reference_host
    (set_data (filteredData Runs.searched) Runs.searched) =
    Ok (filteredData Runs.searched).
Proof.
  assert (H : @filter_rows reference_host Runs.searched =
              Ok (filteredData Runs.searched)) by (vm_compute; reflexivity).
  split; [exact H|].
  exact (@filter_idempotent reference_host Runs.searched _ H).
Defined.

(** X4: from "12:2" to "12:27". *)
Lemma search_extension_narrows_run :
  (is_ascii_text "12:2" /\ is_ascii_text "7" /\
   @filter_rows reference_host (set_searchTerm "12:2" Runs.loaded) =
     Ok (rows_of (@filter_rows reference_host
                    (set_searchTerm "12:2" Runs.loaded))) /\
   @filter_rows reference_host (set_searchTerm ("12:2" ++ "7") Runs.loaded) =
     Ok (rows_of (@filter_rows reference_host
                    (set_searchTerm ("12:2" ++ "7") Runs.loaded)))) /\
  subsequence
    (rows_of (@filter_rows reference_host
                (set_searchTerm ("12:2" ++ "7") Runs.loaded)))
    (rows_of (@filter_rows reference_host
                (set_searchTerm "12:2" Runs.loaded))).
Proof.
  assert (Ht : is_ascii_text "12:2")
    by (unfold is_ascii_text; simpl; repeat constructor).
  assert (Hu : is_ascii_text "7")
    by (unfold is_ascii_text; simpl; repeat constructor).
  assert (H : @filter_rows reference_host (set_searchTerm "12:2" Runs.loaded) =
     Ok (rows_of (@filter_rows reference_host
                    (set_searchTerm "12:2" Runs.loaded))))
    by (vm_compute; reflexivity).
  assert (H' : @filter_rows reference_host
                 (set_searchTerm ("12:2" ++ "7") Runs.loaded) =
     Ok (rows_of (@filter_rows reference_host
                    (set_searchTerm ("12:2" ++ "7") Runs.loaded))))
    by (vm_compute; reflexivity).
  split; [exact (conj Ht (conj Hu (conj H H')))|].
  exact (proj2 (@search_extension_narrows reference_host Runs.loaded
                  "12:2" "7" _ _ Ht Hu H H')).
Defined.

(** X5: the range from 80 down to 40. *)
Lemma inverted_temperature_range_is_empty_run :
  (temperatureRange Runs.inverted = (VNum 80, VNum 40) /\
   (40 <? 80)%float = true) /\
  @filter_rows reference_host Runs.inverted = Ok [].
Proof.
  assert (H : temperatureRange Runs.inverted = (VNum 80, VNum 40))
    by (vm_compute; reflexivity).
  split; [split; [exact H|reflexivity]|].
  exact (@inverted_temperature_range_is_empty reference_host Runs.inverted
           80%float 40%float H eq_refl).
Defined.

(** X6: ".5" typed as the lower bound. *)
Lemma nan_temperature_bound_is_empty_run :
  (fst (temperatureRange Runs.no_digits) = VNum (parseInt ".5") /\
   is_nan (parseInt ".5") = true) /\
  @filter_rows reference_host Runs.no_digits = Ok [].
Proof.
  assert (H : fst (temperatureRange Runs.no_digits) = VNum (parseInt ".5"))
    by (vm_compute; reflexivity).
  split; [split; [exact H|reflexivity]|].
  exact (@nan_temperature_bound_is_empty reference_host Runs.no_digits
           (parseInt ".5") (or_introl H) eq_refl).
Defined.

(** X7: the second reading survives the start date; its date parses. *)
Lemma unparsed_dates_are_dropped_run :
  (truthy (dateFrom Runs.dated) = true /\
   @filter_rows reference_host Runs.dated = Ok (filteredData Runs.dated) /\
   In Runs.second_row (filteredData Runs.dated)) /\
  is_nan (@Date_parse reference_host (date Runs.second_row)) = false.
Proof.
  assert (H1 : truthy (dateFrom Runs.dated) = true) by reflexivity.
  assert (H2 : @filter_rows reference_host Runs.dated =
               Ok (filteredData Runs.dated)) by (vm_compute; reflexivity).
  assert (H3 : In Runs.second_row (filteredData Runs.dated))
    by (vm_compute; left; reflexivity).
  split; [exact (conj H1 (conj H2 H3))|].
  exact (@unparsed_dates_are_dropped reference_host Runs.dated _
           Runs.second_row (or_introl H1) H2 H3).
Defined.

(** X8 after loading, choosing 'medium' and sorting by temperature. *)
Lemma reachable_view_is_current_run :
  @reachable reference_host Runs.medium_by_score /\
  @filter_rows reference_host Runs.medium_by_score =
    Ok (filteredData Runs.medium_by_score).
Proof.
  assert (H : @reachable reference_host Runs.medium_by_score)
    by apply after_reachable.
  split; [exact H|].
  exact (proj1 (@reachable_view_is_current reference_host _ H)).
Defined.

(** X9 in the same state, for the second reading. *)
Lemma reachable_rows_are_normalized_run :
  (@reachable reference_host Runs.medium_by_score /\
   In Runs.second_row (filteredData Runs.medium_by_score)) /\
  severity Runs.second_row =
    @severity_of reference_host (SCORE Runs.second_row).
Proof.
  assert (H : @reachable reference_host Runs.medium_by_score)
    by apply after_reachable.
  assert (Hin : In Runs.second_row (filteredData Runs.medium_by_score))
    by (vm_compute; left; reflexivity).
  split; [exact (conj H Hin)|].
  exact (proj1 (@reachable_rows_are_normalized reference_host _
                  Runs.second_row H (or_intror (or_introl Hin)))).
Defined.


(** X11 in the same state, for the second reading. *)
Lemma reachable_markers_inside_bounds_run :
  (@reachable reference_host Runs.medium_by_score /\
   (forall r, In r (data Runs.medium_by_score) ->
              is_nan (@ToNumber reference_host (LATITUDE r)) = false /\
              is_nan (@ToNumber reference_host (LONGITUDE r)) = false) /\
   mapBounds Runs.medium_by_score =
     Some (latLngBounds (51.5, -0.4)%float (51.8, -0.1)%float) /\
   In Runs.second_row (filteredData Runs.medium_by_score)) /\
  @inside (latLngBounds (51.5, -0.4)%float (51.8, -0.1)%float)
          51.6%float (-0.2)%float.
Proof.
  assert (H : @reachable reference_host Runs.medium_by_score)
    by apply after_reachable.
  assert (Hnum : forall r, In r (data Runs.medium_by_score) ->
              is_nan (@ToNumber reference_host (LATITUDE r)) = false /\
              is_nan (@ToNumber reference_host (LONGITUDE r)) = false).
  { intros r Hr. vm_compute in Hr.
    destruct Hr as [<-|[<-|[<-|[<-|[]]]]]; split; reflexivity. }
  assert (Hb : mapBounds Runs.medium_by_score =
     Some (latLngBounds (51.5, -0.4)%float (51.8, -0.1)%float))
    by (vm_compute; reflexivity).
  assert (Hin : In Runs.second_row (filteredData Runs.medium_by_score))
    by (vm_compute; left; reflexivity).
  split; [exact (conj H (conj Hnum (conj Hb Hin)))|].
  exact (@reachable_markers_inside_bounds reference_host _ _
           Runs.second_row H Hnum Hb Hin).
Defined.

(** X12 in the same state: the second reading is in the 'medium' band. *)
Lemma reachable_severity_choice_selects_band_run :
  (@reachable reference_host Runs.medium_by_score /\
   selectedSeverity Runs.medium_by_score = only medium /\
   In Runs.second_row (@displayed reference_host Runs.medium_by_score)) /\
  @severity_of reference_host (SCORE Runs.second_row) = medium.
Proof.
  assert (H : @reachable reference_host Runs.medium_by_score)
    by apply after_reachable.
  assert (Hs : selectedSeverity Runs.medium_by_score = only medium)
    by (vm_compute; reflexivity).
  assert (Hin : In Runs.second_row
                   (@displayed reference_host Runs.medium_by_score))
    by (vm_compute; left; reflexivity).
  split; [exact (conj H (conj Hs Hin))|].
  exact (@reachable_severity_choice_selects_band reference_host _ medium
           Runs.second_row H Hs Hin).
Defined.

(** X13: a reset after the load leaves the map where it is. *)
Lemma only_load_moves_the_map_run :
  ((forall r rs, ResetClicked <> Loaded (r :: rs)) /\
   @step reference_host ResetClicked Runs.searched =
     Ok (rows_of_state (@step reference_host ResetClicked Runs.searched))) /\
  mapBounds (rows_of_state (@step reference_host ResetClicked Runs.searched))
    = mapBounds Runs.searched.
Proof.
  assert (H1 : forall r rs, ResetClicked <> Loaded (r :: rs))
    by (intros r rs; discriminate).
  assert (H2 : @step reference_host ResetClicked Runs.searched =
     Ok (rows_of_state (@step reference_host ResetClicked Runs.searched)))
    by (vm_compute; reflexivity).
  split; [exact (conj H1 H2)|].
  exact (proj2 (proj2 (@only_load_moves_the_map reference_host ResetClicked
                         Runs.searched _ H1 H2))).
Defined.

(** X17 and X18 on the four readings sorted by temperature, descending. *)
Lemma four_scores_numeric :
  forall r, In r (map (@normalize reference_host) Samples.four_scores) ->
            @numeric_sort_value reference_host K_SCORE r.
Proof.
  intros r Hr. simpl in Hr.
  destruct Hr as [<-|[<-|[<-|[<-|[]]]]]; eexists; split; reflexivity.
Defined.

Lemma sorted_rows_in_order_run :
  (forall r, In r (map (@normalize reference_host) Samples.four_scores) ->
             @numeric_sort_value reference_host K_SCORE r) /\
  StronglySorted (@in_order reference_host K_SCORE desc)
    (@sorted_rows reference_host {| key := Some K_SCORE; direction := desc |}
       (map (@normalize reference_host) Samples.four_scores)).
Proof.
  split; [exact four_scores_numeric|].
  exact (@sorted_rows_in_order reference_host K_SCORE desc _
           four_scores_numeric).
Defined.

Lemma sorting_twice_is_sorting_once_run :
  (forall r, In r (map (@normalize reference_host) Samples.four_scores) ->
             @numeric_sort_value reference_host K_SCORE r) /\
  @sorted_rows reference_host {| key := Some K_SCORE; direction := desc |}
    (@sorted_rows reference_host {| key := Some K_SCORE; direction := desc |}
       (map (@normalize reference_host) Samples.four_scores)) =
  @sorted_rows reference_host {| key := Some K_SCORE; direction := desc |}
    (map (@normalize reference_host) Samples.four_scores).
Proof.
  split; [exact four_scores_numeric|].
  exact (@sorting_twice_is_sorting_once reference_host K_SCORE desc _
           four_scores_numeric).
Defined.

(** X20 on a first load with a reading that has no LATITUDE cell: two
    rows, and no map. *)
Lemma nan_coordinate_spoils_framing_run :
  (In Runs.without_latitude
      [Samples.later_reading; Runs.without_latitude] /\
   (is_nan (@ToNumber reference_host (LATITUDE Runs.without_latitude)) = true
    \/ is_nan (@ToNumber reference_host (LONGITUDE Runs.without_latitude))
       = true)) /\
  map_view (@on_complete reference_host
              [Samples.later_reading; Runs.without_latitude]
              initial_state) = None.
Proof.
  assert (Hin : In Runs.without_latitude
                   [Samples.later_reading; Runs.without_latitude])
    by (right; left; reflexivity).
  assert (Hnan : is_nan (@ToNumber reference_host
                           (LATITUDE Runs.without_latitude)) = true
                 \/ is_nan (@ToNumber reference_host
                              (LONGITUDE Runs.without_latitude)) = true)
    by (left; reflexivity).
  split; [exact (conj Hin Hnan)|].
  exact (proj1 (proj2 (proj2 (proj2 (proj2 (proj2
           (@nan_coordinate_spoils_framing reference_host
              [Samples.later_reading; Runs.without_latitude]
              initial_state Runs.without_latitude Hin Hnan)))))
           eq_refl)).
Defined.

(** X25: "55.9" typed as a bound gives 55. *)
Lemma parseInt_drops_the_fraction_run :
  Forall (fun c => is_decimal_digit c = true) (list_ascii_of_string "55") /\
  parseInt ("55" ++ "." ++ "9") = parseInt "55" /\
  parseInt "55" = 55%float.
Proof.
  assert (H : Forall (fun c => is_decimal_digit c = true)
                     (list_ascii_of_string "55"))
    by (repeat constructor).
  split; [exact H|]. split; [|reflexivity].
  exact (proj1 (@parseInt_drops_the_fraction "55" "9" initial_state H)).
Defined.
